(** * A shallow embedding of the metadata-driven LPG engine (src2)

    The development follows the Python sources bottom-up:
    - [Py]      : the fragment of the Python runtime the engine relies on
                  (dynamic values, insertion-ordered dicts, numbers, [str],
                  [==], ordering, [round], [statistics.mean], string search
                  and replace, and the expressions accepted by [eval]);
    - [Nx]      : the operations of [networkx.MultiDiGraph] that are called;
    - the world (graph, aggregation cache, entity map, logs) and its monad;
    - [ExpressionEvaluator], [DynamicGraphBuilder], [RuleEngine];
    - the theorems. *)

From Stdlib Require Import ZArith List String Ascii Bool Lia SpecFloat.
Import ListNotations.
Open Scope string_scope.
Open Scope Z_scope.

Set Implicit Arguments.
Set Warnings "-register-all".


(* ================================================================== *)
(** ** Outcomes of a Python computation *)

(** The exception classes the engine can meet. All derive from
    [Exception], so an [except Exception] handler catches each of them. *)
Inductive exn :=
| ValueError | KeyError | TypeError | NameError | ZeroDivisionError
| AttributeError | IndexError | OverflowError | FileNotFoundError
| StatisticsError | SyntaxError.

(** [Unmodelled] marks behaviour of the host runtime that lies outside the
    fragment embedded here (for instance a format specification other than
    integer padding). It is not an exception: no handler catches it. *)
Inductive outcome (A : Type) :=
| Ok (a : A)
| Raise (e : exn)
| Unmodelled.
Arguments Ok {A} a.
Arguments Raise {A} e.
Arguments Unmodelled {A}.

Definition obind {A B} (o : outcome A) (k : A -> outcome B) : outcome B :=
  match o with
  | Ok a => k a
  | Raise e => Raise e
  | Unmodelled => Unmodelled
  end.

Definition of_option {A} (o : option A) : outcome A :=
  match o with Some a => Ok a | None => Unmodelled end.

(* ================================================================== *)
(** ** Insertion-ordered dictionaries with string keys *)

Definition dict (A : Type) := list (string * A).

Fixpoint dict_get {A} (k : string) (d : dict A) : option A :=
  match d with
  | [] => None
  | (k', v) :: d' => if String.eqb k k' then Some v else dict_get k d'
  end.

Definition dict_has {A} (k : string) (d : dict A) : bool :=
  match dict_get k d with Some _ => true | None => false end.

(** [d[k] = v]: an existing key keeps its position, a new key goes last. *)
Fixpoint dict_set {A} (k : string) (v : A) (d : dict A) : dict A :=
  match d with
  | [] => [(k, v)]
  | (k', v') :: d' =>
      if String.eqb k k' then (k', v) :: d' else (k', v') :: dict_set k v d'
  end.

(** [d.update(d2)] *)
Definition dict_update {A} (d d2 : dict A) : dict A :=
  fold_left (fun acc kv => dict_set (fst kv) (snd kv) acc) d2 d.

Definition dict_keys {A} (d : dict A) : list string := map fst d.

(* ================================================================== *)
(** ** Characters and strings *)

Definition chars (s : string) : list ascii := list_ascii_of_string s.
Definition str_of (l : list ascii) : string := string_of_list_ascii l.

Definition ascii_code (c : ascii) : nat := nat_of_ascii c.

Definition is_digit (c : ascii) : bool :=
  let n := ascii_code c in (48 <=? n)%nat && (n <=? 57)%nat.
Definition is_alpha (c : ascii) : bool :=
  let n := ascii_code c in
  ((65 <=? n)%nat && (n <=? 90)%nat) || ((97 <=? n)%nat && (n <=? 122)%nat).
(** [\w] on ASCII text: letters, digits and the underscore. *)
Definition is_word (c : ascii) : bool :=
  is_alpha c || is_digit c || Ascii.eqb c "_"%char.
Definition is_ascii7 (c : ascii) : bool := (ascii_code c <? 128)%nat.

(** The longest prefix whose characters satisfy [p], and the rest. *)
Fixpoint span {A} (p : A -> bool) (l : list A) : list A * list A :=
  match l with
  | [] => ([], [])
  | x :: l' =>
      if p x then let '(a, b) := span p l' in (x :: a, b) else ([], l)
  end.

Fixpoint starts_with (pre l : list ascii) : option (list ascii) :=
  match pre, l with
  | [], _ => Some l
  | _ :: _, [] => None
  | a :: pre', b :: l' => if Ascii.eqb a b then starts_with pre' l' else None
  end.

(** [old in s] *)
Fixpoint contains (old l : list ascii) : bool :=
  match starts_with old l with
  | Some _ => true
  | None => match l with [] => false | _ :: l' => contains old l' end
  end.

Definition str_contains (old s : string) : bool := contains (chars old) (chars s).

(** [s.replace(old, new)] for a non-empty [old]: every non-overlapping
    occurrence, left to right. The fuel bounds the number of steps by the
    length of the text. *)
Fixpoint replace_all_aux (fuel : nat) (old new l : list ascii) : list ascii :=
  match fuel with
  | O => l
  | S fuel' =>
      match l with
      | [] => []
      | c :: l' =>
          match starts_with old l with
          | Some rest => new ++ replace_all_aux fuel' old new rest
          | None => c :: replace_all_aux fuel' old new l'
          end
      end
  end.

Definition replace_all (old new s : string) : string :=
  match chars old with
  | [] => s
  | o => str_of (replace_all_aux (S (String.length s)) o (chars new) (chars s))
  end.

(** [s.replace(old, new, 1)] for a non-empty [old]: the first occurrence. *)
Fixpoint replace_first_aux (old new l : list ascii) : list ascii :=
  match starts_with old l with
  | Some rest => new ++ rest
  | None => match l with [] => [] | c :: l' => c :: replace_first_aux old new l' end
  end.

Definition replace_first (old new s : string) : string :=
  match chars old with
  | [] => s
  | o => str_of (replace_first_aux o (chars new) (chars s))
  end.

Definition upper_char (c : ascii) : ascii :=
  let n := ascii_code c in
  if (97 <=? n)%nat && (n <=? 122)%nat then ascii_of_nat (n - 32) else c.
(** [s.upper()] on ASCII text. *)
Definition str_upper (s : string) : string := str_of (map upper_char (chars s)).

(** [s.split(".")] *)
Fixpoint split_dot_aux (cur : list ascii) (l : list ascii) : list string :=
  match l with
  | [] => [str_of (rev cur)]
  | c :: l' =>
      if Ascii.eqb c "."%char then str_of (rev cur) :: split_dot_aux [] l'
      else split_dot_aux (c :: cur) l'
  end.
Definition split_dot (s : string) : list string := split_dot_aux [] (chars s).

Definition digit_char (d : Z) : ascii := ascii_of_nat (48 + Z.to_nat d).

(** Decimal digits of a non-negative integer, most significant first. *)
Fixpoint digits_aux (fuel : nat) (z : Z) (acc : list ascii) : list ascii :=
  match fuel with
  | O => acc
  | S fuel' =>
      if z <? 10 then digit_char z :: acc
      else digits_aux fuel' (z / 10) (digit_char (z mod 10) :: acc)
  end.
Definition digits_of (z : Z) : list ascii :=
  digits_aux (S (Z.to_nat (Z.log2 z))) z [].

(** [str(n)] for an [int]. *)
Definition str_of_Z (z : Z) : string :=
  if z <? 0 then str_of ("-"%char :: digits_of (- z)) else str_of (digits_of z).

(** CPython converts no [int] of more than 4300 decimal digits to or
    from text ([sys.int_max_str_digits]): the conversion raises
    [ValueError]. The bit length is looked at first, so that the power is
    only computed for an integer of some 14000 bits or more. *)
Definition too_long_for_text (z : Z) : bool :=
  if Z.log2 (Z.abs z) <? 14000 then false else 10 ^ 4300 <=? Z.abs z.

Definition digit_val (c : ascii) : Z := Z.of_nat (ascii_code c) - 48.
Definition Z_of_digits (l : list ascii) : Z :=
  fold_left (fun acc c => 10 * acc + digit_val c) l 0.

(* ================================================================== *)
(** ** Python floats: IEEE-754 binary64, as [spec_float] *)

Definition prec : Z := 53.
Definition emax : Z := 1024.

Definition float := spec_float.
Definition fadd : float -> float -> float := SFadd prec emax.
Definition fsub : float -> float -> float := SFsub prec emax.
Definition fmul : float -> float -> float := SFmul prec emax.
Definition fdiv : float -> float -> float := SFdiv prec emax.

Definition f_is_nan (f : float) : bool :=
  match f with S754_nan => true | _ => false end.
Definition f_is_finite (f : float) : bool :=
  match f with S754_zero _ | S754_finite _ _ _ => true | _ => false end.
Definition f_is_zero (f : float) : bool :=
  match f with S754_zero _ => true | _ => false end.
Definition f_sign (f : float) : bool :=
  match f with
  | S754_zero s | S754_infinity s | S754_finite s _ _ => s
  | S754_nan => false
  end.

(** The nearest binary64 to the rational [n/d] ([n >= 0], [d > 0]), ties to
    even: the quotient is taken with more than 60 bits and a sticky bit,
    then rounded once. *)
Definition float_of_ratio (neg : bool) (n d : Z) : float :=
  if n =? 0 then S754_zero neg
  else
    let s := Z.max 0 (64 + Z.log2 d - Z.log2 n) in
    let q := (n * 2 ^ s) / d in
    let r := (n * 2 ^ s) mod d in
    let m := 2 * q + (if r =? 0 then 0 else 1) in
    binary_normalize prec emax (if neg then - m else m) (- s - 1) neg.

(** [float(n)] for an [int]: correctly rounded; an infinite result is
    Python's [OverflowError]. *)
Definition float_of_Z (z : Z) : outcome float :=
  let f := binary_normalize prec emax z 0 false in
  if f_is_finite f then Ok f else Raise OverflowError.

(** The exact value of a finite float as a fraction with positive
    denominator. *)
Definition ratio_of_mant (m e : Z) : Z * Z :=
  if 0 <=? e then (m * 2 ^ e, 1) else (m, 2 ^ (- e)).
Definition float_ratio (f : float) : option (Z * Z) :=
  match f with
  | S754_zero _ => Some (0, 1)
  | S754_finite s m e => Some (ratio_of_mant (if s then Z.neg m else Z.pos m) e)
  | _ => None
  end.

Definition qle (a b : Z * Z) : bool := fst a * snd b <=? fst b * snd a.
Definition qlt (a b : Z * Z) : bool := fst a * snd b <? fst b * snd a.
Definition qadd (a b : Z * Z) : Z * Z :=
  (fst a * snd b + fst b * snd a, snd a * snd b).
Definition dec_ratio (d k : Z) : Z * Z :=
  if 0 <=? k then (d * 10 ^ k, 1) else (d, 10 ^ (- k)).

(** [floor (log10 x)] for a positive fraction [x]. *)
Definition le_pow10 (e : Z) (x : Z * Z) : bool := qle (dec_ratio 1 e) x.
Definition floor_log10 (x : Z * Z) : Z :=
  let est := ((Z.log2 (fst x) - Z.log2 (snd x)) * 30103) / 100000 in
  fold_left (fun acc e => if le_pow10 e x then e else acc)
            [est - 2; est - 1; est; est + 1; est + 2] (est - 3).

Definition floor_scaled (x : Z * Z) (k : Z) : Z :=
  if 0 <=? k then fst x / (snd x * 10 ^ k) else (fst x * 10 ^ (- k)) / snd x.

(** Shortest decimal that reads back as the float [m * 2^e]: digits and
    decimal exponent, as [repr] computes them. *)
Section ShortestDigits.
Variables (m e : Z).
Let x := ratio_of_mant m e.
Let hi := ratio_of_mant (2 * m + 1) (e - 1).
Let lo := if (m =? 2 ^ 52) && (-1074 <? e)
          then ratio_of_mant (4 * m - 1) (e - 2)
          else ratio_of_mant (2 * m - 1) (e - 1).
Let inside (v : Z * Z) : bool :=
  if Z.even m then qle lo v && qle v hi else qlt lo v && qlt v hi.

Definition digits_at (p : Z) : option (Z * Z) :=
  let k := floor_log10 x - p + 1 in
  let dlo := floor_scaled x k in
  let dhi := dlo + 1 in
  let vlo := dec_ratio dlo k in
  let vhi := dec_ratio dhi k in
  let lo_closer :=
    let two_x := (2 * fst x, snd x) in
    let s := qadd vlo vhi in
    if qlt two_x s then true
    else if qlt s two_x then false else Z.even dlo in
  match inside vlo, inside vhi with
  | true, true => Some (if lo_closer then dlo else dhi, k)
  | true, false => Some (dlo, k)
  | false, true => Some (dhi, k)
  | false, false => None
  end.

Fixpoint shortest_from (n : nat) (p : Z) : Z * Z :=
  match n with
  | O => (floor_scaled x (floor_log10 x - 16), floor_log10 x - 16)
  | S n' =>
      match digits_at p with
      | Some r => r
      | None => shortest_from n' (p + 1)
      end
  end.

Definition shortest_digits : Z * Z := shortest_from 17 1.
End ShortestDigits.

Fixpoint strip_zeros (fuel : nat) (d k : Z) : Z * Z :=
  match fuel with
  | O => (d, k)
  | S fuel' =>
      if (d mod 10 =? 0) && negb (d =? 0) then strip_zeros fuel' (d / 10) (k + 1)
      else (d, k)
  end.

Definition zeros (n : Z) : list ascii := repeat "0"%char (Z.to_nat n).

(** [repr(x)] for a positive finite float, from its digits. *)
Definition format_repr (d k : Z) : list ascii :=
  let ds := digits_of d in
  let nd := Z.of_nat (List.length ds) in
  let decpt := nd + k in
  if (-4 <? decpt) && (decpt <=? 16) then
    if decpt <=? 0 then chars "0." ++ zeros (- decpt) ++ ds
    else if nd <=? decpt then ds ++ zeros (decpt - nd) ++ chars ".0"
    else firstn (Z.to_nat decpt) ds ++ "."%char :: skipn (Z.to_nat decpt) ds
  else
    let ex := decpt - 1 in
    let exd := digits_of (Z.abs ex) in
    let exd := if (List.length exd <? 2)%nat then "0"%char :: exd else exd in
    firstn 1 ds
    ++ (match skipn 1 ds with [] => [] | tl => "."%char :: tl end)
    ++ "e"%char :: (if ex <? 0 then "-"%char else "+"%char) :: exd.

(** [repr(x)] / [str(x)] for a float. *)
Definition float_repr (f : float) : string :=
  match f with
  | S754_nan => "nan"
  | S754_infinity s => if s then "-inf" else "inf"
  | S754_zero s => if s then "-0.0" else "0.0"
  | S754_finite s m e =>
      let '(d, k) := shortest_digits (Z.pos m) e in
      let '(d, k) := strip_zeros 20 d k in
      str_of ((if s then ["-"%char] else []) ++ format_repr d k)
  end.

(** Numeric comparison of floats; [None] when a NaN is involved. *)
Definition fcompare (a b : float) : option comparison := SFcompare a b.

(** Exact comparison of an [int] with a float. *)
Definition zf_compare (z : Z) (f : float) : option comparison :=
  match f with
  | S754_nan => None
  | S754_infinity s => Some (if s then Gt else Lt)
  | _ =>
      match float_ratio f with
      | Some (n, d) => Some (Z.compare (z * d) n)
      | None => None
      end
  end.

(* ================================================================== *)
(** ** Dynamic values *)

(** The Python objects that flow through the engine: JSON documents, table
    cells, node and edge properties, results of expressions. *)
Inductive value :=
| VNone
| VBool (b : bool)
| VInt (z : Z)
| VFloat (f : float)
| VStr (s : string)
| VList (l : list value)
| VDict (d : list (string * value)).

(** [bool] is a subclass of [int]: both count as numbers. *)
Inductive num := NInt (z : Z) | NFloat (f : float).

Definition as_num (v : value) : option num :=
  match v with
  | VBool b => Some (NInt (if b then 1 else 0))
  | VInt z => Some (NInt z)
  | VFloat f => Some (NFloat f)
  | _ => None
  end.

(** [isinstance(v, (int, float))] *)
Definition is_number (v : value) : bool :=
  match as_num v with Some _ => true | None => false end.

Definition num_compare (a b : num) : option comparison :=
  match a, b with
  | NInt x, NInt y => Some (Z.compare x y)
  | NInt x, NFloat g => zf_compare x g
  | NFloat f, NInt y => option_map CompOpp (zf_compare y f)
  | NFloat f, NFloat g => fcompare f g
  end.

Definition num_is_zero (a : num) : bool :=
  match a with NInt z => z =? 0 | NFloat f => f_is_zero f end.

(** [bool(v)] *)
Definition truthy (v : value) : bool :=
  match v with
  | VNone => false
  | VBool b => b
  | VInt z => negb (z =? 0)
  | VFloat f => negb (f_is_zero f)
  | VStr s => negb (String.eqb s "")
  | VList l => match l with [] => false | _ => true end
  | VDict d => match d with [] => false | _ => true end
  end.

(** [a == b] *)
Fixpoint py_eq (a b : value) {struct a} : bool :=
  match a, b with
  | VNone, VNone => true
  | VStr s, VStr t => String.eqb s t
  | VList l, VList m =>
      (fix go (l m : list value) : bool :=
         match l, m with
         | [], [] => true
         | x :: l', y :: m' => py_eq x y && go l' m'
         | _, _ => false
         end) l m
  | VDict d, VDict e =>
      Nat.eqb (List.length d) (List.length e)
      && (fix go (d : list (string * value)) : bool :=
            match d with
            | [] => true
            | (k, v) :: d' =>
                match dict_get k e with
                | Some w => py_eq v w && go d'
                | None => false
                end
            end) d
  | _, _ =>
      match as_num a, as_num b with
      | Some x, Some y =>
          match num_compare x y with Some Eq => true | _ => false end
      | _, _ => false
      end
  end.

(** The ordering behind [<], [<=], [>], [>=]: [Ok None] is the unordered
    case (a NaN operand), for which each of the four is false. *)
Definition py_order (a b : value) : outcome (option comparison) :=
  match as_num a, as_num b with
  | Some x, Some y => Ok (num_compare x y)
  | _, _ =>
      match a, b with
      | VStr s, VStr t => Ok (Some (String.compare s t))
      | VList _, VList _ => Unmodelled
      | _, _ => Raise TypeError
      end
  end.

Definition py_lt (a b : value) : outcome bool :=
  obind (py_order a b) (fun c => Ok match c with Some Lt => true | _ => false end).
Definition py_gt (a b : value) : outcome bool :=
  obind (py_order a b) (fun c => Ok match c with Some Gt => true | _ => false end).
Definition py_le (a b : value) : outcome bool :=
  obind (py_order a b)
        (fun c => Ok match c with Some Lt | Some Eq => true | _ => false end).
Definition py_ge (a b : value) : outcome bool :=
  obind (py_order a b)
        (fun c => Ok match c with Some Gt | Some Eq => true | _ => false end).

(** [str(v)]; the text of lists and dicts is not modelled. *)
Definition py_str (v : value) : outcome string :=
  match v with
  | VNone => Ok "None"
  | VBool b => Ok (if b then "True" else "False")
  | VInt z => if too_long_for_text z then Raise ValueError else Ok (str_of_Z z)
  | VFloat f => Ok (float_repr f)
  | VStr s => Ok s
  | VList _ | VDict _ => Unmodelled
  end.

(* ------------------------------------------------------------------ *)
(** *** Arithmetic *)

Inductive binop := Add | Sub | Mul | Div | FloorDiv | Mod | Pow.

Definition to_float (a : num) : outcome float :=
  match a with NInt z => float_of_Z z | NFloat f => Ok f end.

(** Arithmetic on two numbers. [int / int] is the correctly rounded
    quotient; a zero divisor raises [ZeroDivisionError] for [/], [//] and
    [%]. Powers and floor division of floats are left unmodelled. *)
Definition num_binop (op : binop) (a b : num) : outcome value :=
  match a, b with
  | NInt x, NInt y =>
      match op with
      | Add => Ok (VInt (x + y))
      | Sub => Ok (VInt (x - y))
      | Mul => Ok (VInt (x * y))
      | Div =>
          if y =? 0 then Raise ZeroDivisionError
          else
            let f := float_of_ratio (negb (Bool.eqb (x <? 0) (y <? 0)))
                                    (Z.abs x) (Z.abs y) in
            if f_is_finite f then Ok (VFloat f) else Raise OverflowError
      | FloorDiv => if y =? 0 then Raise ZeroDivisionError else Ok (VInt (x / y))
      | Mod => if y =? 0 then Raise ZeroDivisionError else Ok (VInt (x mod y))
      | Pow =>
          if 0 <=? y then Ok (VInt (x ^ y))
          else if x =? 0 then Raise ZeroDivisionError else Unmodelled
      end
  | _, _ =>
      obind (to_float a) (fun f =>
      obind (to_float b) (fun g =>
        match op with
        | Add => Ok (VFloat (fadd f g))
        | Sub => Ok (VFloat (fsub f g))
        | Mul => Ok (VFloat (fmul f g))
        | Div => if f_is_zero g then Raise ZeroDivisionError else Ok (VFloat (fdiv f g))
        | FloorDiv | Mod => if f_is_zero g then Raise ZeroDivisionError else Unmodelled
        | Pow => Unmodelled
        end))
  end.

Definition is_seq (v : value) : bool :=
  match v with VStr _ | VList _ => true | _ => false end.
Definition is_int (v : value) : bool :=
  match v with VBool _ | VInt _ => true | _ => false end.

(** [a op b] on values. *)
Definition py_binop (op : binop) (a b : value) : outcome value :=
  match as_num a, as_num b with
  | Some x, Some y => num_binop op x y
  | _, _ =>
      match op, a, b with
      | Add, VStr s, VStr t => Ok (VStr (s ++ t))
      | Add, VList l, VList m => Ok (VList (l ++ m))
      | Mul, _, _ =>
          if (is_seq a && is_int b) || (is_int a && is_seq b) then Unmodelled
          else Raise TypeError
      | Mod, VStr _, _ => Unmodelled
      | _, _, _ => Raise TypeError
      end
  end.

Definition py_neg (a : value) : outcome value :=
  match as_num a with
  | Some (NInt z) => Ok (VInt (- z))
  | Some (NFloat f) => Ok (VFloat (SFopp f))
  | None => Raise TypeError
  end.
Definition py_pos (a : value) : outcome value :=
  match as_num a with
  | Some (NInt z) => Ok (VInt z)
  | Some (NFloat f) => Ok (VFloat f)
  | None => Raise TypeError
  end.

(* ------------------------------------------------------------------ *)
(** *** [round(x, n)] *)

(** Nearest integer to [a/b] ([a >= 0], [b > 0]), ties to even. *)
Definition round_half_even (a b : Z) : Z :=
  let q := a / b in
  let r := a mod b in
  if 2 * r <? b then q
  else if b <? 2 * r then q + 1
  else if Z.even q then q else q + 1.

Definition round_int (z d : Z) : Z :=
  if 0 <=? d then z
  else
    let p := 10 ^ (- d) in
    let r := round_half_even (Z.abs z) p * p in
    if z <? 0 then - r else r.

Definition round_float (f : float) (d : Z) : outcome value :=
  match f with
  | S754_finite s m e =>
      let '(n, den) := ratio_of_mant (Z.pos m) e in
      let r :=
        if 0 <=? d
        then float_of_ratio s (round_half_even (n * 10 ^ d) den) (10 ^ d)
        else float_of_ratio s (round_half_even n (den * 10 ^ (- d)) * 10 ^ (- d)) 1 in
      if f_is_finite r then Ok (VFloat r) else Raise OverflowError
  | _ => Ok (VFloat f)
  end.

(** [round(v, n)] for a number [v]: an [int] stays an [int], a float is
    rounded on its exact decimal expansion. *)
Definition py_round (v n : value) : outcome value :=
  match n with
  | VInt _ | VBool _ =>
      let d := match n with VInt d => d | VBool true => 1 | _ => 0 end in
      match as_num v with
      | Some (NInt z) => Ok (VInt (round_int z d))
      | Some (NFloat f) => round_float f d
      | None => Raise TypeError
      end
  | VNone => Unmodelled
  | _ => Raise TypeError
  end.

(* ------------------------------------------------------------------ *)
(** *** [sum], [max], [min], [statistics.mean], [statistics.stdev] *)

(** [sum(values)]: [0 + v1 + v2 + ...], left to right. (For floats this is
    CPython's plain summation, before the compensated one of 3.12.) *)
Fixpoint py_sum_from (acc : value) (vs : list value) : outcome value :=
  match vs with
  | [] => Ok acc
  | v :: vs' => obind (py_binop Add acc v) (fun acc' => py_sum_from acc' vs')
  end.
Definition py_sum (vs : list value) : outcome value := py_sum_from (VInt 0) vs.

Fixpoint py_best (better : value -> value -> outcome bool)
         (cur : value) (vs : list value) : outcome value :=
  match vs with
  | [] => Ok cur
  | v :: vs' =>
      obind (better v cur) (fun b => py_best better (if b then v else cur) vs')
  end.
(** [max(values)] keeps the first maximum, [min(values)] the first minimum;
    an empty sequence raises [ValueError]. *)
Definition py_max (vs : list value) : outcome value :=
  match vs with [] => Raise ValueError | v :: vs' => py_best py_gt v vs' end.
Definition py_min (vs : list value) : outcome value :=
  match vs with [] => Raise ValueError | v :: vs' => py_best py_lt v vs' end.

(** Exact sum of the data as a fraction, and whether a float was met.
    Non-numbers raise [TypeError]; non-finite floats are not modelled. *)
Fixpoint exact_sum (acc : Z * Z) (any_float : bool) (vs : list value)
  : outcome (Z * Z * bool) :=
  match vs with
  | [] => Ok (acc, any_float)
  | v :: vs' =>
      match as_num v with
      | None => Raise TypeError
      | Some (NInt z) => exact_sum (qadd acc (z, 1)) any_float vs'
      | Some (NFloat f) =>
          match float_ratio f with
          | Some q => exact_sum (qadd acc q) true vs'
          | None => Unmodelled
          end
      end
  end.

(** The data as exact fractions, for [statistics.stdev]. *)
Fixpoint exact_ratios (vs : list value) : outcome (list (Z * Z)) :=
  match vs with
  | [] => Ok []
  | v :: vs' =>
      match as_num v with
      | None => Raise TypeError
      | Some (NInt z) => obind (exact_ratios vs') (fun qs => Ok ((z, 1) :: qs))
      | Some (NFloat f) =>
          match float_ratio f with
          | Some q => obind (exact_ratios vs') (fun qs => Ok (q :: qs))
          | None => obind (exact_ratios vs') (fun _ => Unmodelled)
          end
      end
  end.

(** [int.bit_length()] of a non-negative integer. *)
Definition bit_length (n : Z) : Z := if n =? 0 then 0 else Z.log2 n + 1.

(** [statistics._integer_sqrt_of_frac_rto(n, m)]: the square root of
    [n/m] rounded to an integer, to odd when inexact. *)
Definition _integer_sqrt_of_frac_rto (n m : Z) : Z :=
  let a := Z.sqrt (n / m) in
  if a * a * m =? n then a else Z.lor a 1.

(** [statistics._float_sqrt_of_frac(n, m)]: the square root of [n/m] as
    the nearest float. *)
Definition _float_sqrt_of_frac (n m : Z) : outcome value :=
  let q := (bit_length n - bit_length m - 109) / 2 in
  let '(numerator, denominator) :=
    if 0 <=? q
    then (Z.shiftl (_integer_sqrt_of_frac_rto n (Z.shiftl m (2 * q))) q, 1)
    else (_integer_sqrt_of_frac_rto (Z.shiftl n (- 2 * q)) m, Z.shiftl 1 (- q)) in
  let f := float_of_ratio false numerator denominator in
  if f_is_finite f then Ok (VFloat f) else Raise OverflowError.

(** [statistics.stdev(values)] (CPython 3.11): the sum of squared
    deviations is computed exactly, divided by [n - 1], and the square
    root of that fraction is rounded once. Fewer than two values raise
    [StatisticsError]; non-numbers raise [TypeError]; non-finite floats
    are not modelled. *)
Definition py_stdev (vs : list value) : outcome value :=
  obind (exact_ratios vs) (fun qs =>
    let count := Z.of_nat (List.length qs) in
    if count <? 2 then Raise StatisticsError
    else
      let sx := fold_left qadd qs (0, 1) in
      let sxx := fold_left (fun acc q => qadd acc (fst q * fst q, snd q * snd q))
                           qs (0, 1) in
      (* (count * sxx - sx * sx) / count / (count - 1) *)
      let num := count * fst sxx * (snd sx * snd sx) - fst sx * fst sx * snd sxx in
      let den := snd sxx * (snd sx * snd sx) * count * (count - 1) in
      let g := Z.gcd num den in
      _float_sqrt_of_frac (num / g) (den / g)).

(** [statistics.mean(values)]: the exact mean, returned as an [int] when the
    data are integers and the mean is whole, as the nearest float otherwise. *)
Definition py_mean (vs : list value) : outcome value :=
  match vs with
  | [] => Raise StatisticsError
  | _ =>
      obind (exact_sum (0, 1) false vs) (fun r =>
        let '(s, any_float) := r in
        let n := fst s in
        let d := snd s * Z.of_nat (List.length vs) in
        if negb any_float && (n mod d =? 0) then Ok (VInt (n / d))
        else
          let f := float_of_ratio (n <? 0) (Z.abs n) d in
          if f_is_finite f then Ok (VFloat f) else Raise OverflowError)
  end.

(* ================================================================== *)
(** ** The expressions accepted by [eval]

    The engine hands rewritten expression text to Python's [eval]. The
    fragment of Python's expression language embedded here: number and
    string literals, [True]/[False]/[None], names, attribute access, calls,
    unary [+ - not], binary [+ - * / // % **], chained comparisons with
    [== != < <= > >=], [and]/[or], parentheses. Text that this fragment does
    not read is [Unmodelled]. *)

Inductive token :=
| TNum (v : value)
| TStr (s : string)
| TName (s : string)
| TOp (s : string).

Definition is_space (c : ascii) : bool :=
  Ascii.eqb c " "%char || Ascii.eqb c "009"%char.

(** A number literal at the head of [l]: [digits], [digits.digits],
    [digits.], [.digits], each with an optional exponent. *)
Definition lex_number (l : list ascii) : option (value * list ascii) :=
  let '(ip, r1) := span is_digit l in
  let '(has_dot, fp, r2) :=
    match r1 with
    | c :: r1' =>
        if Ascii.eqb c "."%char
        then let '(fp, r2) := span is_digit r1' in (true, fp, r2)
        else (false, [], r1)
    | [] => (false, [], r1)
    end in
  let '(has_exp, ex, r3) :=
    match r2 with
    | c :: r2' =>
        if Ascii.eqb c "e"%char || Ascii.eqb c "E"%char then
          let '(neg, r2'') :=
            match r2' with
            | s :: t =>
                if Ascii.eqb s "-"%char then (true, t)
                else if Ascii.eqb s "+"%char then (false, t) else (false, r2')
            | [] => (false, r2')
            end in
          let '(ed, r3) := span is_digit r2'' in
          match ed with
          | [] => (false, 0, r2)
          | _ => (true, if neg then - Z_of_digits ed else Z_of_digits ed, r3)
          end
        else (false, 0, r2)
    | [] => (false, 0, r2)
    end in
  let follows_ok :=
    match r3 with
    | c :: _ => negb (is_word c)
    | [] => true
    end in
  match ip, fp with
  | [], [] => None
  | _, _ =>
      if negb follows_ok then None
      else if has_dot || has_exp then
        let mant := Z_of_digits (ip ++ fp) in
        let k := ex - Z.of_nat (List.length fp) in
        let '(n, d) := dec_ratio mant k in
        Some (VFloat (float_of_ratio false n d), r3)
      else
        match ip with
        | c :: _ :: _ =>
            if Ascii.eqb c "0"%char && negb (Z_of_digits ip =? 0) then None
            else Some (VInt (Z_of_digits ip), r3)
        | _ => Some (VInt (Z_of_digits ip), r3)
        end
  end.

(** A string literal opened by [q]: plain characters up to the closing
    quote; escapes and line breaks are not read. *)
Fixpoint lex_string (q : ascii) (l : list ascii) (acc : list ascii)
  : option (string * list ascii) :=
  match l with
  | [] => None
  | c :: l' =>
      if Ascii.eqb c q then Some (str_of (rev acc), l')
      else if Ascii.eqb c "\"%char || Ascii.eqb c "010"%char
              || negb (is_ascii7 c) then None
      else lex_string q l' (c :: acc)
  end.

Definition lex_op (l : list ascii) : option (string * list ascii) :=
  match l with
  | c :: l' =>
      let two (d : ascii) := match l' with x :: _ => Ascii.eqb x d | [] => false end in
      let one := Some (String c EmptyString, l') in
      let pair (d : ascii) := Some (String c (String d EmptyString), tl l') in
      if Ascii.eqb c "*"%char then if two "*"%char then pair "*"%char else one
      else if Ascii.eqb c "/"%char then if two "/"%char then pair "/"%char else one
      else if Ascii.eqb c "="%char then if two "="%char then pair "="%char else None
      else if Ascii.eqb c "!"%char then if two "="%char then pair "="%char else None
      else if Ascii.eqb c "<"%char then
        if two "="%char then pair "="%char
        else if two "<"%char || two ">"%char then None else one
      else if Ascii.eqb c ">"%char then
        if two "="%char then pair "="%char
        else if two ">"%char then None else one
      else if Ascii.eqb c "+"%char || Ascii.eqb c "-"%char || Ascii.eqb c "%"%char
              || Ascii.eqb c "("%char || Ascii.eqb c ")"%char
              || Ascii.eqb c ","%char || Ascii.eqb c "."%char then one
      else None
  | [] => None
  end.

Fixpoint tokenize_aux (fuel : nat) (l : list ascii) : option (list token) :=
  match fuel with
  | O => None
  | S fuel' =>
      match l with
      | [] => Some []
      | c :: l' =>
          if is_space c then tokenize_aux fuel' l'
          else if is_digit c
                  || (Ascii.eqb c "."%char
                      && match l' with d :: _ => is_digit d | [] => false end) then
            match lex_number l with
            | Some (v, r) => option_map (cons (TNum v)) (tokenize_aux fuel' r)
            | None => None
            end
          else if is_alpha c || Ascii.eqb c "_"%char then
            let '(w, r) := span is_word l in
            match r with
            | q :: _ =>
                if Ascii.eqb q "'"%char || Ascii.eqb q "034"%char then None
                else option_map (cons (TName (str_of w))) (tokenize_aux fuel' r)
            | [] => Some [TName (str_of w)]
            end
          else if Ascii.eqb c "'"%char || Ascii.eqb c "034"%char then
            match lex_string c l' [] with
            | Some (s, r) => option_map (cons (TStr s)) (tokenize_aux fuel' r)
            | None => None
            end
          else
            match lex_op l with
            | Some (o, r) => option_map (cons (TOp o)) (tokenize_aux fuel' r)
            | None => None
            end
      end
  end.

Definition tokenize (s : string) : option (list token) :=
  tokenize_aux (S (String.length s)) (chars s).

Inductive unop := Neg | Pos | Not.
Inductive cmpop := CEq | CNe | CLt | CLe | CGt | CGe.

Inductive expr :=
| ELit (v : value)
| EName (x : string)
| EUnary (op : unop) (e : expr)
| EBin (op : binop) (a b : expr)
| ECompare (a : expr) (rest : list (cmpop * expr))
| EAnd (a b : expr)
| EOr (a b : expr)
| EAttr (e : expr) (name : string)
| ECall (f : expr) (args : list expr).

Definition is_keyword (s : string) : bool :=
  existsb (String.eqb s)
    ["and"; "or"; "not"; "in"; "is"; "if"; "else"; "lambda"; "for"; "await";
     "yield"; "True"; "False"; "None"; "async"; "from"; "import"; "while";
     "with"; "as"; "assert"; "break"; "class"; "continue"; "def"; "del";
     "elif"; "except"; "finally"; "global"; "nonlocal"; "pass"; "raise";
     "return"; "try"].

Definition cmp_of_op (s : string) : option cmpop :=
  if String.eqb s "==" then Some CEq
  else if String.eqb s "!=" then Some CNe
  else if String.eqb s "<" then Some CLt
  else if String.eqb s "<=" then Some CLe
  else if String.eqb s ">" then Some CGt
  else if String.eqb s ">=" then Some CGe
  else None.

Definition term_of_op (s : string) : option binop :=
  if String.eqb s "*" then Some Mul
  else if String.eqb s "/" then Some Div
  else if String.eqb s "//" then Some FloorDiv
  else if String.eqb s "%" then Some Mod
  else None.

Definition arith_of_op (s : string) : option binop :=
  if String.eqb s "+" then Some Add
  else if String.eqb s "-" then Some Sub
  else None.

(** Recursive descent following Python's grammar: [or] < [and] < [not] <
    comparison < [+ -] < [* / // %] < unary < [**] < primary. The fuel
    bounds the nesting of calls. *)
Fixpoint p_or (fuel : nat) (ts : list token) : option (expr * list token) :=
  match fuel with
  | O => None
  | S f =>
      match p_and f ts with
      | Some (a, r) => p_or_rest f a r
      | None => None
      end
  end
with p_or_rest (fuel : nat) (acc : expr) (ts : list token)
  : option (expr * list token) :=
  match fuel with
  | O => None
  | S f =>
      match ts with
      | TName n :: r =>
          if String.eqb n "or" then
            match p_and f r with
            | Some (b, r') => p_or_rest f (EOr acc b) r'
            | None => None
            end
          else Some (acc, ts)
      | _ => Some (acc, ts)
      end
  end
with p_and (fuel : nat) (ts : list token) : option (expr * list token) :=
  match fuel with
  | O => None
  | S f =>
      match p_not f ts with
      | Some (a, r) => p_and_rest f a r
      | None => None
      end
  end
with p_and_rest (fuel : nat) (acc : expr) (ts : list token)
  : option (expr * list token) :=
  match fuel with
  | O => None
  | S f =>
      match ts with
      | TName n :: r =>
          if String.eqb n "and" then
            match p_not f r with
            | Some (b, r') => p_and_rest f (EAnd acc b) r'
            | None => None
            end
          else Some (acc, ts)
      | _ => Some (acc, ts)
      end
  end
with p_not (fuel : nat) (ts : list token) : option (expr * list token) :=
  match fuel with
  | O => None
  | S f =>
      match ts with
      | TName n :: r =>
          if String.eqb n "not" then
            match p_not f r with
            | Some (a, r') => Some (EUnary Not a, r')
            | None => None
            end
          else p_cmp f ts
      | _ => p_cmp f ts
      end
  end
with p_cmp (fuel : nat) (ts : list token) : option (expr * list token) :=
  match fuel with
  | O => None
  | S f =>
      match p_arith f ts with
      | Some (a, r) =>
          match p_cmp_rest f r [] with
          | Some ([], r') => Some (a, r')
          | Some (rest, r') => Some (ECompare a rest, r')
          | None => None
          end
      | None => None
      end
  end
with p_cmp_rest (fuel : nat) (ts : list token) (acc : list (cmpop * expr))
  : option (list (cmpop * expr) * list token) :=
  match fuel with
  | O => None
  | S f =>
      match ts with
      | TOp o :: r =>
          match cmp_of_op o with
          | Some c =>
              match p_arith f r with
              | Some (b, r') => p_cmp_rest f r' ((acc ++ [(c, b)])%list)
              | None => None
              end
          | None => Some (acc, ts)
          end
      | _ => Some (acc, ts)
      end
  end
with p_arith (fuel : nat) (ts : list token) : option (expr * list token) :=
  match fuel with
  | O => None
  | S f =>
      match p_term f ts with
      | Some (a, r) => p_arith_rest f a r
      | None => None
      end
  end
with p_arith_rest (fuel : nat) (acc : expr) (ts : list token)
  : option (expr * list token) :=
  match fuel with
  | O => None
  | S f =>
      match ts with
      | TOp o :: r =>
          match arith_of_op o with
          | Some op =>
              match p_term f r with
              | Some (b, r') => p_arith_rest f (EBin op acc b) r'
              | None => None
              end
          | None => Some (acc, ts)
          end
      | _ => Some (acc, ts)
      end
  end
with p_term (fuel : nat) (ts : list token) : option (expr * list token) :=
  match fuel with
  | O => None
  | S f =>
      match p_factor f ts with
      | Some (a, r) => p_term_rest f a r
      | None => None
      end
  end
with p_term_rest (fuel : nat) (acc : expr) (ts : list token)
  : option (expr * list token) :=
  match fuel with
  | O => None
  | S f =>
      match ts with
      | TOp o :: r =>
          match term_of_op o with
          | Some op =>
              match p_factor f r with
              | Some (b, r') => p_term_rest f (EBin op acc b) r'
              | None => None
              end
          | None => Some (acc, ts)
          end
      | _ => Some (acc, ts)
      end
  end
with p_factor (fuel : nat) (ts : list token) : option (expr * list token) :=
  match fuel with
  | O => None
  | S f =>
      match ts with
      | TOp o :: r =>
          if String.eqb o "-" then
            match p_factor f r with
            | Some (a, r') => Some (EUnary Neg a, r')
            | None => None
            end
          else if String.eqb o "+" then
            match p_factor f r with
            | Some (a, r') => Some (EUnary Pos a, r')
            | None => None
            end
          else p_power f ts
      | _ => p_power f ts
      end
  end
with p_power (fuel : nat) (ts : list token) : option (expr * list token) :=
  match fuel with
  | O => None
  | S f =>
      match p_atom f ts with
      | Some (a, r) =>
          match p_trailers f a r with
          | Some (a', TOp o :: r') =>
              if String.eqb o "**" then
                match p_factor f r' with
                | Some (b, r'') => Some (EBin Pow a' b, r'')
                | None => None
                end
              else Some (a', TOp o :: r')
          | other => other
          end
      | None => None
      end
  end
with p_trailers (fuel : nat) (acc : expr) (ts : list token)
  : option (expr * list token) :=
  match fuel with
  | O => None
  | S f =>
      match ts with
      | TOp o :: r =>
          if String.eqb o "." then
            match r with
            | TName n :: r' =>
                if is_keyword n then None else p_trailers f (EAttr acc n) r'
            | _ => None
            end
          else if String.eqb o "(" then
            match r with
            | TOp c :: r' =>
                if String.eqb c ")" then p_trailers f (ECall acc []) r'
                else
                  match p_args f r [] with
                  | Some (args, r'') => p_trailers f (ECall acc args) r''
                  | None => None
                  end
            | _ =>
                match p_args f r [] with
                | Some (args, r'') => p_trailers f (ECall acc args) r''
                | None => None
                end
            end
          else Some (acc, ts)
      | _ => Some (acc, ts)
      end
  end
with p_args (fuel : nat) (ts : list token) (acc : list expr)
  : option (list expr * list token) :=
  match fuel with
  | O => None
  | S f =>
      match p_or f ts with
      | Some (a, TOp o :: r) =>
          if String.eqb o ")" then Some ((acc ++ [a])%list, r)
          else if String.eqb o "," then
            match r with
            | TOp c :: r' =>
                if String.eqb c ")" then Some ((acc ++ [a])%list, r')
                else p_args f r ((acc ++ [a])%list)
            | _ => p_args f r ((acc ++ [a])%list)
            end
          else None
      | _ => None
      end
  end
with p_atom (fuel : nat) (ts : list token) : option (expr * list token) :=
  match fuel with
  | O => None
  | S f =>
      match ts with
      | TNum v :: r => Some (ELit v, r)
      | TStr s :: r =>
          match r with
          | TStr _ :: _ => None
          | _ => Some (ELit (VStr s), r)
          end
      | TName n :: r =>
          if String.eqb n "True" then Some (ELit (VBool true), r)
          else if String.eqb n "False" then Some (ELit (VBool false), r)
          else if String.eqb n "None" then Some (ELit VNone, r)
          else if is_keyword n then None
          else Some (EName n, r)
      | TOp o :: r =>
          if String.eqb o "(" then
            match p_or f r with
            | Some (e, TOp c :: r') =>
                if String.eqb c ")" then Some (e, r') else None
            | _ => None
            end
          else None
      | [] => None
      end
  end.

Definition parse (ts : list token) : option expr :=
  match p_or (16 * List.length ts + 32) ts with
  | Some (e, []) => Some e
  | _ => None
  end.

Definition py_compare_op (c : cmpop) (a b : value) : outcome bool :=
  match c with
  | CEq => Ok (py_eq a b)
  | CNe => Ok (negb (py_eq a b))
  | CLt => py_lt a b
  | CLe => py_le a b
  | CGt => py_gt a b
  | CGe => py_ge a b
  end.

(** Name lookup of [eval(text, {"__builtins__": {}}, locals)]:
    [__debug__] is a constant of the compiler, [True] whatever the
    namespaces hold; any other name is looked up in the local namespace
    first, then in the globals, whose only entry is [__builtins__]; the
    builtins table itself is empty. *)
Definition lookup_name (locals : dict value) (x : string) : outcome value :=
  if String.eqb x "__debug__" then Ok (VBool true)
  else
    match dict_get x locals with
    | Some v => Ok v
    | None => if String.eqb x "__builtins__" then Ok (VDict []) else Raise NameError
    end.

(** The names a [dict] object answers to: its methods and the special
    names. Any other attribute of a dict raises [AttributeError]; what an
    existing attribute yields is not modelled. *)
Definition is_dict_attribute (name : string) : bool :=
  match starts_with (chars "__") (chars name) with
  | Some _ => true
  | None =>
      existsb (String.eqb name)
        ["clear"; "copy"; "fromkeys"; "get"; "items"; "keys"; "pop";
         "popitem"; "setdefault"; "update"; "values"]
  end.

Fixpoint eval_expr (locals : dict value) (e : expr) : outcome value :=
  match e with
  | ELit v => Ok v
  | EName x => lookup_name locals x
  | EUnary op a =>
      obind (eval_expr locals a) (fun v =>
        match op with
        | Neg => py_neg v
        | Pos => py_pos v
        | Not => Ok (VBool (negb (truthy v)))
        end)
  | EBin op a b =>
      obind (eval_expr locals a) (fun x =>
      obind (eval_expr locals b) (fun y => py_binop op x y))
  | ECompare a rest =>
      obind (eval_expr locals a) (fun x =>
        (fix chain (left : value) (rest : list (cmpop * expr)) : outcome value :=
           match rest with
           | [] => Ok (VBool true)
           | (c, b) :: rest' =>
               obind (eval_expr locals b) (fun y =>
               obind (py_compare_op c left y) (fun r =>
                 if r then chain y rest' else Ok (VBool false)))
           end) x rest)
  | EAnd a b =>
      obind (eval_expr locals a) (fun x =>
        if truthy x then eval_expr locals b else Ok x)
  | EOr a b =>
      obind (eval_expr locals a) (fun x =>
        if truthy x then Ok x else eval_expr locals b)
  | EAttr a name =>
      obind (eval_expr locals a) (fun v =>
        match v with
        | VDict _ => if is_dict_attribute name then Unmodelled else Raise AttributeError
        | _ => Unmodelled
        end)
  | ECall f args =>
      obind (eval_expr locals f) (fun _ =>
        (fix eval_args (args : list expr) : outcome value :=
           match args with
           | [] => Raise TypeError
           | a :: args' => obind (eval_expr locals a) (fun _ => eval_args args')
           end) args)
  end.

(** The deepest nesting of parentheses in a token sequence. *)
Definition max_nesting (ts : list token) : nat :=
  snd (fold_left
         (fun (st : nat * nat) t =>
            let '(level, deepest) := st in
            match t with
            | TOp o =>
                if String.eqb o "(" then (S level, Nat.max deepest (S level))
                else if String.eqb o ")" then (Nat.pred level, deepest)
                else st
            | _ => st
            end)
         ts (O, O)).

(** An integer literal of more than 4300 digits. *)
Definition long_integer (ts : list token) : bool :=
  existsb (fun t => match t with
                    | TNum (VInt z) => too_long_for_text z
                    | _ => false
                    end) ts.

(** What [eval] compiles from the text. CPython refuses, with
    [SyntaxError], parentheses nested more than 200 deep and integer
    literals of more than 4300 digits. Beyond 1000 tokens the outcome
    depends on the recursion limits of the interpreter and is not
    modelled. *)
Definition parsed (text : string) : outcome expr :=
  match tokenize text with
  | None => Unmodelled
  | Some [] => Raise SyntaxError
  | Some ts =>
      if (200 <? max_nesting ts)%nat || long_integer ts then Raise SyntaxError
      else if (1000 <? List.length ts)%nat then Unmodelled
      else
        match parse ts with
        | Some e => Ok e
        | None => Unmodelled
        end
  end.

(** [eval(text, {"__builtins__": {}}, locals)] *)
Definition py_eval (text : string) (locals : dict value) : outcome value :=
  obind (parsed text) (eval_expr locals).

(* ------------------------------------------------------------------ *)
(** *** Format specifications: [f"{value:{fmt}}"] *)

(** The integer presentation [d] with an optional width and zero flag
    ([d], [5d], [02d]). *)
Definition parse_int_fmt (fmt : string) : option (bool * Z) :=
  let l := chars fmt in
  let '(zero, l1) :=
    match l with
    | c :: l' => if Ascii.eqb c "0"%char then (true, l') else (false, l)
    | [] => (false, l)
    end in
  let '(w, l2) := span is_digit l1 in
  match l2 with
  | [c] => if Ascii.eqb c "d"%char then Some (zero, Z_of_digits w) else None
  | _ => None
  end.

Definition pad_int (zero : bool) (width : Z) (z : Z) : string :=
  let ds := digits_of (Z.abs z) in
  let sign := if z <? 0 then ["-"%char] else [] in
  let fill := Z.to_nat (width - Z.of_nat (List.length ds + List.length sign)) in
  if zero then str_of (sign ++ repeat "0"%char fill ++ ds)
  else str_of (repeat " "%char fill ++ sign ++ ds).

(** [format(v, fmt)] for a non-empty [fmt]. *)
Definition py_format (v : value) (fmt : string) : outcome string :=
  match parse_int_fmt fmt with
  | Some (zero, w) =>
      match v with
      | VInt z =>
          if too_long_for_text z then Raise ValueError else Ok (pad_int zero w z)
      | VBool b => Ok (pad_int zero w (if b then 1 else 0))
      | VFloat _ | VStr _ => Raise ValueError
      | _ => Raise TypeError
      end
  | None =>
      match v with
      | VNone | VList _ | VDict _ => Raise TypeError
      | _ => Unmodelled
      end
  end.

(* ================================================================== *)
(** ** Regular expressions of the engine, as scanners

    Each scanner returns the matches [re.finditer] yields: leftmost first,
    not overlapping. They read ASCII text ([\w] is then letters, digits and
    the underscore). *)

Definition all_ascii (s : string) : bool := forallb is_ascii7 (chars s).

Record agg_match := mk_agg_match {
  am_text : string;            (* group 0 *)
  am_func : string;            (* group 1 *)
  am_entity : string;          (* group 2 *)
  am_field : option string     (* group 3 *)
}.

Definition agg_funcs : list string :=
  ["avg"; "sum"; "max"; "min"; "count"; "stddev"].

(** [(avg|sum|max|min|count|stddev)\((\w+)(?:\.(\w+))?\)] at the head of [l]. *)
Definition match_agg_at (l : list ascii) : option (agg_match * list ascii) :=
  let try (func : string) : option (agg_match * list ascii) :=
    match starts_with (chars func) l with
    | Some (c :: r2) =>
        if Ascii.eqb c "("%char then
          let '(w1, r3) := span is_word r2 in
          match w1, r3 with
          | _ :: _, d :: r4 =>
              if Ascii.eqb d ")"%char then
                Some (mk_agg_match (func ++ "(" ++ str_of w1 ++ ")")
                                   func (str_of w1) None, r4)
              else if Ascii.eqb d "."%char then
                let '(w2, r5) := span is_word r4 in
                match w2, r5 with
                | _ :: _, e :: r6 =>
                    if Ascii.eqb e ")"%char then
                      Some (mk_agg_match
                              (func ++ "(" ++ str_of w1 ++ "." ++ str_of w2 ++ ")")
                              func (str_of w1) (Some (str_of w2)), r6)
                    else None
                | _, _ => None
                end
              else None
          | _, _ => None
          end
        else None
    | _ => None
    end in
  fold_right (fun func acc => match try func with Some m => Some m | None => acc end)
             None agg_funcs.

Fixpoint find_agg_aux (fuel : nat) (l : list ascii) : list agg_match :=
  match fuel with
  | O => []
  | S fuel' =>
      match l with
      | [] => []
      | _ :: l' =>
          match match_agg_at l with
          | Some (m, rest) => m :: find_agg_aux fuel' rest
          | None => find_agg_aux fuel' l'
          end
      end
  end.
Definition find_agg (s : string) : list agg_match :=
  find_agg_aux (String.length s) (chars s).

(** [(\w+)\.(\w+)]: the matches as (group 0, group 1, group 2). *)
Fixpoint find_refs_aux (fuel : nat) (l : list ascii)
  : list (string * string * string) :=
  match fuel with
  | O => []
  | S fuel' =>
      match l with
      | [] => []
      | c :: l' =>
          if is_word c then
            let '(w1, r) := span is_word l in
            match r with
            | d :: r2 =>
                if Ascii.eqb d "."%char then
                  let '(w2, r3) := span is_word r2 in
                  match w2 with
                  | [] => find_refs_aux fuel' r2
                  | _ =>
                      (str_of w1 ++ "." ++ str_of w2, str_of w1, str_of w2)
                        :: find_refs_aux fuel' r3
                  end
                else find_refs_aux fuel' r
            | [] => []
            end
          else find_refs_aux fuel' l'
      end
  end.
Definition find_refs (s : string) : list (string * string * string) :=
  find_refs_aux (String.length s) (chars s).

(** A placeholder of a template: group 0, group 1 (the reference) and
    group 2 (the format, when given). *)
Definition placeholder := (string * string * option string)%type.

(** [\{ref(?::([^}]+))?\}] at the head of [l], where [ref] is the longest
    run of characters satisfying [p]. *)
Definition match_placeholder_at (p : ascii -> bool) (l : list ascii)
  : option (placeholder * list ascii) :=
  match l with
  | c :: r1 =>
      if Ascii.eqb c "{"%char then
        let '(ref, r2) := span p r1 in
        match ref, r2 with
        | _ :: _, d :: r3 =>
            if Ascii.eqb d "}"%char then
              Some (("{" ++ str_of ref ++ "}", str_of ref, None), r3)
            else if Ascii.eqb d ":"%char then
              let '(fmt, r4) := span (fun x => negb (Ascii.eqb x "}"%char)) r3 in
              match fmt, r4 with
              | _ :: _, _ :: r5 =>
                  Some (("{" ++ str_of ref ++ ":" ++ str_of fmt ++ "}",
                         str_of ref, Some (str_of fmt)), r5)
              | _, _ => None
              end
            else None
        | _, _ => None
        end
      else None
  | [] => None
  end.

Fixpoint find_placeholders_aux (p : ascii -> bool) (fuel : nat) (l : list ascii)
  : list placeholder :=
  match fuel with
  | O => []
  | S fuel' =>
      match l with
      | [] => []
      | _ :: l' =>
          match match_placeholder_at p l with
          | Some (m, rest) => m :: find_placeholders_aux p fuel' rest
          | None => find_placeholders_aux p fuel' l'
          end
      end
  end.

(** The builder's [\{(\w+)(?::([^}]+))?\}]. *)
Definition find_field_placeholders (s : string) : list placeholder :=
  find_placeholders_aux is_word (String.length s) (chars s).

(** The rule engine's [\{([^}:]+)(?::([^}]+))?\}]. *)
Definition find_ref_placeholders (s : string) : list placeholder :=
  find_placeholders_aux
    (fun c => negb (Ascii.eqb c "}"%char || Ascii.eqb c ":"%char))
    (String.length s) (chars s).

(* ================================================================== *)
(** ** [networkx.MultiDiGraph] *)

Record edge := mk_edge {
  e_from : string;
  e_to : string;
  e_key : nat;
  e_attrs : dict value
}.

(** Nodes in insertion order with their attribute dicts; edges in
    insertion order. *)
Record Graph := mk_graph {
  g_nodes : dict (dict value);
  g_edges : list edge
}.

Definition empty_graph : Graph := mk_graph [] [].

Definition has_node (n : string) (g : Graph) : bool := dict_has n (g_nodes g).

(** [G.add_node(n, **attr)]: a new node gets [attr]; for a node already
    present the attributes are updated, nothing is raised. The attribute
    names arrive as keyword arguments, so one that equals the parameter's
    name is rejected by the call. *)
Definition nx_add_node (n : string) (attr : dict value) (g : Graph)
  : outcome Graph :=
  if dict_has "node_for_adding" attr then Raise TypeError
  else
    let old := match dict_get n (g_nodes g) with Some d => d | None => [] end in
    Ok (mk_graph (dict_set n (dict_update old attr) (g_nodes g)) (g_edges g)).

Definition ensure_node (n : string) (nodes : dict (dict value))
  : dict (dict value) :=
  if dict_has n nodes then nodes else dict_set n [] nodes.

Definition edge_between (u v : string) (e : edge) : bool :=
  String.eqb (e_from e) u && String.eqb (e_to e) v.

(** [G.add_edge(u, v, **attr)]: missing endpoints are created with empty
    attributes; the new edge gets the next free key between [u] and [v]. *)
Definition nx_add_edge (u v : string) (attr : dict value) (g : Graph)
  : outcome Graph :=
  if dict_has "u_for_edge" attr || dict_has "v_for_edge" attr then Raise TypeError
  else if dict_has "key" attr then Unmodelled
  else
    let key := List.length (filter (edge_between u v) (g_edges g)) in
    Ok (mk_graph (ensure_node v (ensure_node u (g_nodes g)))
                 (g_edges g ++ [mk_edge u v key (dict_update [] attr)])).

Fixpoint dedup (seen l : list string) : list string :=
  match l with
  | [] => []
  | x :: l' =>
      if existsb (String.eqb x) seen then dedup seen l'
      else x :: dedup (x :: seen) l'
  end.

(** [G.successors(n)]: the targets of the edges leaving [n], each once, in
    the order in which they were first linked. *)
Definition nx_successors (n : string) (g : Graph) : list string :=
  dedup [] (map e_to (filter (fun e => String.eqb (e_from e) n) (g_edges g))).

(** [G.edges(keys=True, data=True)]: the edges by source node, in node
    order; for one source by target, in the order in which the targets
    were first linked; for one pair by key. *)
Definition nx_edges (g : Graph) : list edge :=
  flat_map (fun nd =>
              flat_map (fun v => filter (edge_between (fst nd) v) (g_edges g))
                       (nx_successors (fst nd) g))
           (g_nodes g).

(** [[n for n, d in G.nodes(data=True) if d.get('label') == label]] *)
Definition nodes_with_label (label : string) (g : Graph) : list string :=
  map fst
      (filter (fun nd => match dict_get "label" (snd nd) with
                         | Some v => py_eq v (VStr label)
                         | None => false
                         end)
              (g_nodes g)).

(* ================================================================== *)
(** ** The world and its monad *)

(** What the engine prints, by call site; the wording of the messages is
    left out. *)
Inductive event :=
| EvBuildStart
| EvEntityLoaded (name : string) (count : nat)
| EvRelationshipCreated (name : string) (count : nat)
| EvBuildDone (nodes edges : nat)
| EvTransformStart
| EvRuleHeader (id description type : string)
| EvUnknownType (type : string)
| EvRuleError (e : exn)
| EvTransformDone
| EvLinksAdded (count : nat)
| EvNodesCreated (count : nat)
| EvPropertyFailed (prop : string) (e : exn)
| EvEnrichFailed (node prop : string) (e : exn)
| EvRuleConditionFailed (condition : string) (e : exn)
| EvEnriched (count : nat)
| EvAggregatesCreated (count : nat)
| EvSummaryLine (id type : string) (count : nat).

(** The objects shared by the builder, the evaluator and the rule engine:
    the one graph, the evaluator's aggregation cache, the builder's entity
    map, the engine's transformation log, standard output, and the clock
    read by [now()]. *)
Record World := mk_world {
  graph : Graph;
  agg_cache : dict value;
  entity_node_map : dict (list string);
  transformation_log : list (string * string * nat);
  printed : list event;
  clock : string
}.

Definition M (A : Type) := World -> World * outcome A.

Definition ret {A} (a : A) : M A := fun w => (w, Ok a).
Definition bind {A B} (m : M A) (k : A -> M B) : M B :=
  fun w =>
    match m w with
    | (w', Ok a) => k a w'
    | (w', Raise e) => (w', Raise e)
    | (w', Unmodelled) => (w', Unmodelled)
    end.
Definition raise {A} (e : exn) : M A := fun w => (w, Raise e).
Definition lift {A} (o : outcome A) : M A := fun w => (w, o).

(** [try: m  except Exception as e: h e] *)
Definition try_except {A} (m : M A) (h : exn -> M A) : M A :=
  fun w =>
    match m w with
    | (w', Raise e) => h e w'
    | r => r
    end.

Declare Scope monad_scope.
Delimit Scope monad_scope with monad.
Notation "x <- m ;; k" := (bind m (fun x => k))
  (at level 61, m at next level, right associativity) : monad_scope.
Notation "m ;;; k" := (bind m (fun _ => k))
  (at level 61, right associativity) : monad_scope.
Open Scope monad_scope.

Definition get_graph : M Graph := fun w => (w, Ok (graph w)).
Definition set_graph (g : Graph) : M unit :=
  fun w => (mk_world g (agg_cache w) (entity_node_map w)
                     (transformation_log w) (printed w) (clock w), Ok tt).
Definition get_cache : M (dict value) := fun w => (w, Ok (agg_cache w)).
Definition set_cache (c : dict value) : M unit :=
  fun w => (mk_world (graph w) c (entity_node_map w)
                     (transformation_log w) (printed w) (clock w), Ok tt).
Definition get_entity_map : M (dict (list string)) :=
  fun w => (w, Ok (entity_node_map w)).
Definition set_entity_map (m : dict (list string)) : M unit :=
  fun w => (mk_world (graph w) (agg_cache w) m
                     (transformation_log w) (printed w) (clock w), Ok tt).
Definition log_transformation (id type : string) (count : nat) : M unit :=
  fun w => (mk_world (graph w) (agg_cache w) (entity_node_map w)
                     (transformation_log w ++ [(id, type, count)])
                     (printed w) (clock w), Ok tt).
Definition print (ev : event) : M unit :=
  fun w => (mk_world (graph w) (agg_cache w) (entity_node_map w)
                     (transformation_log w) (printed w ++ [ev]) (clock w), Ok tt).
Definition get_clock : M string := fun w => (w, Ok (clock w)).

(** [for x in xs: body x] *)
Fixpoint for_each {A} (xs : list A) (body : A -> M unit) : M unit :=
  match xs with
  | [] => ret tt
  | x :: xs' => body x ;;; for_each xs' body
  end.

(** A loop that threads a local variable. *)
Fixpoint fold_m {A S} (xs : list A) (s : S) (body : S -> A -> M S) : M S :=
  match xs with
  | [] => ret s
  | x :: xs' => s' <- body s x ;; fold_m xs' s' body
  end.

(** [G.nodes[n]]: the attribute dict of [n], [KeyError] when absent. *)
Definition node_data (n : string) : M (dict value) :=
  fun w =>
    match dict_get n (g_nodes (graph w)) with
    | Some d => (w, Ok d)
    | None => (w, Raise KeyError)
    end.

Definition add_node (n : string) (attr : dict value) : M unit :=
  g <- get_graph ;; g' <- lift (nx_add_node n attr g) ;; set_graph g'.
Definition add_edge (u v : string) (attr : dict value) : M unit :=
  g <- get_graph ;; g' <- lift (nx_add_edge u v attr g) ;; set_graph g'.

(* ================================================================== *)
(** ** ExpressionEvaluator (expression_evaluator.py) *)

Module ExpressionEvaluator.

(** [clear_cache] *)
Definition clear_cache : M unit := set_cache [].

(** [statistics.stdev(values) if len(values) > 1 else 0] *)
Definition stdev_or_zero (values : list value) : outcome value :=
  if (1 <? List.length values)%nat then py_stdev values else Ok (VInt 0).

(** The values of [field] on the nodes in [nodes] that carry the key
    ([if field in node_data: values.append(node_data[field])]). *)
Definition collect_values (field : string) (g : Graph) (nodes : list string)
  : outcome (list value) :=
  fold_left
    (fun acc n =>
       obind acc (fun vs =>
         match dict_get n (g_nodes g) with
         | None => Raise KeyError
         | Some d =>
             match dict_get field d with
             | Some v => Ok (vs ++ [v])%list
             | None => Ok vs
             end
         end))
    nodes (Ok []).

Definition aggregate (function : string) (values : list value) : outcome value :=
  match values with
  | [] => Ok (VInt 0)
  | _ =>
      if String.eqb function "avg" then py_mean values
      else if String.eqb function "sum" then py_sum values
      else if String.eqb function "max" then py_max values
      else if String.eqb function "min" then py_min values
      else if String.eqb function "stddev" then stdev_or_zero values
      else Raise ValueError
  end.

(** [evaluate_aggregation(function, entity, field)] *)
Definition evaluate_aggregation (function entity field : string) : M value :=
  let cache_key := function ++ "_" ++ entity ++ "_" ++ field in
  cache <- get_cache ;;
  match dict_get cache_key cache with
  | Some v => ret v
  | None =>
      g <- get_graph ;;
      match g_nodes g with
      | [] => raise ValueError             (* [if not self.graph] *)
      | _ =>
          let nodes := nodes_with_label entity g in
          result <-
            (if String.eqb function "count"
             then ret (VInt (Z.of_nat (List.length nodes)))
             else values <- lift (collect_values field g nodes) ;;
                  lift (aggregate function values)) ;;
          cache' <- get_cache ;;
          set_cache (dict_set cache_key result cache') ;;;
          ret result
      end
  end.

(** [_prepare_context]: a fresh dict with the same items. *)
Definition _prepare_context (context : dict value) : dict value :=
  fold_left (fun acc kv => dict_set (fst kv) (snd kv) acc) context [].

(** [_replace_functions]: [now()] becomes a quoted timestamp, then each
    aggregation call found in the text is replaced by the text of its
    value; a call without a field, other than [count], is left alone. *)
Definition _replace_functions (expression : string) (context : dict value)
  : M string :=
  now <- get_clock ;;
  let expression :=
    if str_contains "now()" expression
    then replace_all "now()" ("'" ++ now ++ "'") expression
    else expression in
  fold_m (find_agg expression) expression
    (fun expression m =>
       let func := am_func m in
       let entity := am_entity m in
       match am_field m with
       | None =>
           if String.eqb func "count" then
             result <- evaluate_aggregation func entity "" ;;
             s <- lift (py_str result) ;;
             ret (replace_all (am_text m) s expression)
           else ret expression
       | Some field =>
           result <- evaluate_aggregation func entity field ;;
           s <- lift (py_str result) ;;
           ret (replace_all (am_text m) s expression)
       end).

(** Stable sort by decreasing length of the matched text
    ([sorted(..., key=lambda x: len(x[0]), reverse=True)]). *)
Fixpoint insert_by_len (x : string * string) (l : list (string * string))
  : list (string * string) :=
  match l with
  | [] => [x]
  | y :: l' =>
      if (String.length (fst y) <? String.length (fst x))%nat
      then x :: l
      else y :: insert_by_len x l'
  end.
Definition sort_by_len_desc (l : list (string * string))
  : list (string * string) :=
  fold_left (fun acc x => insert_by_len x acc) l [].

(** [_replace_field_references]: each [entity.field] whose entity is a
    dict of the context holding [field] is replaced, once, by the text of
    the value (quoted for a string). *)
Definition _replace_field_references (expression : string)
           (context : dict value) : outcome string :=
  obind
    (fold_left
       (fun acc m =>
          obind acc (fun replacements =>
            let '(text, entity, field) := m in
            match dict_get entity context with
            | Some (VDict d) =>
                match dict_get field d with
                | Some (VStr s) =>
                    let quoted := "'" ++ s ++ "'" in
                    Ok (replacements ++ [(text, quoted)])%list
                | Some v =>
                    obind (py_str v) (fun s =>
                      Ok (replacements ++ [(text, s)])%list)
                | None => Ok replacements
                end
            | _ => Ok replacements
            end))
       (find_refs expression) (Ok []))
    (fun replacements =>
       Ok (fold_left (fun e r => replace_first (fst r) (snd r) e)
                     (sort_by_len_desc replacements) expression)).

(** [evaluate(expression, context)]: the rewritten text goes to Python's
    [eval] with an empty builtins table and the context as local
    namespace; whatever [eval] raises is re-raised as [ValueError]. *)
Definition evaluate (expression : string) (context : dict value) : M value :=
  if negb (all_ascii expression) then lift Unmodelled
  else
    let local_vars := _prepare_context context in
    expression <- _replace_functions expression local_vars ;;
    expression <- lift (_replace_field_references expression local_vars) ;;
    match py_eval expression local_vars with
    | Ok result => ret result
    | Raise _ => raise ValueError
    | Unmodelled => lift Unmodelled
    end.

Fixpoint value_depth (v : value) : nat :=
  match v with
  | VList l => S (fold_right (fun x acc => Nat.max (value_depth x) acc) O l)
  | VDict d => S (fold_right (fun kv acc => Nat.max (value_depth (snd kv)) acc) O d)
  | _ => O
  end.

Definition expression_of (v : option value) : M string :=
  match v with
  | None => raise KeyError
  | Some (VStr s) => ret s
  | Some _ => lift Unmodelled
  end.

(** [evaluate_condition(condition, context)]; the fuel bounds the nesting
    of the condition document. *)
Fixpoint evaluate_condition_fuel (fuel : nat) (condition : value)
         (context : dict value) : M bool :=
  match fuel with
  | O => lift Unmodelled
  | S fuel' =>
      match condition with
      | VDict c =>
          let leaf : M bool :=
            match dict_get "type" c with
            | None => raise KeyError
            | Some ty =>
                if py_eq ty (VStr "field_match") then
                  from_expr <- expression_of (dict_get "from_expression" c) ;;
                  from_val <- evaluate from_expr context ;;
                  to_expr <- expression_of (dict_get "to_expression" c) ;;
                  to_val <- evaluate to_expr context ;;
                  ret (py_eq from_val to_val)
                else if py_eq ty (VStr "expression") then
                  e <- expression_of (dict_get "expression" c) ;;
                  v <- evaluate e context ;;
                  ret (truthy v)
                else ret false
            end in
          match dict_get "operator" c with
          | None => leaf
          | Some (VStr op) =>
              let operator := str_upper op in
              match match dict_get "conditions" c with
                    | None => Some []
                    | Some (VList l) => Some l
                    | Some _ => None
                    end with
              | None => lift Unmodelled
              | Some conditions =>
                  if String.eqb operator "AND" then
                    (fix all (cs : list value) : M bool :=
                       match cs with
                       | [] => ret true
                       | c :: cs' =>
                           b <- evaluate_condition_fuel fuel' c context ;;
                           if b then all cs' else ret false
                       end) conditions
                  else if String.eqb operator "OR" then
                    (fix any (cs : list value) : M bool :=
                       match cs with
                       | [] => ret false
                       | c :: cs' =>
                           b <- evaluate_condition_fuel fuel' c context ;;
                           if b then ret true else any cs'
                       end) conditions
                  else if String.eqb operator "NOT" then
                    match conditions with
                    | [] => raise IndexError
                    | c :: _ =>
                        b <- evaluate_condition_fuel fuel' c context ;;
                        ret (negb b)
                    end
                  else leaf
              end
          | Some _ => raise AttributeError
          end
      | _ => lift Unmodelled
      end
  end.

Definition evaluate_condition (condition : value) (context : dict value)
  : M bool :=
  evaluate_condition_fuel (S (value_depth condition)) condition context.

End ExpressionEvaluator.

(* ================================================================== *)
(** ** DynamicGraphBuilder (dynamic_graph_builder.py) *)

Module DynamicGraphBuilder.

(** A property definition of a schema entity. *)
Record FieldDef := mk_field_def {
  fd_type : option string;
  fd_alias : option string;
  fd_required : option value
}.

Record Entity := mk_entity {
  en_name : string;
  en_source_path : string;
  en_id_field : option string;
  en_id_template : option string;
  en_properties : dict FieldDef
}.

Record RelPropDef := mk_rel_prop {
  rp_source : option string;
  rp_value : option value
}.

Record Relationship := mk_relationship {
  rel_name : string;
  rel_from_entity : string;
  rel_to_entity : string;
  rel_join_condition : value;
  rel_properties : option (dict RelPropDef)
}.

Record Schema := mk_schema {
  entities : list Entity;
  relationships : option (list Relationship)
}.

(** A row of a data frame: column name to cell. *)
Definition Row := dict value.
(** The tabular files by path: what [pd.read_csv] returns for each file
    that exists. *)
Definition Files := dict (list Row).

(** [pd.isna(value)] on a scalar cell. *)
Definition is_na (v : value) : bool :=
  match v with
  | VNone => true
  | VFloat f => f_is_nan f
  | _ => false
  end.

Definition int_of_str (s : string) : outcome value :=
  let l := chars s in
  let '(neg, ds) :=
    match l with
    | c :: l' =>
        if Ascii.eqb c "-"%char then (true, l')
        else if Ascii.eqb c "+"%char then (false, l') else (false, l)
    | [] => (false, l)
    end in
  match ds with
  | [] => Unmodelled
  | _ =>
      if forallb is_digit ds then
        if (4300 <? List.length ds)%nat then Raise ValueError
        else Ok (VInt (if neg then - Z_of_digits ds else Z_of_digits ds))
      else Unmodelled
  end.

(** [_convert_value(value, field_type)] *)
Definition _convert_value (v : value) (field_type : string) : outcome value :=
  match v with
  | VList _ | VDict _ => Unmodelled
  | _ =>
      if is_na v then Ok VNone
      else if String.eqb field_type "integer" then
        match v with
        | VInt z => Ok (VInt z)
        | VBool b => Ok (VInt (if b then 1 else 0))
        | VFloat f =>
            match float_ratio f with
            | Some (n, d) => Ok (VInt (Z.quot n d))
            | None => Raise OverflowError
            end
        | VStr s => int_of_str s
        | _ => Unmodelled
        end
      else if String.eqb field_type "float" then
        match as_num v with
        | Some x => obind (to_float x) (fun f => Ok (VFloat f))
        | None => Unmodelled
        end
      else if String.eqb field_type "string" then
        obind (py_str v) (fun s => Ok (VStr s))
      else if String.eqb field_type "boolean" then Ok (VBool (truthy v))
      else Ok v
  end.

(** [_generate_node_id(entity, row)] *)
Definition _generate_node_id (entity : Entity) (row : Row) : outcome string :=
  match en_id_field entity with
  | Some id_field =>
      match dict_get id_field row with
      | Some v => py_str v
      | None => Raise KeyError
      end
  | None =>
      match en_id_template entity with
      | Some template =>
          if negb (all_ascii template) then Unmodelled
          else
            fold_left
              (fun acc m =>
                 obind acc (fun node_id =>
                   let '(text, field, fmt) := m in
                   match dict_get field row with
                   | None => Raise ValueError
                   | Some v =>
                       obind (match fmt with
                              | Some fmt => py_format v fmt
                              | None => py_str v
                              end)
                             (fun s => Ok (replace_all text s node_id))
                   end))
              (find_field_placeholders template) (Ok template)
      | None => Raise ValueError
      end
  end.

(** [_extract_properties(entity, row)] *)
Definition _extract_properties (entity : Entity) (row : Row)
  : outcome (dict value) :=
  fold_left
    (fun acc item =>
       obind acc (fun properties =>
         let '(field_name, field_def) := item in
         match dict_get field_name row with
         | None =>
             match fd_required field_def with
             | Some r => if truthy r then Raise ValueError else Ok properties
             | None => Ok properties
             end
         | Some v =>
             let prop_name :=
               match fd_alias field_def with Some a => a | None => field_name end in
             let field_type :=
               match fd_type field_def with Some t => t | None => "string" end in
             obind (_convert_value v field_type) (fun converted =>
               let properties := dict_set prop_name converted properties in
               match fd_alias field_def with
               | Some _ => Ok (dict_set field_name converted properties)
               | None => Ok properties
               end)
         end))
    (en_properties entity) (Ok []).

(** The body of the row loop of [_load_entity]. *)
Definition load_row (entity : Entity) (node_ids : list string) (row : Row)
  : M (list string) :=
  node_id <- lift (_generate_node_id entity row) ;;
  properties <- lift (_extract_properties entity row) ;;
  let properties := dict_set "label" (VStr (en_name entity)) properties in
  add_node node_id properties ;;;
  ret (node_ids ++ [node_id])%list.

(** [_load_entity(entity)] *)
Definition _load_entity (files : Files) (entity : Entity) : M unit :=
  match dict_get (en_source_path entity) files with
  | None => raise FileNotFoundError
  | Some df =>
      node_ids <- fold_m df [] (load_row entity) ;;
      m <- get_entity_map ;;
      set_entity_map (dict_set (en_name entity) node_ids m) ;;;
      print (EvEntityLoaded (en_name entity) (List.length node_ids))
  end.

(** [d.get(key)] where the key is itself read from a document. *)
Definition get_by_value (key : value) (d : dict value) : outcome value :=
  match key with
  | VStr k => Ok match dict_get k d with Some v => v | None => VNone end
  | VList _ | VDict _ => Raise TypeError
  | _ => Ok VNone
  end.

(** [_evaluate_join_condition(condition, from_data, to_data)] *)
Definition _evaluate_join_condition (condition : value)
           (from_data to_data : dict value) : outcome bool :=
  match condition with
  | VDict c =>
      let from_field :=
        match dict_get "from_field" c with Some v => v | None => VNone end in
      let to_field :=
        match dict_get "to_field" c with Some v => v | None => VNone end in
      if truthy from_field && truthy to_field then
        obind (get_by_value from_field from_data) (fun a =>
        obind (get_by_value to_field to_data) (fun b => Ok (py_eq a b)))
      else Ok false
  | _ => Unmodelled
  end.

Definition drop (n : nat) (s : string) : string :=
  substring n (String.length s - n) s.
Definition startswith (pre s : string) : bool :=
  match starts_with (chars pre) (chars s) with Some _ => true | None => false end.

Definition get_or_none (k : string) (d : dict value) : value :=
  match dict_get k d with Some v => v | None => VNone end.

(** The edge properties of a matched pair in [_create_relationship]. *)
Definition relationship_edge_props (relationship : Relationship)
           (from_data to_data : dict value) : dict value :=
  let edge_props := [("label", VStr (rel_name relationship))] in
  match rel_properties relationship with
  | None => edge_props
  | Some props =>
      fold_left
        (fun edge_props item =>
           let '(prop_name, prop_def) := item in
           match rp_source prop_def with
           | Some source =>
               if startswith "from." source then
                 dict_set prop_name (get_or_none (drop 5 source) from_data) edge_props
               else if startswith "to." source then
                 dict_set prop_name (get_or_none (drop 3 source) to_data) edge_props
               else edge_props
           | None =>
               match rp_value prop_def with
               | Some v => dict_set prop_name v edge_props
               | None => edge_props
               end
           end)
        props edge_props
  end.

Definition entity_nodes (name : string) (m : dict (list string)) : list string :=
  match dict_get name m with Some l => l | None => [] end.

(** [get_nodes_by_entity(entity_name)] *)
Definition get_nodes_by_entity (entity_name : string) : M (list string) :=
  m <- get_entity_map ;; ret (entity_nodes entity_name m).

(** [_create_relationship(relationship)] *)
Definition _create_relationship (relationship : Relationship) : M unit :=
  from_nodes <- get_nodes_by_entity (rel_from_entity relationship) ;;
  to_nodes <- get_nodes_by_entity (rel_to_entity relationship) ;;
  edges_added <-
    fold_m from_nodes O (fun edges_added from_node =>
      from_data <- node_data from_node ;;
      fold_m to_nodes edges_added (fun edges_added to_node =>
        to_data <- node_data to_node ;;
        matched <- lift (_evaluate_join_condition
                           (rel_join_condition relationship) from_data to_data) ;;
        if matched : bool then
          add_edge from_node to_node
                   (relationship_edge_props relationship from_data to_data) ;;;
          ret (S edges_added)
        else ret edges_added)) ;;
  print (EvRelationshipCreated (rel_name relationship) edges_added).

(** A key of a Python dict must be hashable: lists and dicts are not. A
    NaN is found again by identity only, which is not modelled. *)
Definition hashable (v : value) : outcome unit :=
  match v with
  | VList _ | VDict _ => Raise TypeError
  | VFloat f => if f_is_nan f then Unmodelled else Ok tt
  | _ => Ok tt
  end.

(** [counts[label] = counts.get(label, 0) + 1] on a dict keyed by values:
    an equal key keeps its place and its first spelling. *)
Fixpoint count_up (label : value) (counts : list (value * nat))
  : list (value * nat) :=
  match counts with
  | [] => [(label, 1%nat)]
  | (l, n) :: rest =>
      if py_eq l label then (l, S n) :: rest else (l, n) :: count_up label rest
  end.

(** The by-label loop of [get_graph_stats] over attribute dicts. *)
Definition count_labels (attrs : list (dict value))
  : outcome (list (value * nat)) :=
  fold_left
    (fun acc data =>
       obind acc (fun counts =>
         let label :=
           match dict_get "label" data with Some v => v | None => VStr "Unknown" end in
         obind (hashable label) (fun _ => Ok (count_up label counts))))
    attrs (Ok []).

Record GraphStats := mk_stats {
  total_nodes : nat;
  total_edges : nat;
  node_types : list (value * nat);
  edge_types : list (value * nat)
}.

(** [get_graph_stats()] *)
Definition get_graph_stats : M GraphStats :=
  g <- get_graph ;;
  node_labels <- lift (count_labels (map snd (g_nodes g))) ;;
  edge_labels <- lift (count_labels (map e_attrs (nx_edges g))) ;;
  ret (mk_stats (List.length (g_nodes g)) (List.length (g_edges g))
                node_labels edge_labels).

(** [build_graph()] *)
Definition build_graph (schema : Schema) (files : Files) : M Graph :=
  print EvBuildStart ;;;
  for_each (entities schema) (_load_entity files) ;;;
  match relationships schema with
  | Some rels => for_each rels _create_relationship
  | None => ret tt
  end ;;;
  stats <- get_graph_stats ;;
  print (EvBuildDone (total_nodes stats) (total_edges stats)) ;;;
  get_graph.

(** A fresh builder: empty graph, empty entity map. *)
Definition initial_world (now : string) : World :=
  mk_world empty_graph [] [] [] [] now.

End DynamicGraphBuilder.

(* ================================================================== *)
(** ** RuleEngine (rule_engine.py) *)

Module RuleEngine.
Import ExpressionEvaluator DynamicGraphBuilder.

(** A property definition inside a rule. A key that is present with a
    JSON [null] is [Some VNone]. *)
Record PropDef := mk_prop_def {
  pd_value : option value;
  pd_source : option string;
  pd_expression : option string;
  pd_round : option value
}.

Record EdgeDef := mk_edge_def {
  ed_from : string;
  ed_to : string;
  ed_label : string;
  ed_properties : option (dict PropDef)
}.

Record CrossLink := mk_cross_link {
  cl_from_entity : string;
  cl_to_entity : string;
  cl_link_label : string;
  cl_condition : value;
  cl_properties : option (dict PropDef)
}.

Record DerivedNode := mk_derived_node {
  dn_output_entity : string;
  dn_source_entities : dict string;          (* alias -> entity name *)
  dn_join_condition : value;
  dn_node_id_template : option string;
  dn_properties : option (dict PropDef);
  dn_edges : option (list EdgeDef)
}.

Record RuleCase := mk_rule_case {
  rc_condition : string;
  rc_value : value
}.

Record Enrichment := mk_enrichment {
  er_property : string;
  er_rules : option (list RuleCase);
  er_expression : option string;
  er_value : option value;
  er_round : option value
}.

Record EnrichProperties := mk_enrich {
  ep_target_entity : string;
  ep_enrichments : list Enrichment
}.

Record AggDef := mk_agg_def {
  ad_function : string;
  ad_field : option string;
  ad_round : option value
}.

Record Aggregation := mk_aggregation {
  ag_output_entity : string;
  ag_group_by_entity : string;
  ag_aggregate_entity : string;
  ag_node_id_template : option string;
  ag_aggregations : option (dict AggDef);
  ag_properties : option (dict PropDef);
  ag_edges : option (list EdgeDef)
}.

Inductive RuleBody :=
| RCrossLink (r : CrossLink)
| RDerivedNode (r : DerivedNode)
| REnrichProperties (r : EnrichProperties)
| RAggregation (r : Aggregation)
| ROther (type : string).

Record Transformation := mk_transformation {
  t_id : string;
  t_description : option string;
  t_body : RuleBody
}.

Definition type_name (b : RuleBody) : string :=
  match b with
  | RCrossLink _ => "cross_link"
  | RDerivedNode _ => "derived_node"
  | REnrichProperties _ => "enrich_properties"
  | RAggregation _ => "aggregation"
  | ROther t => t
  end.

Definition or_empty {A} (o : option (list A)) : list A :=
  match o with Some l => l | None => [] end.
Definition or_default (o : option string) (d : string) : string :=
  match o with Some s => s | None => d end.

(** A context entry bound to a node holds that node's attribute dict
    itself, not a copy: what it shows is the node's current data. *)
Inductive centry :=
| CNode (id : string)
| CVal (v : value).
Definition Context := dict centry.

Definition entry_value (g : Graph) (c : centry) : value :=
  match c with
  | CNode id => VDict match dict_get id (g_nodes g) with Some d => d | None => [] end
  | CVal v => v
  end.

(** The context as the evaluator sees it at this moment. *)
Definition snapshot (ctx : Context) : M (dict value) :=
  g <- get_graph ;;
  ret (map (fun kv => (fst kv, entry_value g (snd kv))) ctx).

(** [if "round" in d and isinstance(value, (int, float)): round(...)] *)
Definition apply_round (round : option value) (v : value) : outcome value :=
  match round with
  | Some n => if is_number v then py_round v n else Ok v
  | None => Ok v
  end.

(** [_resolve_source(source, context)] *)
Definition _resolve_source (source : string) (context : dict value)
  : outcome value :=
  match split_dot source with
  | [entity; field] =>
      match dict_get entity context with
      | Some (VDict d) => Ok (get_or_none field d)
      | Some _ => Raise AttributeError
      | None => Raise ValueError
      end
  | _ => Raise ValueError
  end.

(** [_generate_node_id_from_template(template, context)] *)
Definition _generate_node_id_from_template (template : string)
           (context : dict value) : outcome string :=
  if negb (all_ascii template) then Unmodelled
  else
    fold_left
      (fun acc m =>
         obind acc (fun node_id =>
           let '(text, ref, fmt) := m in
           obind (_resolve_source ref context) (fun v =>
           obind (match fmt with
                  | Some fmt => py_format v fmt
                  | None => py_str v
                  end)
                 (fun s => Ok (replace_all text s node_id)))))
      (find_ref_placeholders template) (Ok template).

(* ---------------------------------------------------------------- *)
(** *** cross_link *)

(** The edge properties of a matching pair. *)
Definition cross_link_props (trans : CrossLink) (context : dict value)
  : M (dict value) :=
  fold_m (or_empty (cl_properties trans))
         [("label", VStr (cl_link_label trans))]
         (fun edge_props item =>
            let '(prop_name, prop_def) := item in
            match pd_value prop_def with
            | Some v => ret (dict_set prop_name v edge_props)
            | None =>
                match pd_expression prop_def with
                | Some e =>
                    v <- evaluate e context ;;
                    ret (dict_set prop_name v edge_props)
                | None => ret edge_props
                end
            end).

(** [_apply_cross_link(trans)] *)
Definition _apply_cross_link (id : string) (trans : CrossLink) : M unit :=
  from_nodes <- get_nodes_by_entity (cl_from_entity trans) ;;
  to_nodes <- get_nodes_by_entity (cl_to_entity trans) ;;
  links_added <-
    fold_m from_nodes O (fun links_added from_node =>
      from_data <- node_data from_node ;;
      fold_m to_nodes links_added (fun links_added to_node =>
        to_data <- node_data to_node ;;
        let context := [("from", VDict from_data); ("to", VDict to_data)] in
        matched <- evaluate_condition (cl_condition trans) context ;;
        if matched : bool then
          edge_props <- cross_link_props trans context ;;
          add_edge from_node to_node edge_props ;;;
          ret (S links_added)
        else ret links_added)) ;;
  log_transformation id "cross_link" links_added ;;;
  print (EvLinksAdded links_added).

(* ---------------------------------------------------------------- *)
(** *** derived_node *)

(** The candidate loop of [_find_matching_nodes] for one alias: the first
    candidate for which the join condition holds is bound. *)
Fixpoint first_match (first_alias : string) (first_node : string)
         (alias : string) (join_condition : value) (matched : Context)
         (candidates : list string) : M (option string) :=
  match candidates with
  | [] => ret None
  | candidate_node :: rest =>
      node_data candidate_node ;;;
      let context :=
        dict_update [(first_alias, CNode first_node); (alias, CNode candidate_node)]
                    matched in
      context <- snapshot context ;;
      ok <- evaluate_condition join_condition context ;;
      if ok : bool then ret (Some candidate_node)
      else first_match first_alias first_node alias join_condition matched rest
  end.

(** [_find_matching_nodes]: the bindings, or [None] unless every other
    alias found a node. *)
Definition _find_matching_nodes (first_alias first_node : string)
           (source_entities : dict string)
           (entity_nodes : dict (list string))
           (join_condition : value) : M (option Context) :=
  r <- fold_m source_entities ([], [])
         (fun (st : Context * list string) item =>
            let '(matched, matched_entities) := st in
            let '(alias, _) := item in
            if String.eqb alias first_alias then ret st
            else
              match dict_get alias entity_nodes with
              | None => raise KeyError
              | Some candidates =>
                  found <- first_match first_alias first_node alias
                                       join_condition matched candidates ;;
                  match found with
                  | Some candidate_node =>
                      ret (dict_set (alias ++ "_node_id") (CVal (VStr candidate_node))
                             (dict_set alias (CNode candidate_node) matched),
                           if existsb (String.eqb alias) matched_entities
                           then matched_entities
                           else (matched_entities ++ [alias])%list)
                  | None => ret st
                  end
              end) ;;
  let '(matched, matched_entities) := r in
  let required_entities := (List.length source_entities - 1)%nat in
  ret (if Nat.eqb (List.length matched_entities) required_entities
       then Some matched else None).

(** The value of one property definition of a derived node; [None] when
    the definition has none of [value], [source], [expression]. *)
Definition derived_property_value (prop_def : PropDef) (context : dict value)
  : M (option value) :=
  v <- match pd_value prop_def with
       | Some v => ret (Some v)
       | None =>
           match pd_source prop_def with
           | Some s => v <- lift (_resolve_source s context) ;; ret (Some v)
           | None =>
               match pd_expression prop_def with
               | Some e => v <- evaluate e context ;; ret (Some v)
               | None => ret None
               end
           end
       end ;;
  match v with
  | Some v => v' <- lift (apply_round (pd_round prop_def) v) ;; ret (Some v')
  | None => ret None
  end.

(** One turn of the property loop of [_apply_derived_node], with its
    [try ... except Exception]. *)
Definition derived_property (context : dict value) (properties : dict value)
           (item : string * PropDef) : M (dict value) :=
  let '(prop_name, prop_def) := item in
  try_except
    (v <- derived_property_value prop_def context ;;
     match v with
     | Some v => ret (dict_set prop_name v properties)
     | None => ret properties
     end)
    (fun e => print (EvPropertyFailed prop_name e) ;;; ret properties).

(** [_resolve_node_reference(ref, current_node, context)] *)
Definition _resolve_node_reference (ref current_node : string)
           (context : dict value) : value :=
  if String.eqb ref "new_node" then VStr current_node
  else
    match dict_get (ref ++ "_node_id") context with
    | Some v => v
    | None =>
        if String.eqb ref "facility" then
          match find (fun kv => match snd kv with
                                | VDict d => dict_has "facility_id" d
                                | _ => false
                                end) context with
          | Some (_, VDict d) => get_or_none "facility_id" d
          | _ => VNone
          end
        else VNone
    end.

Definition edge_value_props (label : string) (props : option (dict PropDef))
  : dict value :=
  fold_left
    (fun edge_props item =>
       match pd_value (snd item) with
       | Some v => dict_set (fst item) v edge_props
       | None => edge_props
       end)
    (or_empty props) [("label", VStr label)].

(** An endpoint handed to [add_edge]. Node identifiers are strings here;
    another hashable endpoint is not modelled. *)
Definition as_node_id (v : value) : outcome string :=
  match v with
  | VStr s => Ok s
  | VList _ | VDict _ => Raise TypeError
  | _ => Unmodelled
  end.

(** One turn of the loop of [_create_derived_edges]. *)
Definition create_derived_edge (node_id : string) (context : Context)
           (edge_def : EdgeDef) : M unit :=
  ctx <- snapshot context ;;
  let from_node := _resolve_node_reference (ed_from edge_def) node_id ctx in
  let to_node := _resolve_node_reference (ed_to edge_def) node_id ctx in
  if truthy from_node && truthy to_node then
    u <- lift (as_node_id from_node) ;;
    v <- lift (as_node_id to_node) ;;
    add_edge u v (edge_value_props (ed_label edge_def) (ed_properties edge_def))
  else ret tt.

(** [_create_derived_edges(node_id, edges_def, context)] *)
Definition _create_derived_edges (node_id : string) (edges_def : list EdgeDef)
           (context : Context) : M unit :=
  for_each edges_def (create_derived_edge node_id context).

(** The body of the loop of [_apply_derived_node] over the nodes of the
    first alias. *)
Definition derive_from (trans : DerivedNode) (entity_nodes : dict (list string))
           (first_alias : string) (nodes_created : nat) (first_node : string)
  : M nat :=
  node_data first_node ;;;
  let context : Context :=
    dict_set (first_alias ++ "_node_id") (CVal (VStr first_node))
             [(first_alias, CNode first_node)] in
  matched <- _find_matching_nodes first_alias first_node
               (dn_source_entities trans) entity_nodes (dn_join_condition trans) ;;
  match matched with
  | Some ((_ :: _) as matched) =>
      let context := dict_update context matched in
      ctx <- snapshot context ;;
      node_id <- lift (_generate_node_id_from_template
                         (or_default (dn_node_id_template trans) "") ctx) ;;
      properties <- fold_m (or_empty (dn_properties trans))
                           [("label", VStr (dn_output_entity trans))]
                           (derived_property ctx) ;;
      add_node node_id properties ;;;
      _create_derived_edges node_id (or_empty (dn_edges trans)) context ;;;
      ret (S nodes_created)
  | _ => ret nodes_created
  end.

(** [_apply_derived_node(trans)] *)
Definition _apply_derived_node (id : string) (trans : DerivedNode) : M unit :=
  entity_nodes <-
    fold_m (dn_source_entities trans) ([] : dict (list string))
           (fun acc item =>
              nodes <- get_nodes_by_entity (snd item) ;;
              ret (dict_set (fst item) nodes acc)) ;;
  match dn_source_entities trans with
  | [] => raise IndexError
  | (first_alias, _) :: _ =>
      match dict_get first_alias entity_nodes with
      | None => raise KeyError
      | Some first_nodes =>
          nodes_created <-
            fold_m first_nodes O (derive_from trans entity_nodes first_alias) ;;
          log_transformation id "derived_node" nodes_created ;;;
          print (EvNodesCreated nodes_created)
      end
  end.

(* ---------------------------------------------------------------- *)
(** *** enrich_properties *)

(** [_evaluate_rules(rules, context)]: the value of the first rule whose
    condition is the text ["true"] or evaluates to a true value; a
    condition whose evaluation raises is reported and passed over;
    [None] when no rule applies. *)
Fixpoint _evaluate_rules (rules : list RuleCase) (context : dict value)
  : M value :=
  match rules with
  | [] => ret VNone
  | rule :: rest =>
      let condition := rc_condition rule in
      if String.eqb condition "true" then ret (rc_value rule)
      else
        hit <- try_except
                 (v <- evaluate condition context ;; ret (truthy v))
                 (fun e => print (EvRuleConditionFailed condition e) ;;; ret false) ;;
        if hit : bool then ret (rc_value rule)
        else _evaluate_rules rest context
  end.

(** The syntactic test that selects an expression for precomputation. *)
Definition mentions_aggregate (expression : string) : bool :=
  str_contains "avg(" expression || str_contains "sum(" expression.

(** The precomputation loop of [_apply_enrich_properties]. *)
Definition precompute (enrichments : list Enrichment) : M (dict value) :=
  fold_m enrichments []
         (fun precomputed enrichment =>
            match er_expression enrichment with
            | Some expression =>
                if mentions_aggregate expression then
                  v <- evaluate expression [] ;;
                  ret (dict_set (er_property enrichment) v precomputed)
                else ret precomputed
            | None => ret precomputed
            end).

(** [G.nodes[node_id][prop_name] = value] *)
Definition set_node_property (node_id prop_name : string) (v : value) : M unit :=
  d <- node_data node_id ;;
  g <- get_graph ;;
  set_graph (mk_graph (dict_set node_id (dict_set prop_name v d) (g_nodes g))
                      (g_edges g)).

(** The value an enrichment gives on a node; [None] when it has none of
    [rules], [expression], [value]. *)
Definition enrichment_value (precomputed : dict value) (context : dict value)
           (enrichment : Enrichment) : M (option value) :=
  v <- match er_rules enrichment with
       | Some rules => v <- _evaluate_rules rules context ;; ret (Some v)
       | None =>
           match er_expression enrichment with
           | Some expression =>
               match dict_get (er_property enrichment) precomputed with
               | Some v => ret (Some v)
               | None => v <- evaluate expression context ;; ret (Some v)
               end
           | None =>
               match er_value enrichment with
               | Some v => ret (Some v)
               | None => ret None
               end
           end
       end ;;
  match v with
  | Some v => v' <- lift (apply_round (er_round enrichment) v) ;; ret (Some v')
  | None => ret None
  end.

(** One turn of the inner loop: one enrichment on one node. The context
    holds the node's own attribute dict, so it shows the properties that
    earlier enrichments have just written. *)
Definition enrich_one (precomputed : dict value) (node_id : string)
           (enriched_count : nat) (enrichment : Enrichment) : M nat :=
  try_except
    (d <- node_data node_id ;;
     let context := dict_update [("node", VDict d)] precomputed in
     v <- enrichment_value precomputed context enrichment ;;
     match v with
     | Some v =>
         set_node_property node_id (er_property enrichment) v ;;;
         ret (S enriched_count)
     | None => ret enriched_count
     end)
    (fun e =>
       print (EvEnrichFailed node_id (er_property enrichment) e) ;;;
       ret enriched_count).

(** [_apply_enrich_properties(trans)] *)
Definition _apply_enrich_properties (id : string) (trans : EnrichProperties)
  : M unit :=
  g <- get_graph ;;
  let target_nodes := nodes_with_label (ep_target_entity trans) g in
  clear_cache ;;;
  precomputed <- precompute (ep_enrichments trans) ;;
  fold_m target_nodes O
         (fun enriched_count node_id =>
            node_data node_id ;;;
            fold_m (ep_enrichments trans) enriched_count
                   (enrich_one precomputed node_id)) ;;;
  log_transformation id "enrich_properties" (List.length target_nodes) ;;;
  print (EvEnriched (List.length target_nodes)).

(* ---------------------------------------------------------------- *)
(** *** aggregation *)

(** The successors of the group node that carry the aggregated label. *)
Definition aggregate_members (aggregate_entity : string) (g : Graph)
           (group_node : string) : list string :=
  filter (fun s => match dict_get s (g_nodes g) with
                   | Some d => py_eq (get_or_none "label" d) (VStr aggregate_entity)
                   | None => false
                   end)
         (nx_successors group_node g).

(** The value of one declared aggregation over the members. *)
Definition aggregation_value (g : Graph) (aggregate_nodes : list string)
           (agg_def : AggDef) : outcome value :=
  let function := ad_function agg_def in
  let field := or_default (ad_field agg_def) "" in
  obind
    (if String.eqb function "count"
     then Ok (VInt (Z.of_nat (List.length aggregate_nodes)))
     else
       obind (collect_values field g aggregate_nodes) (fun values =>
         match values with
         | [] => Ok (VInt 0)
         | _ =>
             if String.eqb function "avg" then
               obind (py_sum values) (fun s =>
                 py_binop Div s (VInt (Z.of_nat (List.length values))))
             else if String.eqb function "sum" then py_sum values
             else if String.eqb function "max" then py_max values
             else if String.eqb function "min" then py_min values
             else Ok (VInt 0)
         end))
    (apply_round (ad_round agg_def)).

(** The body of the loop of [_apply_aggregation] over the group nodes. *)
Definition aggregate_group (trans : Aggregation) (nodes_created : nat)
           (group_node : string) : M nat :=
  group_data <- node_data group_node ;;
  g <- get_graph ;;
  let aggregate_nodes := aggregate_members (ag_aggregate_entity trans) g group_node in
  match aggregate_nodes with
  | [] => ret nodes_created
  | _ =>
      agg_values <-
        fold_m (or_empty (ag_aggregations trans)) ([] : dict value)
               (fun agg_values item =>
                  v <- lift (aggregation_value g aggregate_nodes (snd item)) ;;
                  ret (dict_set (fst item) v agg_values)) ;;
      let context := dict_update [("facility", VDict group_data)] agg_values in
      node_id <- lift (_generate_node_id_from_template
                         (or_default (ag_node_id_template trans) "") context) ;;
      let properties :=
        dict_update [("label", VStr (ag_output_entity trans))] agg_values in
      properties <-
        fold_m (or_empty (ag_properties trans)) properties
               (fun properties item =>
                  let '(prop_name, prop_def) := item in
                  match pd_value prop_def with
                  | Some v => ret (dict_set prop_name v properties)
                  | None =>
                      match pd_source prop_def with
                      | Some s =>
                          v <- lift (_resolve_source s context) ;;
                          ret (dict_set prop_name v properties)
                      | None => ret properties
                      end
                  end) ;;
      add_node node_id properties ;;;
      for_each (or_empty (ag_edges trans))
               (fun edge_def =>
                  let label := [("label", VStr (ed_label edge_def))] in
                  if String.eqb (ed_from edge_def) "facility"
                     && String.eqb (ed_to edge_def) "new_node"
                  then add_edge group_node node_id label
                  else if String.eqb (ed_from edge_def) "new_node"
                          && String.eqb (ed_to edge_def) "aggregated_nodes"
                  then for_each aggregate_nodes
                                (fun agg_node => add_edge node_id agg_node label)
                  else ret tt) ;;;
      ret (S nodes_created)
  end.

(** [_apply_aggregation(trans)] *)
Definition _apply_aggregation (id : string) (trans : Aggregation) : M unit :=
  group_nodes <- get_nodes_by_entity (ag_group_by_entity trans) ;;
  nodes_created <- fold_m group_nodes O (aggregate_group trans) ;;
  log_transformation id "aggregation" nodes_created ;;;
  print (EvAggregatesCreated nodes_created).

(* ---------------------------------------------------------------- *)
(** *** apply_transformations *)

Definition dispatch (trans : Transformation) : M unit :=
  match t_body trans with
  | RCrossLink r => _apply_cross_link (t_id trans) r
  | RDerivedNode r => _apply_derived_node (t_id trans) r
  | REnrichProperties r => _apply_enrich_properties (t_id trans) r
  | RAggregation r => _apply_aggregation (t_id trans) r
  | ROther ty => print (EvUnknownType ty)
  end.

(** One turn of the loop of [apply_transformations]. *)
Definition apply_transformation (trans : Transformation) : M unit :=
  print (EvRuleHeader (t_id trans) (or_default (t_description trans) "")
                      (type_name (t_body trans))) ;;;
  try_except (dispatch trans)
             (fun e => print (EvRuleError e) ;;; raise e).

(** [_print_transformation_summary()] *)
Definition _print_transformation_summary : M unit :=
  fun w =>
    for_each (transformation_log w)
             (fun l => print (EvSummaryLine (fst (fst l)) (snd (fst l)) (snd l))) w.

(** [apply_transformations(transformations)] *)
Definition apply_transformations (transformations : list Transformation)
  : M unit :=
  print EvTransformStart ;;;
  for_each transformations apply_transformation ;;;
  print EvTransformDone ;;;
  _print_transformation_summary.

End RuleEngine.

(* ================================================================== *)
(** ** Vocabulary of the statements *)

Module Spec.
Import ExpressionEvaluator DynamicGraphBuilder RuleEngine.

(** An endpoint reference of a derived-node edge that resolves to
    nothing: it is not ["new_node"], the context binds no
    [<ref>_node_id], and, for the ["facility"] sentinel, no bound
    property map holds a [facility_id]. *)
Definition fails_to_resolve (ref : string) (context : Context) (g : Graph)
  : bool :=
  negb (String.eqb ref "new_node")
  && negb (dict_has (ref ++ "_node_id") context)
  && (negb (String.eqb ref "facility")
      || forallb (fun kv => match entry_value g (snd kv) with
                            | VDict d => negb (dict_has "facility_id" d)
                            | _ => true
                            end) context).

(** The property maps bound in a tuple context, in binding order. *)
Definition bound_maps (context : Context) (g : Graph) : list (dict value) :=
  flat_map (fun kv => match entry_value g (snd kv) with
                      | VDict d => [d]
                      | _ => []
                      end) context.

(** What an endpoint reference of a derived-node edge denotes:
    ["new_node"] is the derived node; another reference is what the
    context binds under [<ref>_node_id]; failing that, the ["facility"]
    sentinel is the [facility_id] of the first bound property map that
    holds one. [None] when the reference does not resolve. *)
Definition endpoint (ref node_id : string) (context : Context) (g : Graph)
  : option value :=
  if String.eqb ref "new_node" then Some (VStr node_id)
  else
    match dict_get (ref ++ "_node_id") context with
    | Some c => Some (entry_value g c)
    | None =>
        if String.eqb ref "facility" then
          match find (dict_has "facility_id") (bound_maps context g) with
          | Some d => dict_get "facility_id" d
          | None => None
          end
        else None
    end.

(** An endpoint for which no edge is made: unresolved, or resolved to an
    empty value. *)
Definition omitted (o : option value) : bool :=
  match o with
  | None => true
  | Some v => negb (truthy v)
  end.

Definition names_node (o : option value) : bool :=
  match o with
  | Some (VStr _) => true
  | _ => false
  end.

(** The data of the edge an edge definition asks for: its label and its
    literal properties. *)
Definition edge_data (edge_def : EdgeDef) : dict value :=
  dict_update [] (edge_value_props (ed_label edge_def) (ed_properties edge_def)).

(** An edge definition within the reach of the statement: an endpoint is
    omitted, or both endpoints name nodes and no property of the edge
    carries a name that [add_edge] keeps for itself. *)
Definition plain_edge (node_id : string) (context : Context) (g : Graph)
           (edge_def : EdgeDef) : bool :=
  omitted (endpoint (ed_from edge_def) node_id context g)
  || omitted (endpoint (ed_to edge_def) node_id context g)
  || (names_node (endpoint (ed_from edge_def) node_id context g)
      && names_node (endpoint (ed_to edge_def) node_id context g)
      && negb (existsb (fun k => dict_has k (edge_value_props (ed_label edge_def)
                                                              (ed_properties edge_def)))
                       ["u_for_edge"; "v_for_edge"; "key"])).

(** The edge that an edge definition stands for, as source, target and
    data: none when an endpoint is omitted. *)
Definition derived_edge (node_id : string) (context : Context) (g : Graph)
           (edge_def : EdgeDef) : list (string * string * dict value) :=
  match endpoint (ed_from edge_def) node_id context g,
        endpoint (ed_to edge_def) node_id context g with
  | Some (VStr u), Some (VStr v) =>
      if String.eqb u "" || String.eqb v "" then []
      else [(u, v, edge_data edge_def)]
  | _, _ => []
  end.

Definition edge_shape (e : edge) : string * string * dict value :=
  (e_from e, e_to e, e_attrs e).

(** The same derived-node rule with another edge list. *)
Definition with_edges (trans : DerivedNode) (edges : list EdgeDef)
  : DerivedNode :=
  mk_derived_node (dn_output_entity trans) (dn_source_entities trans)
                  (dn_join_condition trans) (dn_node_id_template trans)
                  (dn_properties trans) (Some edges).

(** No rule of the list applies in [context]: none has the literal
    condition ["true"], and each condition, evaluated in turn, either
    yields a false value or raises (which is reported). The two worlds
    are those before and after the conditions have been evaluated. *)
Inductive no_rule_matches (context : dict value)
  : list RuleCase -> World -> World -> Prop :=
| nrm_nil w : no_rule_matches context [] w w
| nrm_false rule rules w w1 w2 v :
    rc_condition rule <> "true" ->
    evaluate (rc_condition rule) context w = (w1, Ok v) ->
    truthy v = false ->
    no_rule_matches context rules w1 w2 ->
    no_rule_matches context (rule :: rules) w w2
| nrm_raise rule rules w w1 w2 e :
    rc_condition rule <> "true" ->
    evaluate (rc_condition rule) context w = (w1, Raise e) ->
    no_rule_matches context rules
      (fst (print (EvRuleConditionFailed (rc_condition rule) e) w1)) w2 ->
    no_rule_matches context (rule :: rules) w w2.

(** The values of [field] carried by the nodes labelled [entity], in node
    order. A node counts when the key is present, whatever its value
    ([None] included); nothing is filtered on the value. *)
Definition present_values (entity field : string) (g : Graph) : list value :=
  flat_map (fun nd => match dict_get field (snd nd) with
                      | Some v => [v]
                      | None => []
                      end)
           (filter (fun nd => match dict_get "label" (snd nd) with
                              | Some v => py_eq v (VStr entity)
                              | None => false
                              end)
                   (g_nodes g)).

(** Keys of a dict are pairwise distinct (as in any Python dict). *)
Fixpoint unique_keys {A} (d : dict A) : bool :=
  match d with
  | [] => true
  | (k, _) :: d' => negb (dict_has k d') && unique_keys d'
  end.

(** What [evaluate_aggregation] does with a freshly computed result: a
    value is stored in the cache under the key and returned, an error
    leaves the world as it was. *)
Definition store_result (key : string) (o : outcome value) (w : World)
  : World * outcome value :=
  match o with
  | Ok v => (fst (set_cache (dict_set key v (agg_cache w)) w), Ok v)
  | Raise e => (w, Raise e)
  | Unmodelled => (w, Unmodelled)
  end.

Definition value_functions : list string := ["avg"; "sum"; "max"; "min"; "stddev"].

(** The values of [field] on the given nodes that carry the key, in the
    order of the nodes; as for [present_values], nothing is filtered on
    the value. *)
Definition member_values (field : string) (g : Graph) (members : list string)
  : list value :=
  flat_map (fun n => match dict_get n (g_nodes g) with
                     | Some d => match dict_get field d with
                                 | Some v => [v]
                                 | None => []
                                 end
                     | None => []
                     end)
           members.

(** Modelled from the spec, with nulls kept: what an aggregation call in
    an expression yields on the collected values. No value gives 0;
    otherwise [avg] is the exact mean, [sum], [max] and [min] are the
    sum, the largest and the smallest value, and [stddev] is the sample
    standard deviation, that of a single value being 0. *)
Definition expression_aggregate (function : string) (values : list value)
  : outcome value :=
  match values with
  | [] => Ok (VInt 0)
  | [v] =>
      if String.eqb function "avg" then py_mean [v]
      else if String.eqb function "sum" then py_sum [v]
      else if String.eqb function "max" then py_max [v]
      else if String.eqb function "min" then py_min [v]
      else Ok (VInt 0)
  | _ =>
      if String.eqb function "avg" then py_mean values
      else if String.eqb function "sum" then py_sum values
      else if String.eqb function "max" then py_max values
      else if String.eqb function "min" then py_min values
      else py_stdev values
  end.

(** Modelled from the spec, with nulls kept: what a declared aggregation
    of an aggregation rule yields on the collected values. No value gives
    0; otherwise [avg] is the sum divided by the number of values, [sum],
    [max] and [min] are as in expressions, and [stddev] is not computed:
    it is 0. *)
Definition rule_aggregate (function : string) (values : list value)
  : outcome value :=
  match values with
  | [] => Ok (VInt 0)
  | _ =>
      if String.eqb function "avg" then
        obind (py_sum values)
              (fun total => py_binop Div total (VInt (Z.of_nat (List.length values))))
      else if String.eqb function "sum" then py_sum values
      else if String.eqb function "max" then py_max values
      else if String.eqb function "min" then py_min values
      else Ok (VInt 0)
  end.

(** Modelled from the spec: the operator and punctuation symbols of the
    expression grammar of section 4.4 (arithmetic [+ - * / % **],
    comparison [== != < <= > >=], parentheses, the comma of a call and the
    dot of a field reference). *)
Definition grammar_symbols : list string :=
  ["+"; "-"; "*"; "/"; "%"; "**"; "=="; "!="; "<"; "<="; ">"; ">=";
   "("; ")"; ","; "."].

(** Modelled from the spec: a necessary condition for a text to belong to
    the grammar of section 4.4, namely that it uses no other symbol. *)
Definition uses_grammar_symbols_only (text : string) : bool :=
  match tokenize text with
  | Some ts =>
      forallb (fun t => match t with
                        | TOp o => existsb (String.eqb o) grammar_symbols
                        | _ => true
                        end) ts
  | None => false
  end.

(** The identifiers that occur in an expression. *)
Fixpoint names (e : expr) : list string :=
  match e with
  | ELit _ => []
  | EName x => [x]
  | EUnary _ a => names a
  | EBin _ a b => names a ++ names b
  | ECompare a rest => names a ++ flat_map (fun cb => names (snd cb)) rest
  | EAnd a b => names a ++ names b
  | EOr a b => names a ++ names b
  | EAttr a _ => names a
  | ECall f args => names f ++ flat_map names args
  end.

(** The identifier that the evaluation of an expression looks up first,
    when it starts with one: operands are evaluated left to right, the
    callee before the arguments. *)
Fixpoint leading_name (e : expr) : option string :=
  match e with
  | ELit _ => None
  | EName x => Some x
  | EUnary _ a => leading_name a
  | EBin _ a _ => leading_name a
  | ECompare a _ => leading_name a
  | EAnd a _ => leading_name a
  | EOr a _ => leading_name a
  | EAttr a _ => leading_name a
  | ECall f _ => leading_name f
  end.

(** Every edge joins two nodes of the store. *)
Definition edges_closed (g : Graph) : bool :=
  forallb (fun e => has_node (e_from e) g && has_node (e_to e) g) (g_edges g).

(** Node [n] is in the store and carries the property [k]. *)
Definition has_property (n k : string) (g : Graph) : bool :=
  match dict_get n (g_nodes g) with
  | Some d => dict_has k d
  | None => false
  end.

(** The edge list starts with [es]. *)
Definition edges_extend (es : list edge) (g : Graph) : Prop :=
  exists rest, g_edges g = (es ++ rest)%list.

(** Pairwise distinct names. *)
Fixpoint distinct (l : list string) : bool :=
  match l with
  | [] => true
  | x :: l' => negb (existsb (String.eqb x) l') && distinct l'
  end.

(** How [evaluate] reports the result of the host evaluation. *)
Definition reraised (o : outcome value) : outcome value :=
  match o with
  | Ok v => Ok v
  | Raise _ => Raise ValueError
  | Unmodelled => Unmodelled
  end.

(** The rule applies in [context]: its condition is the text ["true"], or
    it evaluates to a true value. The two worlds are those before and
    after the condition has been looked at. *)
Inductive rule_applies (context : dict value) (rule : RuleCase)
  : World -> World -> Prop :=
| ra_literal w :
    rc_condition rule = "true" -> rule_applies context rule w w
| ra_true w w' v :
    rc_condition rule <> "true" ->
    evaluate (rc_condition rule) context w = (w', Ok v) ->
    truthy v = true ->
    rule_applies context rule w w'.

(** The log entries a rule of this kind appends when it succeeds. *)
Definition logged (t : Transformation) (count : nat)
  : list (string * string * nat) :=
  match t_body t with
  | ROther _ => []
  | b => [(t_id t, type_name b, count)]
  end.

(** What a declared field asks of the row and gives to the extracted
    properties: a required field is a column of the row; a field that is
    a column is stored under its alias, or under its own name when it has
    none, and an aliased field is stored under its own name as well. *)
Definition field_extracted (row properties : dict value)
           (item : string * FieldDef) : Prop :=
  let '(field_name, field_def) := item in
  (match fd_required field_def with
   | Some r => truthy r = true
   | None => False
   end -> dict_has field_name row = true)
  /\ (dict_has field_name row = true ->
      dict_has (match fd_alias field_def with
                | Some a => a
                | None => field_name
                end) properties = true
      /\ (fd_alias field_def <> None -> dict_has field_name properties = true)).

(** The sum of the counts of a by-label table. *)
Definition counted (counts : list (value * nat)) : nat :=
  fold_right (fun c n => (snd c + n)%nat) O counts.

(** A text that can stand between single quotes as it is: no single
    quote, no backslash, no line feed, 7-bit characters only. *)
Definition plain_text (s : string) : bool :=
  forallb (fun c => negb (Ascii.eqb c "'"%char)
                    && negb (Ascii.eqb c "\"%char || Ascii.eqb c "010"%char
                             || negb (is_ascii7 c)))
          (chars s).

End Spec.

(* ================================================================== *)
(** ** A small data set, used to exercise the statements *)

Module Demo.
Import ExpressionEvaluator DynamicGraphBuilder RuleEngine.

Definition entity_A : Entity :=
  mk_entity "A" "a.csv" (Some "aid") None
    [("aid", mk_field_def (Some "string") None None);
     ("x", mk_field_def (Some "integer") None None)].

Definition entity_B : Entity :=
  mk_entity "B" "b.csv" None (Some "B_{aid}_{year}{month:02d}")
    [("aid", mk_field_def (Some "string") None None);
     ("year", mk_field_def (Some "integer") None None);
     ("month", mk_field_def (Some "integer") None None);
     ("y", mk_field_def (Some "integer") None None)].

Definition files : Files :=
  [("a.csv", [[("aid", VStr "a1"); ("x", VInt 45000)];
              [("aid", VStr "a2"); ("x", VInt 2)]]);
   ("b.csv", [[("aid", VStr "a1"); ("year", VInt 2024); ("month", VInt 1);
               ("y", VInt 100000)];
              [("aid", VStr "a2"); ("year", VInt 2024); ("month", VInt 12);
               ("y", VInt 0)]])].

Definition schema : Schema := mk_schema [entity_A; entity_B] None.

(** The world after [build_graph]: nodes [a1], [a2] labelled [A] and
    [B_a1_202401], [B_a2_202412] labelled [B]. *)
Definition built : World :=
  fst (build_graph schema files (initial_world "2024-01-01T00:00:00")).

Definition same_aid : value :=
  VDict [("type", VStr "field_match");
         ("from_expression", VStr "a.aid");
         ("to_expression", VStr "b.aid")].

Definition context_a1 : Context :=
  [("a", CNode "a1"); ("a_node_id", CVal (VStr "a1"))].

(** A graph with two nodes labelled [D], of ratio 1 and 3. *)
Definition two_d : World :=
  mk_world
    (mk_graph [("d1", [("label", VStr "D"); ("ratio", VInt 1)]);
               ("d2", [("label", VStr "D"); ("ratio", VInt 3)])] [])
    [] [] [] [] "2024-01-01T00:00:00".

(** A rating of which neither rule applies on [d1]: the first condition
    is false there, the second one raises (no such field). *)
Definition rating : Enrichment :=
  mk_enrichment "rating"
    (Some [mk_rule_case "node.ratio > max(D.ratio)" (VStr "Top");
           mk_rule_case "node.missing < 1" (VStr "Low")])
    None None None.

Definition rating_rules : list RuleCase := or_empty (er_rules rating).
Definition context_d1 : dict value :=
  dict_update [("node", VDict [("label", VStr "D"); ("ratio", VInt 1)])] [].
Definition two_d_after_rules : World :=
  fst (_evaluate_rules rating_rules context_d1 two_d).

Definition edge_from_a : EdgeDef := mk_edge_def "a" "new_node" "HAS_D" None.
Definition edge_from_facility : EdgeDef :=
  mk_edge_def "facility" "new_node" "AT" None.

(** A derived-node rule that creates one [D] node per [A] node and records
    on each the number of [D] nodes seen by [count(D)]. *)
Definition derive_D : Transformation :=
  mk_transformation "T1" None
    (RDerivedNode
       (mk_derived_node "D" [("a", "A"); ("b", "B")] same_aid
          (Some "D_{a.aid}")
          (Some [("seen", mk_prop_def None None (Some "count(D)") None)])
          None)).

Definition edge_to_b : EdgeDef := mk_edge_def "new_node" "b" "FROM_B" None.

(** A derived-node rule with three edge definitions, of which the second
    has an endpoint that does not resolve. *)
Definition derive_D_linked : DerivedNode :=
  mk_derived_node "D" [("a", "A"); ("b", "B")] same_aid
    (Some "D_{a.aid}")
    (Some [("aid", mk_prop_def None (Some "a.aid") None None)])
    (Some [edge_from_a; edge_from_facility; edge_to_b]).

(** The nodes of the two source aliases of the rule, and the tuple that
    matches [a1]. *)
Definition sources_of_D : dict (list string) :=
  [("a", ["a1"; "a2"]); ("b", ["B_a1_202401"; "B_a2_202412"])].
Definition matched_b : Context :=
  [("b", CNode "B_a1_202401"); ("b_node_id", CVal (VStr "B_a1_202401"))].
Definition context_a1_b : Context := dict_update context_a1 matched_b.

(** A cross-link rule that stores [count(D)] on each edge it adds. *)
Definition link_counting_D : Transformation :=
  mk_transformation "T2" None
    (RCrossLink
       (mk_cross_link "A" "B" "LINK"
          (VDict [("type", VStr "expression");
                  ("expression", VStr "from.aid == to.aid")])
          (Some [("n", mk_prop_def None None (Some "count(D)") None)]))).

(** An enrichment whose expression contains [max(...)] and refers to the
    node. *)
Definition gap_to_max : Enrichment :=
  mk_enrichment "gap" None (Some "node.ratio - max(D.ratio)") None None.
(** The same with [avg(...)]. *)
Definition gap_to_avg : Enrichment :=
  mk_enrichment "gap" None (Some "node.ratio - avg(D.ratio)") None None.

(** The world after that rule: two [LINK] edges. *)
Definition linked : World :=
  fst (apply_transformations [link_counting_D] built).

(** A cross-link rule from a label that only rules could create. *)
Definition link_from_D : CrossLink :=
  mk_cross_link "D" "A" "OF" (VDict [("type", VStr "expression");
                                     ("expression", VStr "1 == 1")]) None.

(** Two rows of [a.csv] with the same identifier. *)
Definition duplicate_files : Files :=
  [("a.csv", [[("aid", VStr "a1"); ("x", VInt 1)];
              [("aid", VStr "a1"); ("x", VInt 2)]])].

(** Two nodes labelled [E]; the second carries [f] with the value [None]. *)
Definition with_null : World :=
  mk_world
    (mk_graph [("e1", [("label", VStr "E"); ("f", VInt 1)]);
               ("e2", [("label", VStr "E"); ("f", VNone)])] [])
    [] [] [] [] "2024-01-01T00:00:00".

(** A join condition in the [from_field]/[to_field] form. *)
Definition by_aid : value :=
  VDict [("type", VStr "field_match");
         ("from_field", VStr "aid"); ("to_field", VStr "aid")].

Definition from_to_a1 : dict value :=
  [("from", VDict [("aid", VStr "a1")]); ("to", VDict [("aid", VStr "a1")])].

(** One node labelled [a_b] with [c = 5]; no node is labelled [a]. *)
Definition keyed : World :=
  mk_world (mk_graph [("n1", [("label", VStr "a_b"); ("c", VInt 5)])] [])
           [] [] [] [] "2024-01-01T00:00:00".

(** A cross-link rule whose condition is written with field names. *)
Definition link_by_field : Transformation :=
  mk_transformation "T3" None
    (RCrossLink (mk_cross_link "A" "B" "LINK" by_aid None)).

(** A derived-node rule over a single source entity. *)
Definition copy_of_A : DerivedNode :=
  mk_derived_node "C" [("a", "A")]
    (VDict [("type", VStr "expression"); ("expression", VStr "1 == 1")])
    (Some "C_{a.aid}") None None.

(** A schema relationship whose join condition is written with
    expressions. *)
Definition joined_by_expression : Relationship :=
  mk_relationship "HAS_B" "A" "B" same_aid None.

(** An enrichment that fails on every node: no node has the field. *)
Definition failing_enrichment : EnrichProperties :=
  mk_enrich "D" [mk_enrichment "score" None (Some "node.missing + 1") None None].

(** An entity whose column [aid] is stored under the alias [site]. *)
Definition entity_aliased : Entity :=
  mk_entity "A" "a.csv" (Some "aid") None
    [("aid", mk_field_def (Some "string") (Some "site") (Some (VBool true)));
     ("note", mk_field_def None None None)].

End Demo.

(* ================================================================== *)
(** * Properties *)

(** Closes a conjunction of closed equations by evaluation. *)
Ltac by_evaluation :=
  repeat match goal with |- _ /\ _ => split end; vm_compute; reflexivity.

(** ** Dictionaries *)

Lemma dict_get_set_same {A} (k : string) (v : A) (d : dict A) :
  dict_get k (dict_set k v d) = Some v.
Proof.
  induction d as [|[k' v'] d IH]; simpl.
  - now rewrite String.eqb_refl.
  - destruct (String.eqb k k') eqn:E; simpl; rewrite E; auto.
Qed.

Lemma dict_get_set_other {A} (k k' : string) (v : A) (d : dict A) :
  k <> k' -> dict_get k' (dict_set k v d) = dict_get k' d.
Proof.
  intros Hne. induction d as [|[k0 v0] d IH]; simpl.
  - destruct (String.eqb k' k) eqn:E; auto.
    apply String.eqb_eq in E. congruence.
  - destruct (String.eqb k k0) eqn:E; simpl.
    + apply String.eqb_eq in E. subst k0.
      destruct (String.eqb k' k) eqn:E'; auto.
      apply String.eqb_eq in E'. congruence.
    + destruct (String.eqb k' k0); auto.
Qed.

Lemma dict_keys_set_present {A} (k : string) (v old : A) (d : dict A) :
  dict_get k d = Some old -> dict_keys (dict_set k v d) = dict_keys d.
Proof.
  unfold dict_keys. induction d as [|[k' v'] d IH]; simpl; [discriminate|].
  destruct (String.eqb k k') eqn:E; simpl; intros H; auto.
  f_equal. auto.
Qed.

Lemma dict_set_absent {A} (k : string) (v : A) (d : dict A) :
  dict_get k d = None -> dict_set k v d = (d ++ [(k, v)])%list.
Proof.
  induction d as [|[k' v'] d IH]; simpl; auto.
  destruct (String.eqb k k'); [discriminate|].
  intros H. f_equal. auto.
Qed.

Lemma dict_get_map {A B} (f : A -> B) (k : string) (d : dict A) :
  dict_get k (map (fun kv => (fst kv, f (snd kv))) d) = option_map f (dict_get k d).
Proof.
  induction d as [|[k' v'] d IH]; simpl; auto.
  destruct (String.eqb k k'); auto.
Qed.

Lemma dict_get_app_none {A} (k : string) (d1 d2 : dict A) :
  dict_get k d1 = None -> dict_get k (d1 ++ d2)%list = dict_get k d2.
Proof.
  induction d1 as [|[k' v'] d1 IH]; simpl; auto.
  destruct (String.eqb k k'); [discriminate|auto].
Qed.

(** ** The monad: what a computation leaves untouched *)

(** [keeps f m]: running [m] never changes the component [f] of the world,
    whatever the outcome. *)
Definition keeps {A X} (f : World -> X) (m : M A) : Prop :=
  forall w, f (fst (m w)) = f w.

Section Keeps.
Context {X : Type} (f : World -> X).

Lemma keeps_ret {A} (a : A) : keeps f (ret a).
Proof. now intros w. Qed.

Lemma keeps_raise {A} (e : exn) : keeps f (@raise A e).
Proof. now intros w. Qed.

Lemma keeps_lift {A} (o : outcome A) : keeps f (lift o).
Proof. now intros w. Qed.

Lemma keeps_bind {A B} (m : M A) (k : A -> M B) :
  keeps f m -> (forall a, keeps f (k a)) -> keeps f (bind m k).
Proof.
  intros Hm Hk w. unfold bind. specialize (Hm w).
  destruct (m w) as [w' [a|e|]]; simpl in *; auto.
  rewrite Hk. auto.
Qed.

Lemma keeps_try {A} (m : M A) (h : exn -> M A) :
  keeps f m -> (forall e, keeps f (h e)) -> keeps f (try_except m h).
Proof.
  intros Hm Hh w. unfold try_except. specialize (Hm w).
  destruct (m w) as [w' [a|e|]]; simpl in *; auto.
  rewrite Hh. auto.
Qed.

Lemma keeps_fold_m {A S} (xs : list A) (body : S -> A -> M S) :
  (forall s x, keeps f (body s x)) -> forall s, keeps f (fold_m xs s body).
Proof.
  intros Hb. induction xs as [|x xs IH]; intros s; simpl.
  - apply keeps_ret.
  - apply keeps_bind; auto.
Qed.

Lemma keeps_for_each {A} (xs : list A) (body : A -> M unit) :
  (forall x, keeps f (body x)) -> keeps f (for_each xs body).
Proof.
  intros Hb. induction xs as [|x xs IH]; simpl.
  - apply keeps_ret.
  - apply keeps_bind; auto.
Qed.

Lemma keeps_get_graph : keeps f get_graph.
Proof. now intros w. Qed.
Lemma keeps_get_cache : keeps f get_cache.
Proof. now intros w. Qed.
Lemma keeps_get_entity_map : keeps f get_entity_map.
Proof. now intros w. Qed.
Lemma keeps_get_clock : keeps f get_clock.
Proof. now intros w. Qed.
Lemma keeps_node_data (n : string) : keeps f (node_data n).
Proof. intros w. unfold node_data. now destruct (dict_get n _). Qed.
End Keeps.

Lemma keeps_graph_set_cache c : keeps graph (set_cache c).
Proof. now intros w. Qed.
Lemma keeps_graph_print ev : keeps graph (print ev).
Proof. now intros w. Qed.
Lemma keeps_graph_log i t n : keeps graph (log_transformation i t n).
Proof. now intros w. Qed.
Lemma keeps_emap_set_cache c : keeps entity_node_map (set_cache c).
Proof. now intros w. Qed.
Lemma keeps_emap_set_graph g : keeps entity_node_map (set_graph g).
Proof. now intros w. Qed.
Lemma keeps_emap_print ev : keeps entity_node_map (print ev).
Proof. now intros w. Qed.
Lemma keeps_emap_log i t n : keeps entity_node_map (log_transformation i t n).
Proof. now intros w. Qed.
Lemma keeps_cache_print ev : keeps agg_cache (print ev).
Proof. now intros w. Qed.
Lemma keeps_cache_set_graph g : keeps agg_cache (set_graph g).
Proof. now intros w. Qed.
Lemma keeps_cache_log i t n : keeps agg_cache (log_transformation i t n).
Proof. now intros w. Qed.
Lemma keeps_printed_set_cache c : keeps printed (set_cache c).
Proof. now intros w. Qed.
Lemma keeps_printed_set_graph g : keeps printed (set_graph g).
Proof. now intros w. Qed.

Create HintDb keeps.
#[export] Hint Resolve keeps_ret keeps_raise keeps_lift keeps_get_graph
  keeps_get_cache keeps_get_entity_map keeps_get_clock keeps_node_data
  keeps_graph_set_cache keeps_graph_print keeps_graph_log
  keeps_emap_set_cache keeps_emap_set_graph keeps_emap_print keeps_emap_log
  keeps_cache_print keeps_cache_set_graph keeps_cache_log
  keeps_printed_set_cache keeps_printed_set_graph : keeps.

(** Walks through binds, handlers, loops and case distinctions. *)
Ltac keeps_step :=
  first
    [ solve [auto with keeps]
    | progress cbv zeta
    | apply keeps_bind; [ | intros ]
    | apply keeps_try; [ | intros ]
    | apply keeps_fold_m; intros
    | apply keeps_for_each; intros
    | match goal with
      | |- keeps _ (match ?x with _ => _ end) => destruct x
      | |- keeps _ (if ?b then _ else _) => destruct b
      | |- keeps _ (let '(_, _) := ?p in _) => destruct p
      end ].
Ltac keeps_tac := repeat keeps_step.

Lemma keeps_add_node_emap n attr : keeps entity_node_map (add_node n attr).
Proof. unfold add_node. keeps_tac. Qed.
Lemma keeps_add_edge_emap u v attr : keeps entity_node_map (add_edge u v attr).
Proof. unfold add_edge. keeps_tac. Qed.
Lemma keeps_add_node_cache n attr : keeps agg_cache (add_node n attr).
Proof. unfold add_node. keeps_tac. Qed.
Lemma keeps_add_edge_cache u v attr : keeps agg_cache (add_edge u v attr).
Proof. unfold add_edge. keeps_tac. Qed.
Lemma keeps_add_node_printed n attr : keeps printed (add_node n attr).
Proof. unfold add_node. keeps_tac. Qed.
Lemma keeps_add_edge_printed u v attr : keeps printed (add_edge u v attr).
Proof. unfold add_edge. keeps_tac. Qed.
#[export] Hint Resolve keeps_add_node_emap keeps_add_edge_emap
  keeps_add_node_cache keeps_add_edge_cache
  keeps_add_node_printed keeps_add_edge_printed : keeps.

(** ** The evaluator only ever touches the cache *)

Section EvaluatorFrame.
Import ExpressionEvaluator.
Context {X : Type} (f : World -> X).
Hypothesis f_cache : forall c, keeps f (set_cache c).

Lemma keeps_evaluate_aggregation fn en fd :
  keeps f (evaluate_aggregation fn en fd).
Proof using f_cache. unfold evaluate_aggregation. keeps_tac. Qed.

Lemma keeps_replace_functions e ctx : keeps f (_replace_functions e ctx).
Proof using f_cache.
  unfold _replace_functions. keeps_tac; try apply keeps_evaluate_aggregation.
Qed.

Lemma keeps_evaluate e ctx : keeps f (evaluate e ctx).
Proof using f_cache.
  unfold evaluate. keeps_tac; try apply keeps_replace_functions.
Qed.

Lemma keeps_expression_of o : keeps f (expression_of o).
Proof. unfold expression_of. keeps_tac. Qed.

Lemma keeps_evaluate_condition_fuel fuel :
  forall c ctx, keeps f (evaluate_condition_fuel fuel c ctx).
Proof using f_cache.
  induction fuel as [|fuel IH]; intros c ctx; simpl; [auto with keeps|].
  destruct c; auto with keeps.
  assert (Hleaf : keeps f
    match dict_get "type" d with
    | Some ty =>
        if py_eq ty (VStr "field_match")
        then
         from_expr <- expression_of (dict_get "from_expression" d);;
         from_val <- evaluate from_expr ctx;;
         to_expr <- expression_of (dict_get "to_expression" d);;
         to_val <- evaluate to_expr ctx;; ret (py_eq from_val to_val)
        else
         if py_eq ty (VStr "expression")
         then
          e <- expression_of (dict_get "expression" d);;
          v <- evaluate e ctx;; ret (truthy v)
         else ret false
    | None => raise KeyError
    end).
  { keeps_tac; first [apply keeps_expression_of | apply keeps_evaluate]. }
  destruct (dict_get "operator" d) as [[| | | |op| |]|]; auto with keeps.
  destruct (match dict_get "conditions" d with
            | Some (VList l) => Some l
            | Some _ => None
            | None => Some []
            end) as [conditions|]; auto with keeps.
  destruct (String.eqb (str_upper op) "AND").
  { induction conditions as [|c cs IHc]; [auto with keeps|].
    apply keeps_bind; [apply IH|]. intros [|]; auto with keeps. }
  destruct (String.eqb (str_upper op) "OR").
  { induction conditions as [|c cs IHc]; [auto with keeps|].
    apply keeps_bind; [apply IH|]. intros [|]; auto with keeps. }
  destruct (String.eqb (str_upper op) "NOT"); auto.
  destruct conditions; auto with keeps.
  apply keeps_bind; [apply IH|]. auto with keeps.
Qed.

Lemma keeps_evaluate_condition c ctx : keeps f (evaluate_condition c ctx).
Proof using f_cache. apply keeps_evaluate_condition_fuel. Qed.
End EvaluatorFrame.
#[export] Hint Resolve keeps_evaluate_aggregation keeps_replace_functions
  keeps_evaluate keeps_expression_of keeps_evaluate_condition : keeps.

(** ** Endpoints created by [add_edge] *)

Section EdgeEndpoints.
Import RuleEngine Spec.

Lemma dict_get_ensure_node id n nodes :
  match dict_get id (ensure_node n nodes) with Some d => d | None => [] end
  = match dict_get id nodes with Some d => d | None => [] end.
Proof.
  unfold ensure_node, dict_has.
  destruct (dict_get n nodes) eqn:E; auto.
  destruct (String.eqb n id) eqn:En.
  - apply String.eqb_eq in En. subst. now rewrite dict_get_set_same, E.
  - apply String.eqb_neq in En. now rewrite dict_get_set_other.
Qed.

End EdgeEndpoints.

(** ** Rule lists of an enrichment in which no rule applies *)

Section EnrichRules.
Import ExpressionEvaluator RuleEngine Spec.

Lemma no_rule_matches_graph context rules w w' :
  no_rule_matches context rules w w' -> graph w' = graph w.
Proof.
  induction 1 as [w|rule rules w w1 w2 v _ He _ _ IH|rule rules w w1 w2 e _ He _ IH];
    auto.
  - rewrite IH. change w1 with (fst (w1, @Ok value v)). rewrite <- He.
    apply (keeps_evaluate keeps_graph_set_cache).
  - rewrite IH. simpl. change w1 with (fst (w1, @Raise value e)). rewrite <- He.
    apply (keeps_evaluate keeps_graph_set_cache).
Qed.

(** When no rule applies, [_evaluate_rules] returns [None]; it does not
    raise, even if conditions did. *)
Lemma evaluate_rules_none context rules w w' :
  no_rule_matches context rules w w' ->
  _evaluate_rules rules context w = (w', Ok VNone).
Proof.
  induction 1 as [w|rule rules w w1 w2 v Hc He Hv _ IH|rule rules w w1 w2 e Hc He _ IH];
    simpl; auto.
  - apply String.eqb_neq in Hc. rewrite Hc.
    unfold bind, try_except. rewrite He. simpl. now rewrite Hv.
  - apply String.eqb_neq in Hc. rewrite Hc.
    unfold bind, try_except. rewrite He. simpl. exact IH.
Qed.

(** C9. For an enrichment given by a rule list, on a target node for
    which no rule applies, the enrichment still writes its property onto
    the node, with the value [None]: the step succeeds and counts the
    node as enriched, nothing is raised and no enrichment failure is
    reported. *)
Theorem unmatched_rules_write_null :
  forall precomputed node_id count enrichment rules d w w',
    er_rules enrichment = Some rules ->
    dict_get node_id (g_nodes (graph w)) = Some d ->
    no_rule_matches (dict_update [("node", VDict d)] precomputed) rules w w' ->
    exists w'',
      enrich_one precomputed node_id count enrichment w = (w'', Ok (S count))
      /\ dict_get node_id (g_nodes (graph w''))
         = Some (dict_set (er_property enrichment) VNone d)
      /\ printed w'' = printed w'
      /\ agg_cache w'' = agg_cache w'.
Proof.
  intros pc n count e rules d w w' Hr Hd Hno.
  pose proof (no_rule_matches_graph Hno) as Hg.
  pose proof (evaluate_rules_none Hno) as Hev.
  unfold enrich_one, try_except, bind at 1, node_data. rewrite Hd.
  unfold enrichment_value. rewrite Hr.
  unfold bind. rewrite Hev. simpl.
  assert (Hround : apply_round (er_round e) VNone = Ok VNone)
    by (unfold apply_round; now destruct (er_round e)).
  unfold lift. rewrite Hround. simpl.
  unfold set_node_property, bind, node_data. rewrite Hg, Hd. simpl.
  eexists. split; [reflexivity|]. simpl. rewrite Hg.
  repeat split. apply dict_get_set_same.
Qed.

Lemma unmatched_rules_write_null_witness :
  er_rules Demo.rating = Some Demo.rating_rules
  /\ dict_get "d1" (g_nodes (graph Demo.two_d))
     = Some [("label", VStr "D"); ("ratio", VInt 1)]
  /\ no_rule_matches Demo.context_d1 Demo.rating_rules
                      Demo.two_d Demo.two_d_after_rules
  /\ exists w'',
       enrich_one [] "d1" 0 Demo.rating Demo.two_d = (w'', Ok 1%nat)
       /\ dict_get "d1" (g_nodes (graph w''))
          = Some (dict_set "rating" VNone
                           [("label", VStr "D"); ("ratio", VInt 1)])
       /\ printed w'' = printed Demo.two_d_after_rules
       /\ agg_cache w'' = agg_cache Demo.two_d_after_rules.
Proof.
  assert (Hno : no_rule_matches Demo.context_d1 Demo.rating_rules
                                Demo.two_d Demo.two_d_after_rules).
  { eapply nrm_false; [discriminate | vm_compute; reflexivity | reflexivity |].
    eapply nrm_raise; [discriminate | vm_compute; reflexivity |].
    vm_compute. apply nrm_nil. }
  split; [reflexivity|]. split; [reflexivity|]. split; [exact Hno|].
  apply (@unmatched_rules_write_null [] "d1" 0%nat Demo.rating Demo.rating_rules
           [("label", VStr "D"); ("ratio", VInt 1)]
           Demo.two_d Demo.two_d_after_rules);
    [reflexivity | reflexivity | exact Hno].
Defined.
End EnrichRules.

(** ** Adding a node whose identifier is already in the graph *)

Section DuplicateNodes.
Import DynamicGraphBuilder.

(** C5, as stated, fails: loading two rows with the same identifier
    succeeds; the node of the first row is overwritten by the second and
    the identifier is listed twice for the entity. *)
Lemma duplicate_node_is_not_rejected :
  snd (_load_entity Demo.duplicate_files Demo.entity_A (initial_world "t")) = Ok tt
  /\ dict_get "a1" (g_nodes (graph (fst (_load_entity Demo.duplicate_files Demo.entity_A
                                                      (initial_world "t")))))
     = Some [("aid", VStr "a1"); ("x", VInt 2); ("label", VStr "A")]
  /\ entity_nodes "A" (entity_node_map (fst (_load_entity Demo.duplicate_files
                                                          Demo.entity_A
                                                          (initial_world "t"))))
     = ["a1"; "a1"].
Proof. by_evaluation. Qed.

Lemma dict_has_set_other {A} (k k' : string) (v : A) (d : dict A) :
  k <> k' -> dict_has k' (dict_set k v d) = dict_has k' d.
Proof. intros H. unfold dict_has. now rewrite dict_get_set_other. Qed.

(** C5, amended. [add_node] never rejects an identifier. When the
    identifier is already present, the node keeps its place and its
    property map is updated with the new properties; otherwise the node is
    appended with these properties. No other node and no edge changes. The
    builder's row loop appends the identifier to the entity's list in both
    cases. *)
Theorem add_node_updates_duplicates :
  forall n attr w,
    dict_has "node_for_adding" attr = false ->
    (exists w',
        add_node n attr w = (w', Ok tt)
        /\ g_edges (graph w') = g_edges (graph w)
        /\ (forall m, m <> n ->
                      dict_get m (g_nodes (graph w')) = dict_get m (g_nodes (graph w)))
        /\ match dict_get n (g_nodes (graph w)) with
           | Some old =>
               dict_get n (g_nodes (graph w')) = Some (dict_update old attr)
               /\ dict_keys (g_nodes (graph w')) = dict_keys (g_nodes (graph w))
           | None =>
               g_nodes (graph w') = (g_nodes (graph w) ++ [(n, dict_update [] attr)])%list
           end)
    /\ (forall entity node_ids row properties,
           _generate_node_id entity row = Ok n ->
           _extract_properties entity row = Ok properties ->
           attr = dict_set "label" (VStr (en_name entity)) properties ->
           load_row entity node_ids row w
           = (fst (add_node n attr w), Ok (node_ids ++ [n])%list)).
Proof.
  intros n attr w Hkw.
  assert (Hadd : add_node n attr w
                 = (fst (set_graph
                           (mk_graph
                              (dict_set n
                                 (dict_update
                                    match dict_get n (g_nodes (graph w)) with
                                    | Some d => d
                                    | None => []
                                    end attr) (g_nodes (graph w)))
                              (g_edges (graph w))) w), Ok tt)).
  { unfold add_node, bind, get_graph, lift, nx_add_node. now rewrite Hkw. }
  split.
  - eexists. split; [exact Hadd|]. simpl. split; [reflexivity|]. split.
    + intros m Hm. apply dict_get_set_other. congruence.
    + destruct (dict_get n (g_nodes (graph w))) as [old|] eqn:E.
      * split; [apply dict_get_set_same|].
        eapply dict_keys_set_present; eauto.
      * now apply dict_set_absent.
  - intros entity node_ids row properties Hid Hprops ->.
    unfold load_row, bind, lift. rewrite Hid, Hprops. simpl.
    rewrite Hadd. reflexivity.
Qed.

Lemma add_node_updates_duplicates_witness :
  dict_has "node_for_adding" [("label", VStr "A"); ("x", VInt 7)] = false
  /\ ((exists w',
         add_node "a1" [("label", VStr "A"); ("x", VInt 7)] Demo.built = (w', Ok tt)
         /\ g_edges (graph w') = g_edges (graph Demo.built)
         /\ (forall m, m <> "a1" ->
                       dict_get m (g_nodes (graph w'))
                       = dict_get m (g_nodes (graph Demo.built)))
         /\ match dict_get "a1" (g_nodes (graph Demo.built)) with
            | Some old =>
                dict_get "a1" (g_nodes (graph w'))
                = Some (dict_update old [("label", VStr "A"); ("x", VInt 7)])
                /\ dict_keys (g_nodes (graph w')) = dict_keys (g_nodes (graph Demo.built))
            | None =>
                g_nodes (graph w')
                = (g_nodes (graph Demo.built)
                   ++ [("a1", dict_update [] [("label", VStr "A"); ("x", VInt 7)])])%list
            end)
      /\ (forall entity node_ids row properties,
             _generate_node_id entity row = Ok "a1" ->
             _extract_properties entity row = Ok properties ->
             [("label", VStr "A"); ("x", VInt 7)]
             = dict_set "label" (VStr (en_name entity)) properties ->
             load_row entity node_ids row Demo.built
             = (fst (add_node "a1" [("label", VStr "A"); ("x", VInt 7)] Demo.built),
                Ok (node_ids ++ ["a1"])%list))).
Proof.
  split; [reflexivity|].
  apply (add_node_updates_duplicates "a1" [("label", VStr "A"); ("x", VInt 7)]
           Demo.built).
  reflexivity.
Defined.
End DuplicateNodes.

(** ** Aggregation functions *)

Section Aggregations.
Import ExpressionEvaluator RuleEngine Spec.

(** C6, as stated, fails: a null value of the field is not ignored. With
    [f = 1] on one node and [f = None] on the other, [sum(E.f)] raises
    (the claim would have it be 1), and so does [avg(E.f)]; in an
    aggregation rule the sum over these two members raises as well. *)
Lemma null_values_are_not_ignored :
  evaluate_aggregation "sum" "E" "f" Demo.with_null = (Demo.with_null, Raise TypeError)
  /\ evaluate_aggregation "avg" "E" "f" Demo.with_null = (Demo.with_null, Raise TypeError)
  /\ present_values "E" "f" (graph Demo.with_null) = [VInt 1; VNone]
  /\ aggregation_value (graph Demo.with_null) ["e1"; "e2"]
                       (mk_agg_def "sum" (Some "f") None)
     = Raise TypeError.
Proof. by_evaluation. Qed.

Lemma unique_keys_lookup {A} (d : dict A) k v :
  unique_keys d = true -> In (k, v) d -> dict_get k d = Some v.
Proof.
  induction d as [|[k' v'] d IH]; simpl; [tauto|].
  intros Hu [H|H].
  - injection H as -> ->. now rewrite String.eqb_refl.
  - apply andb_true_iff in Hu as [Hk Hu].
    destruct (String.eqb k k') eqn:E; auto.
    apply String.eqb_eq in E. subst k'.
    unfold dict_has in Hk. rewrite (IH Hu H) in Hk. discriminate.
Qed.

Lemma collect_values_spec field g (l : dict (dict value)) acc :
  (forall kv, In kv l -> dict_get (fst kv) (g_nodes g) = Some (snd kv)) ->
  fold_left
    (fun acc n =>
       obind acc (fun vs =>
         match dict_get n (g_nodes g) with
         | None => Raise KeyError
         | Some d =>
             match dict_get field d with
             | Some v => Ok (vs ++ [v])%list
             | None => Ok vs
             end
         end))
    (map fst l) (Ok acc)
  = Ok (acc ++ flat_map (fun nd => match dict_get field (snd nd) with
                                   | Some v => [v]
                                   | None => []
                                   end) l)%list.
Proof.
  revert acc. induction l as [|[n d] l IH]; intros acc H; simpl.
  - now rewrite app_nil_r.
  - pose proof (H (n, d) (or_introl eq_refl)) as Hn. simpl in Hn.
    rewrite Hn. simpl.
    destruct (dict_get field d) as [v|]; rewrite IH by (intros; apply H; now right).
    + now rewrite <- app_assoc.
    + reflexivity.
Qed.

(** The loop that gathers the values yields the present values. *)
Lemma collect_values_present entity field g :
  unique_keys (g_nodes g) = true ->
  collect_values field g (nodes_with_label entity g)
  = Ok (present_values entity field g).
Proof.
  intros Hu. unfold collect_values, nodes_with_label, present_values.
  rewrite collect_values_spec; [reflexivity|].
  intros [n d] Hin. apply filter_In in Hin as [Hin _].
  now apply unique_keys_lookup.
Qed.

Lemma value_function_not_count function :
  existsb (String.eqb function) value_functions = true ->
  String.eqb function "count" = false.
Proof.
  unfold value_functions. simpl. intros H.
  repeat (apply orb_true_iff in H as [H|H];
          [apply String.eqb_eq in H; subst; reflexivity|]).
  discriminate.
Qed.

Lemma round_int_zero d : round_int 0 d = 0.
Proof.
  unfold round_int, round_half_even. destruct (0 <=? d) eqn:E; auto.
  apply Z.leb_gt in E. simpl.
  assert (0 < 10 ^ (- d)) by (apply Z.pow_pos_nonneg; lia).
  destruct (0 <? 10 ^ (- d)) eqn:E'; [|apply Z.ltb_ge in E'; lia].
  rewrite Z.div_0_l by lia. reflexivity.
Qed.

Lemma collect_values_members field g members :
  forallb (fun n => has_node n g) members = true ->
  forall acc,
    fold_left
      (fun acc n =>
         obind acc (fun vs =>
           match dict_get n (g_nodes g) with
           | None => Raise KeyError
           | Some d =>
               match dict_get field d with
               | Some v => Ok (vs ++ [v])%list
               | None => Ok vs
               end
           end))
      members (Ok acc)
    = Ok (acc ++ member_values field g members)%list.
Proof.
  induction members as [|n members IH]; intros Hall acc; simpl.
  - now rewrite app_nil_r.
  - simpl in Hall. apply andb_true_iff in Hall as [Hn Hall].
    unfold has_node, dict_has in Hn.
    destruct (dict_get n (g_nodes g)) as [d|]; [|discriminate].
    destruct (dict_get field d) as [v|]; rewrite IH by exact Hall.
    + now rewrite <- app_assoc.
    + reflexivity.
Qed.

Lemma aggregate_members_are_nodes entity g group_node :
  forallb (fun n => has_node n g) (aggregate_members entity g group_node) = true.
Proof.
  unfold aggregate_members. apply forallb_forall. intros n Hn.
  apply filter_In in Hn as [_ Hn]. unfold has_node, dict_has.
  now destruct (dict_get n (g_nodes g)).
Qed.

Lemma aggregate_as_specified function values :
  existsb (String.eqb function) value_functions = true ->
  aggregate function values = expression_aggregate function values.
Proof.
  unfold value_functions. simpl. intros H.
  repeat (apply orb_true_iff in H as [H|H];
          [apply String.eqb_eq in H; subst function;
           destruct values as [|v [|v' values]]; reflexivity|]).
  discriminate.
Qed.

Lemma rule_aggregate_as_specified function g members field :
  existsb (String.eqb function) value_functions = true ->
  forallb (fun n => has_node n g) members = true ->
  (if String.eqb function "count"
   then Ok (VInt (Z.of_nat (List.length members)))
   else
     obind (collect_values field g members) (fun values =>
       match values with
       | [] => Ok (VInt 0)
       | _ =>
           if String.eqb function "avg" then
             obind (py_sum values) (fun s =>
               py_binop Div s (VInt (Z.of_nat (List.length values))))
           else if String.eqb function "sum" then py_sum values
           else if String.eqb function "max" then py_max values
           else if String.eqb function "min" then py_min values
           else Ok (VInt 0)
       end))
  = rule_aggregate function (member_values field g members).
Proof.
  intros Hf Hall. rewrite (value_function_not_count _ Hf).
  unfold collect_values. rewrite (collect_values_members field g members Hall []).
  reflexivity.
Qed.

(** C6, amended. For [avg], [sum], [max], [min] and [stddev] the values
    aggregated are those of the field on the nodes that carry the key,
    null values included (they are not ignored, and make [sum], [avg] and
    [stddev] raise). In an expression, on a graph that is not empty and
    with nothing cached under the key, the nodes are those labelled
    [entity]; the result is 0 when none of them carries the key, else
    the exact mean, the sum, the maximum, the minimum or the sample
    standard deviation (0 for a single value), and it is cached. In an
    aggregation rule the nodes are the successors of the group node
    labelled [entity]; the result is 0 when none of them carries the key,
    else the sum divided by the count, the sum, the maximum or the
    minimum, and 0 for [stddev], which is not computed; the rounding of
    the declaration is then applied. *)
Theorem aggregates_over_present_values :
  forall function entity field w,
    existsb (String.eqb function) value_functions = true ->
    dict_get (function ++ "_" ++ entity ++ "_" ++ field) (agg_cache w) = None ->
    g_nodes (graph w) <> [] ->
    unique_keys (g_nodes (graph w)) = true ->
    evaluate_aggregation function entity field w
    = store_result (function ++ "_" ++ entity ++ "_" ++ field)
        (expression_aggregate function (present_values entity field (graph w))) w
    /\ (present_values entity field (graph w) = [] ->
        snd (evaluate_aggregation function entity field w) = Ok (VInt 0))
    /\ (forall group_node agg_def,
           ad_function agg_def = function ->
           aggregation_value (graph w)
             (aggregate_members entity (graph w) group_node) agg_def
           = obind (rule_aggregate function
                      (member_values (or_default (ad_field agg_def) "") (graph w)
                         (aggregate_members entity (graph w) group_node)))
                   (apply_round (ad_round agg_def)))
    /\ (forall agg_def,
           ad_function agg_def = function ->
           (ad_round agg_def = None \/ exists k, ad_round agg_def = Some (VInt k)) ->
           obind (rule_aggregate function []) (apply_round (ad_round agg_def))
           = Ok (VInt 0)).
Proof.
  intros function entity field w Hf Hmiss Hne Hu.
  pose proof (value_function_not_count _ Hf) as Hc.
  assert (Heq : evaluate_aggregation function entity field w
                = store_result (function ++ "_" ++ entity ++ "_" ++ field)
                    (expression_aggregate function
                       (present_values entity field (graph w))) w).
  { unfold evaluate_aggregation, bind at 1, get_cache. rewrite Hmiss.
    unfold bind at 1, get_graph.
    destruct (g_nodes (graph w)) as [|nd nodes] eqn:En; [congruence|].
    rewrite Hc. unfold bind, lift.
    rewrite collect_values_present by (rewrite En; assumption).
    rewrite (aggregate_as_specified _ _ Hf).
    now destruct (expression_aggregate function _). }
  split; [exact Heq|]. split; [|split].
  - intros He. rewrite Heq, He. reflexivity.
  - intros group_node agg_def Hfn. unfold aggregation_value. rewrite Hfn.
    now rewrite (@rule_aggregate_as_specified function (graph w)
                   (aggregate_members entity (graph w) group_node)
                   (or_default (ad_field agg_def) "") Hf
                   (aggregate_members_are_nodes entity (graph w) group_node)).
  - intros agg_def Hfn Hr. simpl.
    destruct Hr as [->|[k ->]]; simpl; [reflexivity|].
    now rewrite round_int_zero.
Qed.

Lemma aggregates_over_present_values_witness :
  evaluate_aggregation "stddev" "D" "ratio" Demo.two_d
  = store_result "stddev_D_ratio"
      (Ok (VFloat (float_of_ratio false 6369051672525773 4503599627370496)))
      Demo.two_d
  /\ present_values "D" "ratio" (graph Demo.two_d) = [VInt 1; VInt 3].
Proof.
  split; [|reflexivity].
  assert (Hv : expression_aggregate "stddev"
                 (present_values "D" "ratio" (graph Demo.two_d))
               = Ok (VFloat (float_of_ratio false 6369051672525773
                                            4503599627370496)))
    by (vm_compute; reflexivity).
  rewrite <- Hv.
  apply (proj1 (@aggregates_over_present_values "stddev" "D" "ratio" Demo.two_d
                  ltac:(vm_compute; reflexivity)
                  ltac:(vm_compute; reflexivity)
                  ltac:(discriminate)
                  ltac:(vm_compute; reflexivity))).
Defined.
End Aggregations.

(** ** Join conditions of the form [from_field]/[to_field] *)

Section FieldMatch.
Import ExpressionEvaluator DynamicGraphBuilder.

(** C4, as stated, fails in the rule engine: on a condition given by
    [from_field] and [to_field], with equal values on both sides,
    [evaluate_condition] does not return true; it raises [KeyError]. *)
Lemma field_names_unknown_to_rule_conditions :
  evaluate_condition Demo.by_aid Demo.from_to_a1 Demo.built
  = (Demo.built, Raise KeyError)
  /\ _evaluate_join_condition Demo.by_aid [("aid", VStr "a1")] [("aid", VStr "a1")]
     = Ok true.
Proof. by_evaluation. Qed.

(** C4, amended. In the builder, a join condition naming two non-empty
    fields holds exactly when the two fields are equal, a missing field
    reading as [None]. The rule engine's [evaluate_condition] does not
    read [from_field]/[to_field]: a [field_match] condition without
    [from_expression] raises [KeyError] in every context. *)
Theorem field_match_by_name :
  forall c from_field to_field,
    dict_get "from_field" c = Some (VStr from_field) ->
    dict_get "to_field" c = Some (VStr to_field) ->
    from_field <> "" ->
    to_field <> "" ->
    (forall from_data to_data,
        _evaluate_join_condition (VDict c) from_data to_data
        = Ok (py_eq (get_or_none from_field from_data)
                    (get_or_none to_field to_data)))
    /\ (dict_get "operator" c = None ->
        dict_get "type" c = Some (VStr "field_match") ->
        dict_get "from_expression" c = None ->
        forall context w,
          evaluate_condition (VDict c) context w = (w, Raise KeyError)).
Proof.
  intros c ff tf Hf Ht Hfe Hte. split.
  - intros from_data to_data. unfold _evaluate_join_condition.
    rewrite Hf, Ht. simpl.
    apply String.eqb_neq in Hfe, Hte. rewrite Hfe, Hte. reflexivity.
  - intros Hop Hty Hex context w.
    unfold evaluate_condition. simpl. rewrite Hop, Hty. simpl.
    rewrite Hex. reflexivity.
Qed.

Lemma field_match_by_name_witness :
  dict_get "from_field" [("type", VStr "field_match");
                         ("from_field", VStr "aid"); ("to_field", VStr "aid")]
  = Some (VStr "aid")
  /\ dict_get "to_field" [("type", VStr "field_match");
                          ("from_field", VStr "aid"); ("to_field", VStr "aid")]
     = Some (VStr "aid")
  /\ "aid" <> ""
  /\ ((forall from_data to_data,
          _evaluate_join_condition Demo.by_aid from_data to_data
          = Ok (py_eq (get_or_none "aid" from_data) (get_or_none "aid" to_data)))
      /\ (dict_get "operator" [("type", VStr "field_match");
                               ("from_field", VStr "aid"); ("to_field", VStr "aid")]
          = None ->
          dict_get "type" [("type", VStr "field_match");
                           ("from_field", VStr "aid"); ("to_field", VStr "aid")]
          = Some (VStr "field_match") ->
          dict_get "from_expression" [("type", VStr "field_match");
                                      ("from_field", VStr "aid");
                                      ("to_field", VStr "aid")]
          = None ->
          forall context w,
            evaluate_condition Demo.by_aid context w = (w, Raise KeyError))).
Proof.
  split; [reflexivity|]. split; [reflexivity|]. split; [discriminate|].
  apply (@field_match_by_name
           [("type", VStr "field_match");
            ("from_field", VStr "aid"); ("to_field", VStr "aid")] "aid" "aid");
    [reflexivity | reflexivity | discriminate | discriminate].
Defined.
End FieldMatch.

(** ** Division by zero *)

Section DivisionByZero.
Import ExpressionEvaluator RuleEngine Spec.

(** C2, as stated, fails: dividing by zero makes the evaluator raise
    [ValueError]; it does not return [None]. A derived property computed
    from such an expression, with a rounding, is left out of the node. *)
Lemma division_by_zero_is_an_error :
  evaluate "1 / 0" [] Demo.built = (Demo.built, Raise ValueError)
  /\ snd (derived_property [] [("label", VStr "D")]
            ("ratio", mk_prop_def None None (Some "1 / 0") (Some (VInt 4)))
            Demo.built)
     = Ok [("label", VStr "D")].
Proof. by_evaluation. Qed.

Lemma true_division_by_zero locals a b x y nx ny fx :
  eval_expr locals a = Ok x ->
  eval_expr locals b = Ok y ->
  as_num x = Some nx ->
  as_num y = Some ny ->
  to_float nx = Ok fx ->
  num_is_zero ny = true ->
  eval_expr locals (EBin Div a b) = Raise ZeroDivisionError.
Proof.
  intros Ha Hb Hx Hy Hfx Hz. simpl. rewrite Ha, Hb. simpl.
  unfold py_binop. rewrite Hx, Hy. unfold num_binop.
  destruct nx as [zx|f], ny as [zy|g]; simpl in Hz.
  - now rewrite Hz.
  - rewrite Hfx. simpl. now rewrite Hz.
  - apply Z.eqb_eq in Hz. subst zy. reflexivity.
  - simpl. now rewrite Hz.
Qed.

(** C2, amended. When the host evaluation of the rewritten expression
    reaches a division by zero, [evaluate] raises [ValueError]: it yields
    no value, not [None]. A derived-node property defined by the
    expression is then skipped with a warning and a node enrichment
    defined by it is not written, whatever rounding was asked for. A true
    division whose divisor is zero does raise [ZeroDivisionError] in the
    host evaluation. *)
Theorem division_by_zero_raises :
  forall expression context w w1 text1 text2,
    all_ascii expression = true ->
    _replace_functions expression (_prepare_context context) w = (w1, Ok text1) ->
    _replace_field_references text1 (_prepare_context context) = Ok text2 ->
    py_eval text2 (_prepare_context context) = Raise ZeroDivisionError ->
    evaluate expression context w = (w1, Raise ValueError)
    /\ (forall properties name round,
           derived_property context properties
             (name, mk_prop_def None None (Some expression) round) w
           = (fst (print (EvPropertyFailed name ValueError) w1), Ok properties))
    /\ (forall precomputed node_id d count property round,
           dict_get node_id (g_nodes (graph w)) = Some d ->
           context = dict_update [("node", VDict d)] precomputed ->
           dict_get property precomputed = None ->
           enrich_one precomputed node_id count
             (mk_enrichment property None (Some expression) None round) w
           = (fst (print (EvEnrichFailed node_id property ValueError) w1), Ok count))
    /\ (forall locals a b x y nx ny fx,
           eval_expr locals a = Ok x ->
           eval_expr locals b = Ok y ->
           as_num x = Some nx ->
           as_num y = Some ny ->
           to_float nx = Ok fx ->
           num_is_zero ny = true ->
           eval_expr locals (EBin Div a b) = Raise ZeroDivisionError).
Proof.
  intros expression context w w1 text1 text2 Hascii Hf Hr He.
  assert (Hev : evaluate expression context w = (w1, Raise ValueError)).
  { unfold evaluate. rewrite Hascii. simpl. unfold bind at 1. rewrite Hf.
    unfold bind, lift. rewrite Hr, He. reflexivity. }
  split; [exact Hev|]. split; [|split].
  - intros properties name round.
    unfold derived_property, try_except, derived_property_value. simpl.
    unfold bind. rewrite Hev. reflexivity.
  - intros pc node_id d count property round Hd Hctx Hpc.
    unfold enrich_one, try_except, bind at 1, node_data. rewrite Hd.
    unfold enrichment_value. simpl. rewrite Hpc, <- Hctx.
    unfold bind. rewrite Hev. reflexivity.
  - intros. eapply true_division_by_zero; eauto.
Qed.

Lemma division_by_zero_raises_witness :
  all_ascii "1 / 0" = true
  /\ _replace_functions "1 / 0" (_prepare_context []) Demo.built
     = (Demo.built, Ok "1 / 0")
  /\ _replace_field_references "1 / 0" (_prepare_context []) = Ok "1 / 0"
  /\ py_eval "1 / 0" (_prepare_context []) = Raise ZeroDivisionError
  /\ evaluate "1 / 0" [] Demo.built = (Demo.built, Raise ValueError).
Proof.
  split; [reflexivity|]. split; [reflexivity|]. split; [reflexivity|].
  split; [reflexivity|].
  apply (@division_by_zero_raises "1 / 0" [] Demo.built Demo.built "1 / 0" "1 / 0");
    reflexivity.
Defined.
End DivisionByZero.

(** ** What the evaluator evaluates *)

Section HostEvaluation.
Import ExpressionEvaluator Spec.

(** C1, as stated, fails on each of its three counts. The text [7 // 2]
    uses floor division, which the grammar of section 4.4 does not have,
    and the evaluator returns 3: the text went to the host language's
    [eval]. The value of a field is spliced into the text and evaluated
    as program text: with the name [' + secret + '] on the node,
    [node.name] yields the value the context binds to [secret]. And
    [__debug__] resolves to a constant of the host, outside the context. *)
Lemma host_expression_is_evaluated :
  uses_grammar_symbols_only "7 // 2" = false
  /\ evaluate "7 // 2" [] Demo.built = (Demo.built, Ok (VInt 3))
  /\ evaluate "node.name"
       [("node", VDict [("name", VStr "' + secret + '")]); ("secret", VStr "S")]
       Demo.built
     = (Demo.built, Ok (VStr "S"))
  /\ evaluate "__debug__" [] Demo.built = (Demo.built, Ok (VBool true)).
Proof. by_evaluation. Qed.

(** Induction on expressions that reaches the operands of comparison
    chains and the arguments of calls. *)
Section ExprInduction.
Variable P : expr -> Prop.
Hypothesis HLit : forall v, P (ELit v).
Hypothesis HName : forall x, P (EName x).
Hypothesis HUnary : forall op a, P a -> P (EUnary op a).
Hypothesis HBin : forall op a b, P a -> P b -> P (EBin op a b).
Hypothesis HCompare :
  forall a rest, P a -> Forall (fun cb => P (snd cb)) rest -> P (ECompare a rest).
Hypothesis HAnd : forall a b, P a -> P b -> P (EAnd a b).
Hypothesis HOr : forall a b, P a -> P b -> P (EOr a b).
Hypothesis HAttr : forall a n, P a -> P (EAttr a n).
Hypothesis HCall : forall f args, P f -> Forall P args -> P (ECall f args).

Fixpoint expr_rect_nested (e : expr) : P e :=
  match e with
  | ELit v => HLit v
  | EName x => HName x
  | EUnary op a => HUnary op (expr_rect_nested a)
  | EBin op a b => HBin op (expr_rect_nested a) (expr_rect_nested b)
  | ECompare a rest =>
      HCompare (expr_rect_nested a)
        ((fix go (l : list (cmpop * expr)) : Forall (fun cb => P (snd cb)) l :=
            match l with
            | [] => Forall_nil _
            | cb :: l' => Forall_cons cb (expr_rect_nested (snd cb)) (go l')
            end) rest)
  | EAnd a b => HAnd (expr_rect_nested a) (expr_rect_nested b)
  | EOr a b => HOr (expr_rect_nested a) (expr_rect_nested b)
  | EAttr a n => HAttr n (expr_rect_nested a)
  | ECall f args =>
      HCall (expr_rect_nested f)
        ((fix go (l : list expr) : Forall P l :=
            match l with
            | [] => Forall_nil _
            | a :: l' => Forall_cons a (expr_rect_nested a) (go l')
            end) args)
  end.
End ExprInduction.

Definition agree_on (xs : list string) (c1 c2 : dict value) : Prop :=
  forall x, In x xs -> dict_get x c1 = dict_get x c2.

Lemma agree_on_app_l xs ys c1 c2 :
  agree_on (xs ++ ys) c1 c2 -> agree_on xs c1 c2.
Proof. intros H x Hx. apply H, in_or_app. now left. Qed.

Lemma agree_on_app_r xs ys c1 c2 :
  agree_on (xs ++ ys) c1 c2 -> agree_on ys c1 c2.
Proof. intros H x Hx. apply H, in_or_app. now right. Qed.

(** The value of an expression depends on the context only through the
    identifiers that occur in it. *)
Lemma eval_expr_coincidence c1 c2 e :
  agree_on (names e) c1 c2 -> eval_expr c1 e = eval_expr c2 e.
Proof.
  induction e using expr_rect_nested; simpl; intros Hag.
  - reflexivity.
  - unfold lookup_name. destruct (String.eqb x "__debug__"); [reflexivity|].
    rewrite (Hag x) by now left. reflexivity.
  - now rewrite IHe.
  - rewrite IHe1 by (eapply agree_on_app_l; eauto).
    rewrite IHe2 by (eapply agree_on_app_r; eauto). reflexivity.
  - rewrite IHe by (eapply agree_on_app_l; eauto).
    apply agree_on_app_r in Hag. clear IHe.
    destruct (eval_expr c2 e) as [x| |]; simpl; auto.
    revert x Hag. induction H as [|[c b] rest Hb _ IHrest]; intros x Hag; auto.
    simpl in *. rewrite Hb by (eapply agree_on_app_l; eauto).
    destruct (eval_expr c2 b) as [y| |]; simpl; auto.
    destruct (py_compare_op c x y) as [[|]| |]; simpl; auto.
    apply IHrest. eapply agree_on_app_r; eauto.
  - rewrite IHe1 by (eapply agree_on_app_l; eauto).
    rewrite IHe2 by (eapply agree_on_app_r; eauto). reflexivity.
  - rewrite IHe1 by (eapply agree_on_app_l; eauto).
    rewrite IHe2 by (eapply agree_on_app_r; eauto). reflexivity.
  - now rewrite IHe.
  - rewrite IHe by (eapply agree_on_app_l; eauto).
    apply agree_on_app_r in Hag.
    clear IHe. destruct (eval_expr c2 e) as [x| |]; simpl; auto. clear x.
    induction H as [|a args Ha _ IHargs]; auto.
    simpl in *. rewrite Ha by (eapply agree_on_app_l; eauto).
    destruct (eval_expr c2 a); simpl; auto.
    apply IHargs. eapply agree_on_app_r; eauto.
Qed.

(** An unbound identifier that is looked up first ends the evaluation. *)
Lemma leading_name_unbound locals e x :
  leading_name e = Some x ->
  x <> "__debug__" -> x <> "__builtins__" -> dict_get x locals = None ->
  eval_expr locals e = Raise NameError.
Proof.
  intros Hl Hd Hb Hx.
  induction e using expr_rect_nested; simpl in *; try discriminate;
    try (rewrite IHe by exact Hl; reflexivity);
    try (rewrite IHe1 by exact Hl; reflexivity).
  injection Hl as ->. unfold lookup_name.
  apply String.eqb_neq in Hd. apply String.eqb_neq in Hb.
  now rewrite Hd, Hx, Hb.
Qed.

(** C1, amended. [evaluate] hands the rewritten text (aggregation calls,
    [now()] and field references replaced by the text of their values) to
    the host evaluation, with an empty builtins table and the context as
    local names, and reports an error of the host as [ValueError]: it is
    not closed over the grammar of section 4.4. The context acts on the
    result through the rewritten text and through the identifiers of that
    text only: another context that yields the same rewritten text and
    agrees on its identifiers gives the same outcome. No builtin of the
    host can be reached: when the evaluation starts by looking up an
    identifier that the context does not bind (other than [__debug__] and
    [__builtins__]), as in a call of [round], [abs] or [len], [evaluate]
    raises [ValueError]. *)
Theorem evaluate_is_host_evaluation :
  forall expression context w w1 text1 text2,
    all_ascii expression = true ->
    _replace_functions expression (_prepare_context context) w = (w1, Ok text1) ->
    _replace_field_references text1 (_prepare_context context) = Ok text2 ->
    evaluate expression context w
    = (w1, reraised (py_eval text2 (_prepare_context context)))
    /\ (forall other,
           _replace_field_references text1 (_prepare_context other) = Ok text2 ->
           (forall e, parsed text2 = Ok e ->
                      agree_on (names e) (_prepare_context context)
                               (_prepare_context other)) ->
           evaluate expression other w = evaluate expression context w)
    /\ (forall e x,
           parsed text2 = Ok e ->
           leading_name e = Some x ->
           x <> "__debug__" -> x <> "__builtins__" ->
           dict_get x (_prepare_context context) = None ->
           evaluate expression context w = (w1, Raise ValueError)).
Proof.
  intros expression context w w1 text1 text2 Hascii Hf Hr.
  assert (Hev : forall c,
             _replace_field_references text1 (_prepare_context c) = Ok text2 ->
             evaluate expression c w
             = (w1, reraised (py_eval text2 (_prepare_context c)))).
  { intros c Hc. unfold evaluate. rewrite Hascii. simpl.
    assert (Hfc : _replace_functions expression (_prepare_context c) w
                  = (w1, Ok text1)) by exact Hf.
    unfold bind at 1. rewrite Hfc. unfold bind, lift. rewrite Hc.
    now destruct (py_eval text2 (_prepare_context c)). }
  split; [now apply Hev|]. split.
  - intros other Ho Hag. rewrite (Hev other Ho), (Hev context Hr).
    unfold py_eval. destruct (parsed text2) as [e| |] eqn:Ep; try reflexivity.
    simpl. now rewrite (@eval_expr_coincidence (_prepare_context context)
                          (_prepare_context other) e (Hag e eq_refl)).
  - intros e x Hp Hl Hd Hb Hx. rewrite (Hev context Hr).
    unfold py_eval. rewrite Hp. simpl.
    now rewrite (@leading_name_unbound _ e x Hl Hd Hb Hx).
Qed.

Lemma evaluate_is_host_evaluation_witness :
  evaluate "round(1.5)" [] Demo.built = (Demo.built, Raise ValueError).
Proof.
  apply (proj2 (proj2 (@evaluate_is_host_evaluation
                         "round(1.5)" [] Demo.built Demo.built
                         "round(1.5)" "round(1.5)"
                         ltac:(vm_compute; reflexivity)
                         ltac:(vm_compute; reflexivity)
                         ltac:(vm_compute; reflexivity)))
           (ECall (EName "round") [ELit (VFloat (float_of_ratio false 3 2))])
           "round").
  - vm_compute. reflexivity.
  - reflexivity.
  - discriminate.
  - discriminate.
  - reflexivity.
Defined.
End HostEvaluation.

(** ** The rule engine leaves the builder's entity map alone *)

Section RuleEngineFrame.
Import ExpressionEvaluator DynamicGraphBuilder RuleEngine.
Context {X : Type} (f : World -> X).
Hypothesis f_cache : forall c, keeps f (set_cache c).
Hypothesis f_graph : forall g, keeps f (set_graph g).
Hypothesis f_print : forall ev, keeps f (print ev).
Hypothesis f_log : forall i t n, keeps f (log_transformation i t n).

Lemma keeps_add_node n attr : keeps f (add_node n attr).
Proof using f_graph. unfold add_node. keeps_tac. Qed.

Lemma keeps_add_edge u v attr : keeps f (add_edge u v attr).
Proof using f_graph. unfold add_edge. keeps_tac. Qed.

Lemma keeps_get_nodes_by_entity name : keeps f (get_nodes_by_entity name).
Proof. unfold get_nodes_by_entity. keeps_tac. Qed.

Lemma keeps_snapshot ctx : keeps f (snapshot ctx).
Proof. unfold snapshot. keeps_tac. Qed.

Lemma keeps_cross_link_props trans context :
  keeps f (cross_link_props trans context).
Proof using f_cache.
  unfold cross_link_props. keeps_tac.
Qed.
#[local] Hint Resolve keeps_cross_link_props : keeps.

Lemma keeps_apply_cross_link id trans : keeps f (_apply_cross_link id trans).
Proof using f_cache f_graph f_print f_log.
  unfold _apply_cross_link.
  keeps_tac.
Qed.
#[local] Hint Resolve keeps_apply_cross_link : keeps.

Lemma keeps_first_match first_alias first_node alias jc matched candidates :
  keeps f (first_match first_alias first_node alias jc matched candidates).
Proof using f_cache.
  induction candidates as [|c cs IH]; simpl; [auto with keeps|].
  keeps_tac.
Qed.
#[local] Hint Resolve keeps_first_match : keeps.

Lemma keeps_find_matching_nodes first_alias first_node se en jc :
  keeps f (_find_matching_nodes first_alias first_node se en jc).
Proof using f_cache.
  unfold _find_matching_nodes. keeps_tac.
Qed.
#[local] Hint Resolve keeps_find_matching_nodes : keeps.

Lemma keeps_derived_property ctx properties item :
  keeps f (derived_property ctx properties item).
Proof using f_cache f_print.
  unfold derived_property, derived_property_value.
  keeps_tac.
Qed.
#[local] Hint Resolve keeps_derived_property : keeps.

Lemma keeps_create_derived_edges node_id edges_def context :
  keeps f (_create_derived_edges node_id edges_def context).
Proof using f_graph.
  unfold _create_derived_edges, create_derived_edge.
  keeps_tac.
Qed.
#[local] Hint Resolve keeps_create_derived_edges : keeps.

Lemma keeps_derive_from trans en first_alias n first_node :
  keeps f (derive_from trans en first_alias n first_node).
Proof using f_cache f_graph f_print.
  unfold derive_from.
  keeps_tac.
Qed.
#[local] Hint Resolve keeps_derive_from : keeps.

Lemma keeps_apply_derived_node id trans : keeps f (_apply_derived_node id trans).
Proof using f_cache f_graph f_print f_log.
  unfold _apply_derived_node.
  keeps_tac.
Qed.
#[local] Hint Resolve keeps_apply_derived_node : keeps.

Lemma keeps_evaluate_rules rules context : keeps f (_evaluate_rules rules context).
Proof using f_cache f_print.
  induction rules as [|r rs IH]; simpl; [auto with keeps|].
  keeps_tac.
Qed.
#[local] Hint Resolve keeps_evaluate_rules : keeps.

Lemma keeps_precompute enrichments : keeps f (precompute enrichments).
Proof using f_cache.
  unfold precompute. keeps_tac.
Qed.
#[local] Hint Resolve keeps_precompute : keeps.

Lemma keeps_set_node_property n p v : keeps f (set_node_property n p v).
Proof using f_graph. unfold set_node_property. keeps_tac. Qed.

Lemma keeps_enrich_one pc node_id count enrichment :
  keeps f (enrich_one pc node_id count enrichment).
Proof using f_cache f_graph f_print.
  unfold enrich_one, enrichment_value.
  keeps_tac.
Qed.
#[local] Hint Resolve keeps_enrich_one : keeps.

Lemma keeps_apply_enrich_properties id trans :
  keeps f (_apply_enrich_properties id trans).
Proof using f_cache f_graph f_print f_log.
  unfold _apply_enrich_properties, clear_cache.
  keeps_tac.
Qed.
#[local] Hint Resolve keeps_apply_enrich_properties : keeps.

Lemma keeps_aggregate_group trans n group_node :
  keeps f (aggregate_group trans n group_node).
Proof using f_graph.
  unfold aggregate_group.
  keeps_tac.
Qed.
#[local] Hint Resolve keeps_aggregate_group : keeps.

Lemma keeps_apply_aggregation id trans : keeps f (_apply_aggregation id trans).
Proof using f_graph f_print f_log.
  unfold _apply_aggregation.
  keeps_tac.
Qed.
#[local] Hint Resolve keeps_apply_aggregation : keeps.

Lemma keeps_apply_transformation trans : keeps f (apply_transformation trans).
Proof using f_cache f_graph f_print f_log.
  unfold apply_transformation, dispatch.
  keeps_tac.
Qed.
#[local] Hint Resolve keeps_apply_transformation : keeps.

Lemma keeps_apply_transformations ts : keeps f (apply_transformations ts).
Proof using f_cache f_graph f_print f_log.
  unfold apply_transformations.
  apply keeps_bind; [auto|intros _].
  apply keeps_bind; [apply keeps_for_each; intros; apply keeps_apply_transformation|intros _].
  apply keeps_bind; [auto|intros _].
  intros w. unfold _print_transformation_summary.
  apply keeps_for_each. auto.
Qed.
#[local] Hint Resolve keeps_apply_transformations : keeps.
End RuleEngineFrame.
#[export] Hint Resolve keeps_get_nodes_by_entity keeps_snapshot
  keeps_cross_link_props keeps_first_match keeps_find_matching_nodes
  keeps_derived_property keeps_evaluate_rules keeps_precompute : keeps.

(** ** What [get_nodes_by_entity] returns *)

Section EntityMap.
Import ExpressionEvaluator DynamicGraphBuilder RuleEngine Spec.

Lemma bind_ok {A B} (m : M A) (k : A -> M B) w w' b :
  bind m k w = (w', Ok b) ->
  exists w1 a, m w = (w1, Ok a) /\ k a w1 = (w', Ok b).
Proof.
  unfold bind. destruct (m w) as [w1 [a| |]]; try discriminate. eauto.
Qed.

Lemma lift_ok {A} (o : outcome A) w w' a :
  lift o w = (w', Ok a) -> o = Ok a /\ w' = w.
Proof. unfold lift. now intros [= -> ->]. Qed.

(** The row loop extends the list with the identifiers generated from the
    rows, in row order, and leaves the entity map alone. *)
Lemma load_rows_ids entity df :
  forall node_ids w w' node_ids',
    fold_m df node_ids (load_row entity) w = (w', Ok node_ids') ->
    exists new,
      node_ids' = (node_ids ++ new)%list
      /\ Forall2 (fun row id => _generate_node_id entity row = Ok id) df new
      /\ entity_node_map w' = entity_node_map w.
Proof.
  induction df as [|row df IH]; intros node_ids w w' node_ids' H; simpl in H.
  - injection H as <- <-. exists []. now rewrite app_nil_r.
  - apply bind_ok in H as (w1 & ids1 & Hrow & Hrest).
    apply IH in Hrest as (new & -> & Hall & Hmap).
    unfold load_row in Hrow.
    apply bind_ok in Hrow as (w2 & id & Hid & Hrow).
    apply lift_ok in Hid as [Hid ->].
    apply bind_ok in Hrow as (w3 & props & Hp & Hrow).
    apply lift_ok in Hp as [Hp ->].
    apply bind_ok in Hrow as (w4 & [] & Hadd & Hret).
    injection Hret as <- <-.
    exists (id :: new). rewrite <- app_assoc. split; [reflexivity|]. split.
    + now constructor.
    + rewrite Hmap. change w4 with (fst (w4, @Ok unit tt)). rewrite <- Hadd.
      apply keeps_add_node_emap.
Qed.

Lemma load_entity_map files entity w w' :
  _load_entity files entity w = (w', Ok tt) ->
  exists df ids,
    dict_get (en_source_path entity) files = Some df
    /\ Forall2 (fun row id => _generate_node_id entity row = Ok id) df ids
    /\ entity_node_map w' = dict_set (en_name entity) ids (entity_node_map w).
Proof.
  unfold _load_entity.
  destruct (dict_get (en_source_path entity) files) as [df|]; [|discriminate].
  intros H. apply bind_ok in H as (w1 & ids & Hrows & H).
  apply load_rows_ids in Hrows as (new & -> & Hall & Hmap).
  exists df, new. split; [reflexivity|]. split; [exact Hall|].
  unfold bind, get_entity_map, set_entity_map, print in H. simpl in H.
  injection H as <-. simpl. now rewrite Hmap.
Qed.

Lemma existsb_eqb_false x l :
  existsb (String.eqb x) l = false -> ~ In x l.
Proof.
  induction l as [|y l IH]; simpl; [tauto|].
  intros H [->|Hin].
  - now rewrite String.eqb_refl in H.
  - apply orb_false_iff in H as [_ H]. now apply IH.
Qed.

(** After the entities are loaded, each one's list holds its identifiers
    and the names that are not entities are as before. *)
Lemma load_entities_map files es :
  forall w w',
    distinct (map en_name es) = true ->
    for_each es (_load_entity files) w = (w', Ok tt) ->
    (forall e, In e es ->
       exists df ids,
         dict_get (en_source_path e) files = Some df
         /\ Forall2 (fun row id => _generate_node_id e row = Ok id) df ids
         /\ dict_get (en_name e) (entity_node_map w') = Some ids)
    /\ (forall L, ~ In L (map en_name es) ->
          dict_get L (entity_node_map w') = dict_get L (entity_node_map w)).
Proof.
  induction es as [|e es IH]; intros w w' Hd H; simpl in *.
  - injection H as <-. split; [tauto|auto].
  - apply andb_true_iff in Hd as [Hfresh Hd].
    apply negb_true_iff, existsb_eqb_false in Hfresh.
    apply bind_ok in H as (w1 & [] & He & Hrest).
    apply load_entity_map in He as (df & ids & Hdf & Hall & Hmap).
    destruct (IH w1 w' Hd Hrest) as [Hin Hout]. split.
    + intros e' [<-|He'].
      * exists df, ids. split; [exact Hdf|]. split; [exact Hall|].
        rewrite (Hout _ Hfresh), Hmap. apply dict_get_set_same.
      * now apply Hin.
    + intros L HL. rewrite Hout by tauto. rewrite Hmap.
      apply dict_get_set_other. tauto.
Qed.

Lemma keeps_create_relationship_emap r :
  keeps entity_node_map (_create_relationship r).
Proof. unfold _create_relationship, get_nodes_by_entity. keeps_tac. Qed.

Lemma keeps_get_graph_stats {X} (f : World -> X) : keeps f get_graph_stats.
Proof. unfold get_graph_stats. keeps_tac. Qed.

Lemma build_graph_map schema files now w g :
  distinct (map en_name (entities schema)) = true ->
  build_graph schema files (initial_world now) = (w, Ok g) ->
  (forall e, In e (entities schema) ->
     exists df ids,
       dict_get (en_source_path e) files = Some df
       /\ Forall2 (fun row id => _generate_node_id e row = Ok id) df ids
       /\ dict_get (en_name e) (entity_node_map w) = Some ids)
  /\ (forall L, ~ In L (map en_name (entities schema)) ->
        dict_get L (entity_node_map w) = None).
Proof.
  intros Hd H. unfold build_graph in H.
  apply bind_ok in H as (w1 & [] & Hp & H).
  apply bind_ok in H as (w2 & [] & Hload & H).
  apply bind_ok in H as (w3 & [] & Hrel & H).
  apply bind_ok in H as (w4 & stats & Hg & H).
  apply bind_ok in H as (w5 & [] & Hp2 & H).
  injection H as <- _.
  assert (E1 : entity_node_map w1 = []) by (injection Hp as <-; reflexivity).
  assert (E3 : entity_node_map w5 = entity_node_map w2).
  { injection Hp2 as <-. simpl.
    change w4 with (fst (w4, @Ok GraphStats stats)). rewrite <- Hg.
    rewrite (@keeps_get_graph_stats _ entity_node_map w3).
    change w3 with (fst (w3, @Ok unit tt)). rewrite <- Hrel.
    destruct (relationships schema); [|reflexivity].
    apply keeps_for_each. intros. apply keeps_create_relationship_emap. }
  destruct (@load_entities_map files (entities schema) w1 w2 Hd Hload) as [Hin Hout].
  rewrite E3. split; [exact Hin|].
  intros L HL. rewrite (Hout _ HL), E1. reflexivity.
Qed.
End EntityMap.

(** ** A derived node whose edge list has an unresolved endpoint *)

Section DerivedNodeEdges.
Import ExpressionEvaluator DynamicGraphBuilder RuleEngine Spec.

Lemma dict_get_ensure_present id n nodes :
  dict_has id nodes = true ->
  dict_get id (ensure_node n nodes) = dict_get id nodes.
Proof.
  intros H. unfold ensure_node. destruct (dict_has n nodes) eqn:E; auto.
  apply dict_get_set_other. intros ->. congruence.
Qed.

Lemma find_bound_maps context g :
  match find (fun kv : string * value =>
                match snd kv with
                | VDict d => dict_has "facility_id" d
                | _ => false
                end)
             (map (fun kv => (fst kv, entry_value g (snd kv))) context) with
  | Some (_, VDict d) => get_or_none "facility_id" d
  | _ => VNone
  end
  = match find (dict_has "facility_id") (bound_maps context g) with
    | Some d => get_or_none "facility_id" d
    | None => VNone
    end.
Proof.
  induction context as [|[k c] context IH]; simpl; [reflexivity|].
  destruct (entry_value g c) as [| | | | | |d]; simpl; auto.
  destruct (dict_has "facility_id" d); auto.
Qed.

(** The code's resolution of a reference is the endpoint it denotes. *)
Lemma resolve_endpoint ref node_id context g :
  _resolve_node_reference ref node_id
    (map (fun kv => (fst kv, entry_value g (snd kv))) context)
  = match endpoint ref node_id context g with
    | Some v => v
    | None => VNone
    end.
Proof.
  unfold _resolve_node_reference, endpoint.
  destruct (String.eqb ref "new_node"); [reflexivity|].
  rewrite dict_get_map.
  destruct (dict_get (ref ++ "_node_id") context); [reflexivity|]. simpl.
  destruct (String.eqb ref "facility"); [|reflexivity].
  rewrite find_bound_maps.
  destruct (find (dict_has "facility_id") (bound_maps context g)) as [d|] eqn:E;
    [|reflexivity].
  apply find_some in E as [_ E]. unfold dict_has in E. unfold get_or_none.
  now destruct (dict_get "facility_id" d).
Qed.

Lemma fails_endpoint ref node_id context g :
  fails_to_resolve ref context g = true ->
  endpoint ref node_id context g = None.
Proof.
  unfold fails_to_resolve, endpoint, dict_has. intros H.
  apply andb_true_iff in H as [H Hfac].
  apply andb_true_iff in H as [Hnew Hid].
  apply negb_true_iff in Hnew. rewrite Hnew.
  destruct (dict_get (ref ++ "_node_id") context); [discriminate|].
  destruct (String.eqb ref "facility"); [|reflexivity]. simpl in Hfac.
  assert (Hn : find (dict_has "facility_id") (bound_maps context g) = None).
  { clear - Hfac. induction context as [|[k c] context IH]; simpl in *; auto.
    apply andb_true_iff in Hfac as [H1 H2].
    destruct (entry_value g c) as [| | | | | |d]; simpl; auto.
    apply negb_true_iff in H1. unfold dict_has in *. rewrite H1. auto. }
  unfold dict_has in Hn. now rewrite Hn.
Qed.

(** A definition with an unresolved endpoint leaves the world as it is. *)
Lemma skipped_edge node_id context e w :
  fails_to_resolve (ed_from e) context (graph w) = true
  \/ fails_to_resolve (ed_to e) context (graph w) = true ->
  create_derived_edge node_id context e w = (w, Ok tt).
Proof.
  intros H. unfold create_derived_edge, snapshot, bind, get_graph, ret.
  rewrite !resolve_endpoint.
  destruct H as [H|H]; rewrite (fails_endpoint _ node_id _ _ H); simpl; auto.
  now rewrite andb_false_r.
Qed.

(** [add_edge] creates missing endpoints with empty attributes and never
    rewrites an attribute dict: what a context shows is unchanged. *)
Lemma entry_value_add_edge u v attr g g' c :
  nx_add_edge u v attr g = Ok g' -> entry_value g' c = entry_value g c.
Proof.
  unfold nx_add_edge.
  destruct (_ || _); [discriminate|]. destruct (dict_has "key" attr); [discriminate|].
  intros [= <-]. destruct c; simpl; auto.
  now rewrite !dict_get_ensure_node.
Qed.

Lemma entry_value_create_edge node_id context e w c :
  entry_value (graph (fst (create_derived_edge node_id context e w))) c
  = entry_value (graph w) c.
Proof.
  unfold create_derived_edge, snapshot, bind, get_graph, ret, lift, add_edge,
    set_graph. simpl.
  destruct (truthy _ && truthy _); auto.
  destruct (as_node_id _); auto. destruct (as_node_id _); auto.
  unfold bind, get_graph, lift. simpl.
  destruct (nx_add_edge _ _ _ _) eqn:E; simpl; auto.
  eapply entry_value_add_edge; eauto.
Qed.

Lemma fails_to_resolve_ext ref context g g' :
  (forall c, entry_value g' c = entry_value g c) ->
  fails_to_resolve ref context g' = fails_to_resolve ref context g.
Proof.
  intros H. unfold fails_to_resolve. do 2 f_equal.
  induction context as [|kv ctx IH]; simpl; auto.
  now rewrite H, IH.
Qed.

(** Whatever the other definitions do, the list behaves as without the
    definition whose endpoint does not resolve. *)
Lemma edge_list_without node_id context before bad after :
  forall w,
    fails_to_resolve (ed_from bad) context (graph w) = true
    \/ fails_to_resolve (ed_to bad) context (graph w) = true ->
    _create_derived_edges node_id (before ++ bad :: after) context w
    = _create_derived_edges node_id (before ++ after) context w.
Proof.
  unfold _create_derived_edges.
  induction before as [|p before IH]; intros w H; simpl.
  - unfold bind. now rewrite skipped_edge.
  - unfold bind.
    pose proof (entry_value_create_edge node_id context p w) as Hp.
    destruct (create_derived_edge node_id context p w) as [w1 [[]| |]];
      simpl in *; auto.
    apply IH.
    now rewrite !(fails_to_resolve_ext _ _ (graph w) (graph w1) Hp).
Qed.

(** A step of the derived-node loop that finds a tuple, up to the edge
    list. *)
Lemma derive_from_edges trans en first_alias n first_node w w1 matched node_id
      w2 properties :
  has_node first_node (graph w) = true ->
  _find_matching_nodes first_alias first_node (dn_source_entities trans) en
                       (dn_join_condition trans) w
  = (w1, Ok (Some matched)) ->
  matched <> [] ->
  _generate_node_id_from_template (or_default (dn_node_id_template trans) "")
    (map (fun kv => (fst kv, entry_value (graph w1) (snd kv)))
         (dict_update (dict_set (first_alias ++ "_node_id")
                                (CVal (VStr first_node))
                                [(first_alias, CNode first_node)]) matched))
  = Ok node_id ->
  fold_m (or_empty (dn_properties trans))
         [("label", VStr (dn_output_entity trans))]
         (derived_property
            (map (fun kv => (fst kv, entry_value (graph w1) (snd kv)))
                 (dict_update (dict_set (first_alias ++ "_node_id")
                                        (CVal (VStr first_node))
                                        [(first_alias, CNode first_node)])
                              matched))) w1
  = (w2, Ok properties) ->
  dict_has "node_for_adding" properties = false ->
  derive_from trans en first_alias n first_node w
  = match _create_derived_edges node_id (or_empty (dn_edges trans))
            (dict_update (dict_set (first_alias ++ "_node_id")
                                   (CVal (VStr first_node))
                                   [(first_alias, CNode first_node)]) matched)
            (fst (add_node node_id properties w2)) with
    | (w', Ok _) => (w', Ok (S n))
    | (w', Raise e) => (w', Raise e)
    | (w', Unmodelled) => (w', Unmodelled)
    end.
Proof.
  intros Hnode Hfind Hne Hid Hprops Hkw.
  assert (Hadd : add_node node_id properties w2
                 = (fst (add_node node_id properties w2), Ok tt)).
  { unfold add_node, bind, get_graph, lift, nx_add_node. now rewrite Hkw. }
  unfold derive_from.
  unfold bind at 1. unfold node_data.
  unfold has_node, dict_has in Hnode.
  destruct (dict_get first_node (g_nodes (graph w))) as [d0|]; [|discriminate].
  unfold bind at 1. rewrite Hfind.
  destruct matched as [|m0 matched']; [congruence|].
  unfold bind at 1. unfold snapshot, bind at 1, get_graph, ret.
  unfold bind at 1, lift. rewrite Hid.
  unfold bind at 1. rewrite Hprops.
  unfold bind at 1. rewrite Hadd.
  unfold bind.
  now destruct (_create_derived_edges _ _ _ _) as [w' [[]|e|]].
Qed.

Lemma endpoint_ext ref node_id context g g' :
  (forall c, entry_value g' c = entry_value g c) ->
  endpoint ref node_id context g' = endpoint ref node_id context g.
Proof.
  intros H. unfold endpoint.
  assert (Hb : bound_maps context g' = bound_maps context g).
  { unfold bound_maps. induction context as [|kv context IH]; simpl; auto.
    now rewrite H, IH. }
  rewrite Hb.
  destruct (String.eqb ref "new_node"); [reflexivity|].
  destruct (dict_get (ref ++ "_node_id") context); [|reflexivity].
  now rewrite H.
Qed.

Lemma plain_edge_ext node_id context g g' edge_def :
  (forall c, entry_value g' c = entry_value g c) ->
  plain_edge node_id context g' edge_def = plain_edge node_id context g edge_def
  /\ derived_edge node_id context g' edge_def
     = derived_edge node_id context g edge_def.
Proof.
  intros H. unfold plain_edge, derived_edge.
  now rewrite !(endpoint_ext _ node_id context g g' H).
Qed.

(** What one turn of the edge loop does to the world. *)
Definition edges_added (defs : list (string * string * dict value))
           (w w' : World) : Prop :=
  printed w' = printed w
  /\ agg_cache w' = agg_cache w
  /\ entity_node_map w' = entity_node_map w
  /\ transformation_log w' = transformation_log w
  /\ (forall c, entry_value (graph w') c = entry_value (graph w) c)
  /\ (forall id, dict_has id (g_nodes (graph w)) = true ->
                 dict_get id (g_nodes (graph w')) = dict_get id (g_nodes (graph w)))
  /\ exists new,
       g_edges (graph w') = (g_edges (graph w) ++ new)%list
       /\ map edge_shape new = defs.

Lemma created_edge node_id context edge_def w :
  plain_edge node_id context (graph w) edge_def = true ->
  exists w',
    create_derived_edge node_id context edge_def w = (w', Ok tt)
    /\ edges_added (derived_edge node_id context (graph w) edge_def) w w'.
Proof.
  intros Hp.
  assert (Hnone : edges_added [] w w).
  { repeat split; auto. exists []. now rewrite app_nil_r. }
  unfold create_derived_edge, snapshot, bind at 1, get_graph, ret.
  unfold bind at 1. rewrite !resolve_endpoint.
  unfold plain_edge in Hp. unfold derived_edge.
  destruct (endpoint (ed_from edge_def) node_id context (graph w)) as [vf|] eqn:Ef;
    [|exists w; split; [reflexivity|exact Hnone]].
  destruct (truthy vf) eqn:Tf;
    [|exists w; split; [reflexivity|];
      destruct vf as [| | | |u| |]; try exact Hnone;
      destruct (endpoint (ed_to edge_def) node_id context (graph w))
        as [[| | | |v| |]|]; try exact Hnone;
      simpl in Tf; apply negb_false_iff in Tf; rewrite Tf; exact Hnone].
  destruct (endpoint (ed_to edge_def) node_id context (graph w)) as [vt|] eqn:Et;
    [|exists w; split; [reflexivity|];
      destruct vf as [| | | |u| |]; exact Hnone].
  destruct (truthy vt) eqn:Tt;
    [|exists w; split; [reflexivity|];
      destruct vf as [| | | |u| |]; try exact Hnone;
      destruct vt as [| | | |v| |]; try exact Hnone;
      simpl in Tt; apply negb_false_iff in Tt; rewrite Tt, orb_true_r;
      exact Hnone].
  simpl in Hp. rewrite Tf, Tt in Hp. simpl in Hp.
  apply andb_true_iff in Hp as [Hp Hres]. apply andb_true_iff in Hp as [Hf Ht].
  destruct vf as [| | | |u| |]; try discriminate.
  destruct vt as [| | | |v| |]; try discriminate.
  simpl in Tf, Tt. apply negb_true_iff in Tf. apply negb_true_iff in Tt.
  rewrite Tf, Tt. simpl.
  apply negb_true_iff in Hres. simpl in Hres.
  apply orb_false_iff in Hres as [Hu Hres].
  apply orb_false_iff in Hres as [Hv Hres].
  apply orb_false_iff in Hres as [Hk _].
  unfold lift, bind at 1. unfold bind at 1.
  unfold add_edge, bind at 1, get_graph. unfold bind at 1, lift.
  unfold nx_add_edge. rewrite Hu, Hv, Hk. simpl.
  eexists. split; [reflexivity|].
  unfold edges_added. simpl. repeat split; auto.
  - intros [id|x]; simpl; auto. now rewrite !dict_get_ensure_node.
  - intros id Hid. rewrite !dict_get_ensure_present; auto.
    unfold dict_has. rewrite dict_get_ensure_present by exact Hid.
    exact Hid.
  - eexists. split; [reflexivity|]. reflexivity.
Qed.

Lemma created_edges node_id context defs :
  forall w,
    forallb (plain_edge node_id context (graph w)) defs = true ->
    exists w',
      _create_derived_edges node_id defs context w = (w', Ok tt)
      /\ edges_added (flat_map (derived_edge node_id context (graph w)) defs) w w'.
Proof.
  unfold _create_derived_edges.
  induction defs as [|def defs IH]; intros w Hall.
  - exists w. split; [reflexivity|].
    repeat split; auto. exists []. now rewrite app_nil_r.
  - simpl in Hall. apply andb_true_iff in Hall as [Hd Hall].
    destruct (created_edge node_id context def w Hd)
      as (w1 & E1 & P1 & C1 & M1 & L1 & V1 & N1 & new1 & G1 & S1).
    assert (Hall1 : forallb (plain_edge node_id context (graph w1)) defs = true).
    { rewrite forallb_forall in *. intros x Hx.
      rewrite (proj1 (plain_edge_ext node_id context (graph w) (graph w1) x V1)).
      now apply Hall. }
    destruct (IH w1 Hall1)
      as (w2 & E2 & P2 & C2 & M2 & L2 & V2 & N2 & new2 & G2 & S2).
    exists w2. split.
    + simpl. unfold bind. rewrite E1. exact E2.
    + unfold edges_added. do 4 (split; [congruence|]). split; [|split].
      * intros c. now rewrite V2, V1.
      * intros id Hid. rewrite N2, N1; auto.
        unfold dict_has. rewrite N1 by exact Hid. exact Hid.
      * exists (new1 ++ new2)%list. split.
        -- rewrite G2, G1. now rewrite app_assoc.
        -- rewrite map_app, S1, S2. simpl. f_equal.
           apply flat_map_ext. intros x.
           apply (proj2 (plain_edge_ext node_id context (graph w) (graph w1) x V1)).
Qed.

(** C10. When a derived node is made for a matched tuple and one
    definition of the rule's edge list has an endpoint that fails to
    resolve, that definition is passed over in silence. Whatever the
    other definitions are, the step does what it does for the rule
    without the definition. And when the other definitions are plain
    ones, the step succeeds and counts the node: the derived node is in
    the graph with its properties, each other definition has given its
    edge (in the order of the list, after the edges that were there),
    the definition with the unresolved endpoint has given none, and
    nothing is printed about it. *)
Theorem unresolved_edge_is_omitted :
  forall trans en first_alias n first_node w w1 matched node_id w2 properties
         before bad after,
    has_node first_node (graph w) = true ->
    _find_matching_nodes first_alias first_node (dn_source_entities trans) en
                         (dn_join_condition trans) w
    = (w1, Ok (Some matched)) ->
    matched <> [] ->
    _generate_node_id_from_template (or_default (dn_node_id_template trans) "")
      (map (fun kv => (fst kv, entry_value (graph w1) (snd kv)))
           (dict_update (dict_set (first_alias ++ "_node_id")
                                  (CVal (VStr first_node))
                                  [(first_alias, CNode first_node)]) matched))
    = Ok node_id ->
    fold_m (or_empty (dn_properties trans))
           [("label", VStr (dn_output_entity trans))]
           (derived_property
              (map (fun kv => (fst kv, entry_value (graph w1) (snd kv)))
                   (dict_update (dict_set (first_alias ++ "_node_id")
                                          (CVal (VStr first_node))
                                          [(first_alias, CNode first_node)])
                                matched))) w1
    = (w2, Ok properties) ->
    dict_has "node_for_adding" properties = false ->
    dn_edges trans = Some (before ++ bad :: after)%list ->
    (fails_to_resolve (ed_from bad)
       (dict_update (dict_set (first_alias ++ "_node_id") (CVal (VStr first_node))
                              [(first_alias, CNode first_node)]) matched)
       (graph (fst (add_node node_id properties w2))) = true
     \/ fails_to_resolve (ed_to bad)
          (dict_update (dict_set (first_alias ++ "_node_id") (CVal (VStr first_node))
                                 [(first_alias, CNode first_node)]) matched)
          (graph (fst (add_node node_id properties w2))) = true) ->
    derive_from trans en first_alias n first_node w
    = derive_from (with_edges trans (before ++ after)) en first_alias n
                  first_node w
    /\ (forallb (plain_edge node_id
                   (dict_update (dict_set (first_alias ++ "_node_id")
                                          (CVal (VStr first_node))
                                          [(first_alias, CNode first_node)]) matched)
                   (graph (fst (add_node node_id properties w2))))
                (before ++ after) = true ->
        exists w',
          derive_from trans en first_alias n first_node w = (w', Ok (S n))
          /\ printed w' = printed w2
          /\ dict_get node_id (g_nodes (graph w'))
             = Some (dict_update match dict_get node_id (g_nodes (graph w2)) with
                                 | Some d => d
                                 | None => []
                                 end properties)
          /\ exists new,
               g_edges (graph w') = (g_edges (graph w2) ++ new)%list
               /\ map edge_shape new
                  = flat_map (derived_edge node_id
                                (dict_update (dict_set (first_alias ++ "_node_id")
                                                       (CVal (VStr first_node))
                                                       [(first_alias,
                                                         CNode first_node)])
                                             matched)
                                (graph (fst (add_node node_id properties w2))))
                             (before ++ after)).
Proof.
  intros trans en first_alias n first_node w w1 matched node_id w2 properties
         before bad after Hnode Hfind Hne Hid Hprops Hkw Hedges Hbad.
  set (context := dict_update (dict_set (first_alias ++ "_node_id")
                                        (CVal (VStr first_node))
                                        [(first_alias, CNode first_node)]) matched)
    in *.
  pose proof (@derive_from_edges trans en first_alias n first_node w w1 matched
                node_id w2 properties Hnode Hfind Hne Hid Hprops Hkw) as Hstep.
  pose proof (@derive_from_edges (with_edges trans (before ++ after)) en
                first_alias n first_node w w1 matched
                node_id w2 properties Hnode Hfind Hne Hid Hprops Hkw) as Hstep'.
  fold context in Hstep, Hstep'.
  set (w3 := fst (add_node node_id properties w2)) in *.
  rewrite Hedges in Hstep. simpl in Hstep, Hstep'.
  rewrite (edge_list_without node_id context before bad after w3 Hbad) in Hstep.
  split; [congruence|]. intros Hplain.
  assert (Hg3 : graph w3
                = mk_graph
                    (dict_set node_id
                       (dict_update match dict_get node_id (g_nodes (graph w2)) with
                                    | Some d => d
                                    | None => []
                                    end properties) (g_nodes (graph w2)))
                    (g_edges (graph w2))).
  { unfold w3, add_node, bind, get_graph, lift, nx_add_node. now rewrite Hkw. }
  assert (Hp3 : printed w3 = printed w2).
  { unfold w3. apply keeps_add_node_printed. }
  destruct (created_edges node_id context (before ++ after) w3 Hplain)
    as (w' & E & P & _ & _ & _ & _ & N & new & G & S).
  exists w'. split; [|split; [|split]].
  - rewrite Hstep, E. reflexivity.
  - congruence.
  - rewrite N.
    + rewrite Hg3. simpl. apply dict_get_set_same.
    + rewrite Hg3. simpl. unfold dict_has. now rewrite dict_get_set_same.
  - exists new. split.
    + rewrite G, Hg3. reflexivity.
    + exact S.
Qed.

Lemma unresolved_edge_is_omitted_witness :
  fails_to_resolve (ed_from Demo.edge_from_facility) Demo.context_a1_b
                   (graph Demo.built) = true
  /\ exists w',
       derive_from Demo.derive_D_linked Demo.sources_of_D "a" 0 "a1" Demo.built
       = (w', Ok 1%nat)
       /\ printed w' = printed Demo.built
       /\ dict_get "D_a1" (g_nodes (graph w'))
          = Some [("label", VStr "D"); ("aid", VStr "a1")]
       /\ map edge_shape (g_edges (graph w'))
          = [("a1", "D_a1", [("label", VStr "HAS_D")]);
             ("D_a1", "B_a1_202401", [("label", VStr "FROM_B")])].
Proof.
  split; [vm_compute; reflexivity|].
  destruct (@unresolved_edge_is_omitted
              Demo.derive_D_linked Demo.sources_of_D "a" 0 "a1"
              Demo.built Demo.built Demo.matched_b "D_a1" Demo.built
              [("label", VStr "D"); ("aid", VStr "a1")]
              [Demo.edge_from_a] Demo.edge_from_facility [Demo.edge_to_b])
    as (_ & H); try (vm_compute; reflexivity).
  - discriminate.
  - left. vm_compute. reflexivity.
  - destruct H as (w' & E & P & N & new & G & S); [vm_compute; reflexivity|].
    exists w'. split; [exact E|]. split; [exact P|]. split.
    + rewrite N. vm_compute. reflexivity.
    + rewrite G.
      change (g_edges (graph Demo.built)) with (@nil edge).
      cbn [app]. rewrite S. vm_compute. reflexivity.
Defined.
End DerivedNodeEdges.

(** ** Rules over an entity that has no nodes in the entity map *)

Section EmptyEntity.
Import ExpressionEvaluator DynamicGraphBuilder RuleEngine Spec.

Ltac by_frame :=
  match goal with
  | |- graph (fst (?m ?w)) = graph ?w =>
      let K := fresh "K" in
      assert (K : keeps graph m) by (simpl; keeps_tac); apply K
  end.

Lemma cross_link_over_nothing id trans w :
  entity_nodes (cl_from_entity trans) (entity_node_map w) = []
  \/ entity_nodes (cl_to_entity trans) (entity_node_map w) = [] ->
  graph (fst (_apply_cross_link id trans w)) = graph w.
Proof.
  intros H. unfold _apply_cross_link, get_nodes_by_entity.
  unfold bind at 1 2 3 4, get_entity_map, ret.
  destruct H as [H|H]; rewrite H; by_frame.
Qed.

Lemma aggregation_over_nothing id trans w :
  entity_nodes (ag_group_by_entity trans) (entity_node_map w) = [] ->
  graph (fst (_apply_aggregation id trans w)) = graph w.
Proof.
  intros H. unfold _apply_aggregation, get_nodes_by_entity.
  unfold bind at 1 2, get_entity_map, ret. rewrite H. by_frame.
Qed.

(** An alias can be bound only if it is not the first one and has
    candidates. *)
Definition bindable (first_alias : string) (en : dict (list string))
           (item : string * string) : bool :=
  negb (String.eqb (fst item) first_alias)
  && match dict_get (fst item) en with
     | Some (_ :: _) => true
     | _ => false
     end.

Lemma matched_entities_bound first_alias first_node en jc l :
  forall matched me w w' matched' me',
    fold_m l (matched, me)
      (fun (st : Context * list string) item =>
         let '(matched, matched_entities) := st in
         let '(alias, _) := item in
         if String.eqb alias first_alias then ret st
         else
           match dict_get alias en with
           | None => raise KeyError
           | Some candidates =>
               found <- first_match first_alias first_node alias jc matched candidates ;;
               match found with
               | Some candidate_node =>
                   ret (dict_set (alias ++ "_node_id") (CVal (VStr candidate_node))
                          (dict_set alias (CNode candidate_node) matched),
                        if existsb (String.eqb alias) matched_entities
                        then matched_entities
                        else (matched_entities ++ [alias])%list)
               | None => ret st
               end
           end) w = (w', Ok (matched', me')) ->
    (List.length me' <= List.length me
                        + List.length (filter (bindable first_alias en) l))%nat.
Proof.
  induction l as [|[alias name] l IH]; intros matched me w w' matched' me' H;
    simpl in H.
  - injection H as _ _ <-. simpl. lia.
  - apply bind_ok in H as (w1 & [m1 me1] & Hstep & Hrest).
    apply IH in Hrest. simpl. unfold bindable at 1. simpl.
    destruct (String.eqb alias first_alias); simpl.
    + injection Hstep as _ _ <-. exact Hrest.
    + destruct (dict_get alias en) as [[|c cs]|]; try discriminate.
      * simpl in Hstep. injection Hstep as _ _ <-. exact Hrest.
      * apply bind_ok in Hstep as (w2 & found & _ & Hret).
        destruct found; injection Hret as _ _ <-; simpl.
        -- destruct (existsb (String.eqb alias) me); [lia|].
           rewrite length_app in Hrest. simpl in Hrest. lia.
        -- lia.
Qed.

Lemma two_excluded {A} (p : A -> bool) (l : list A) x y :
  In x l -> In y l -> x <> y -> p x = false -> p y = false ->
  (List.length (filter p l) + 2 <= List.length l)%nat.
Proof.
  intros Hx Hy Hne Hpx Hpy.
  assert (Hone : forall z l, In z l -> p z = false ->
                             (List.length (filter p l) + 1 <= List.length l)%nat).
  { clear. intros z l. induction l as [|a l IH]; simpl; [tauto|].
    intros [->|Hin] Hz.
    - rewrite Hz. pose proof (filter_length_le p l). lia.
    - specialize (IH Hin Hz). destruct (p a); simpl; lia. }
  induction l as [|a l IH]; simpl in *; [tauto|].
  destruct Hx as [->|Hx], Hy as [->|Hy]; try congruence.
  - rewrite Hpx. specialize (Hone y l Hy Hpy). lia.
  - rewrite Hpy. specialize (Hone x l Hx Hpx). lia.
  - specialize (IH Hx Hy). destruct (p a); simpl; lia.
Qed.

(** If some alias other than the first has no candidate, no tuple is ever
    complete. *)
Lemma no_complete_tuple first_alias first_node se en jc w w' r b name name0 :
  _find_matching_nodes first_alias first_node se en jc w = (w', Ok r) ->
  In (first_alias, name0) se ->
  In (b, name) se ->
  b <> first_alias ->
  dict_get b en = Some [] ->
  r = None.
Proof.
  intros H Hfirst Hb Hne Hnil. unfold _find_matching_nodes in H.
  apply bind_ok in H as (w1 & [matched me] & Hfold & Hret).
  apply matched_entities_bound in Hfold. simpl in Hfold.
  injection Hret as _ <-.
  assert (Hlen : (List.length (filter (bindable first_alias en) se) + 2
                  <= List.length se)%nat).
  { apply (@two_excluded _ (bindable first_alias en) se (first_alias, name0) (b, name));
      auto.
    - congruence.
    - unfold bindable. simpl. now rewrite String.eqb_refl.
    - unfold bindable. simpl. rewrite Hnil. apply andb_false_r. }
  destruct (Nat.eqb _ _) eqn:E; [|reflexivity].
  apply Nat.eqb_eq in E. lia.
Qed.

Lemma derive_from_incomplete trans en first_alias n first_node b name name0 w :
  In (first_alias, name0) (dn_source_entities trans) ->
  In (b, name) (dn_source_entities trans) ->
  b <> first_alias ->
  dict_get b en = Some [] ->
  graph (fst (derive_from trans en first_alias n first_node w)) = graph w.
Proof.
  intros Hfirst Hb Hne Hnil. unfold derive_from.
  unfold bind at 1, node_data. destruct (dict_get first_node _); [|reflexivity].
  unfold bind at 1.
  pose proof (keeps_find_matching_nodes keeps_graph_set_cache first_alias first_node
                (dn_source_entities trans) en (dn_join_condition trans) w) as Hg.
  destruct (_find_matching_nodes _ _ _ _ _ w) as [w1 [r| |]] eqn:E; simpl in *; auto.
  rewrite (@no_complete_tuple first_alias first_node _ en _ w w1 r b name name0
             E Hfirst Hb Hne Hnil).
  exact Hg.
Qed.

Lemma entity_nodes_of_sources se w :
  forall acc,
    fold_m se acc
      (fun acc item =>
         nodes <- get_nodes_by_entity (snd item) ;;
         ret (dict_set (fst item) nodes acc)) w
    = (w, Ok (fold_left
                (fun acc item =>
                   dict_set (fst item) (entity_nodes (snd item) (entity_node_map w)) acc)
                se acc)).
Proof.
  induction se as [|item se IH]; intros acc; simpl; [reflexivity|].
  unfold bind at 1. simpl. apply IH.
Qed.

Lemma dict_get_fold_set {B} (g : string -> B) (se : dict string) :
  forall acc a name,
    unique_keys se = true ->
    In (a, name) se ->
    dict_get a (fold_left (fun acc item => dict_set (fst item) (g (snd item)) acc)
                          se acc)
    = Some (g name).
Proof.
  induction se as [|[k v] se IH]; intros acc a name Hu Hin; simpl in *; [tauto|].
  apply andb_true_iff in Hu as [Hk Hu].
  destruct Hin as [[= -> ->]|Hin].
  - clear IH. assert (Hnot : dict_get a se = None).
    { unfold dict_has in Hk. now destruct (dict_get a se). }
    clear Hk Hu. revert acc.
    assert (Hgen : forall acc, dict_get a acc = Some (g name) ->
              dict_get a (fold_left (fun acc item => dict_set (fst item) (g (snd item)) acc)
                                    se acc) = Some (g name)).
    { induction se as [|[k v] se IH]; intros acc Hacc; simpl in *; auto.
      destruct (String.eqb a k) eqn:E; [discriminate|].
      apply IH; auto. rewrite dict_get_set_other; auto.
      intros ->. now rewrite String.eqb_refl in E. }
    intros acc. apply Hgen, dict_get_set_same.
  - now apply IH.
Qed.

Lemma derived_node_over_nothing id trans alias name w :
  unique_keys (dn_source_entities trans) = true ->
  In (alias, name) (dn_source_entities trans) ->
  entity_nodes name (entity_node_map w) = [] ->
  graph (fst (_apply_derived_node id trans w)) = graph w.
Proof.
  intros Hu Hin Hnil. unfold _apply_derived_node.
  unfold bind at 1. rewrite entity_nodes_of_sources.
  set (en := fold_left _ _ _).
  assert (Hen : forall a n, In (a, n) (dn_source_entities trans) ->
                            dict_get a en = Some (entity_nodes n (entity_node_map w))).
  { intros a n Han. unfold en.
    apply (dict_get_fold_set (fun n => entity_nodes n (entity_node_map w))); auto. }
  destruct (dn_source_entities trans) as [|[first_alias name0] rest] eqn:Ese;
    [reflexivity|].
  rewrite (Hen first_alias name0) by now left.
  destruct (String.eqb alias first_alias) eqn:Ea.
  - apply String.eqb_eq in Ea. subst alias.
    assert (name = name0).
    { destruct Hin as [[= ->]|Hin]; [reflexivity|].
      simpl in Hu. apply andb_true_iff in Hu as [Hk Hu].
      unfold dict_has in Hk.
      rewrite (@unique_keys_lookup _ rest first_alias name Hu Hin) in Hk.
      discriminate. }
    subst name0. rewrite Hnil. by_frame.
  - apply String.eqb_neq in Ea.
    match goal with
    | |- graph (fst (?m w)) = graph w =>
        assert (K : keeps graph m); [|apply K]
    end.
    apply keeps_bind; [|intros; keeps_tac].
    apply keeps_fold_m. intros s x w'.
    apply (@derive_from_incomplete trans en first_alias s x alias name name0 w');
      auto.
    + rewrite Ese. now left.
    + rewrite Ese. exact Hin.
    + rewrite (Hen alias name) by exact Hin. now rewrite Hnil.
Qed.
End EmptyEntity.

(** ** The nodes a rule iterates over *)

Section BuilderNodesOnly.
Import ExpressionEvaluator DynamicGraphBuilder RuleEngine Spec.

(** C8. After a successful build over entities with distinct names, the
    list that [get_nodes_by_entity] returns for a schema entity is the
    list of identifiers generated from the entity's rows, in row order.
    Applying transformations never changes the entity map. Hence, for a
    label that is not a schema entity, in any later world the list is
    empty, and a cross-link rule from or to it, a derived-node rule with it
    among its sources, and an aggregation rule grouping by it leave the
    graph as it is. *)
Theorem rules_see_builder_nodes_only :
  forall schema files now w g,
    distinct (map en_name (entities schema)) = true ->
    build_graph schema files (initial_world now) = (w, Ok g) ->
    (forall e, In e (entities schema) ->
       exists df ids,
         dict_get (en_source_path e) files = Some df
         /\ Forall2 (fun row id => _generate_node_id e row = Ok id) df ids
         /\ get_nodes_by_entity (en_name e) w = (w, Ok ids))
    /\ (forall ts w',
           entity_node_map (fst (apply_transformations ts w')) = entity_node_map w')
    /\ (forall L w',
           ~ In L (map en_name (entities schema)) ->
           entity_node_map w' = entity_node_map w ->
           get_nodes_by_entity L w' = (w', Ok [])
           /\ (forall id trans,
                  cl_from_entity trans = L \/ cl_to_entity trans = L ->
                  graph (fst (_apply_cross_link id trans w')) = graph w')
           /\ (forall id trans alias,
                  unique_keys (dn_source_entities trans) = true ->
                  In (alias, L) (dn_source_entities trans) ->
                  graph (fst (_apply_derived_node id trans w')) = graph w')
           /\ (forall id trans,
                  ag_group_by_entity trans = L ->
                  graph (fst (_apply_aggregation id trans w')) = graph w')).
Proof.
  intros schema files now w g Hd Hb.
  destruct (build_graph_map _ _ _ Hd Hb) as [Hin Hout].
  split; [|split].
  - intros e He. destruct (Hin e He) as (df & ids & Hdf & Hall & Hget).
    exists df, ids. split; [exact Hdf|]. split; [exact Hall|].
    unfold get_nodes_by_entity, bind, get_entity_map, ret, entity_nodes.
    now rewrite Hget.
  - intros ts w'.
    apply (keeps_apply_transformations keeps_emap_set_cache keeps_emap_set_graph
                                       keeps_emap_print keeps_emap_log).
  - intros L w' HL Hmap.
    assert (Hnil : entity_nodes L (entity_node_map w') = []).
    { unfold entity_nodes. now rewrite Hmap, (Hout L HL). }
    split; [|split; [|split]].
    + unfold get_nodes_by_entity, bind, get_entity_map, ret. now rewrite Hnil.
    + intros id trans [<-|<-]; apply cross_link_over_nothing; auto.
    + intros id trans alias Hu Ha. eapply derived_node_over_nothing; eauto.
    + intros id trans <-. now apply aggregation_over_nothing.
Qed.

Lemma rules_see_builder_nodes_only_witness :
  distinct (map en_name (entities Demo.schema)) = true
  /\ build_graph Demo.schema Demo.files (initial_world "2024-01-01T00:00:00")
     = (Demo.built, Ok (graph Demo.built))
  /\ (forall L w',
         ~ In L (map en_name (entities Demo.schema)) ->
         entity_node_map w' = entity_node_map Demo.built ->
         get_nodes_by_entity L w' = (w', Ok [])
         /\ (forall id trans,
                cl_from_entity trans = L \/ cl_to_entity trans = L ->
                graph (fst (_apply_cross_link id trans w')) = graph w')
         /\ (forall id trans alias,
                unique_keys (dn_source_entities trans) = true ->
                In (alias, L) (dn_source_entities trans) ->
                graph (fst (_apply_derived_node id trans w')) = graph w')
         /\ (forall id trans,
                ag_group_by_entity trans = L ->
                graph (fst (_apply_aggregation id trans w')) = graph w')).
Proof.
  assert (Hd : distinct (map en_name (entities Demo.schema)) = true)
    by (vm_compute; reflexivity).
  assert (Hb : build_graph Demo.schema Demo.files (initial_world "2024-01-01T00:00:00")
               = (Demo.built, Ok (graph Demo.built)))
    by (vm_compute; reflexivity).
  split; [exact Hd|]. split; [exact Hb|].
  exact (proj2 (proj2 (@rules_see_builder_nodes_only
                         Demo.schema Demo.files "2024-01-01T00:00:00" Demo.built
                         (graph Demo.built) Hd Hb))).
Defined.
End BuilderNodesOnly.

(** ** The aggregation cache across rules *)

Section CacheAcrossRules.
Import ExpressionEvaluator DynamicGraphBuilder RuleEngine Spec.

(** C3, on the code: the cache is not cleared between a derived-node rule
    and the cross-link rule that follows it. The first rule adds two nodes
    labelled [D] (and, evaluating [count(D)] on its first tuple, caches 0);
    in the next rule [count(D)] still evaluates to 0 on every edge, although
    the graph then has two [D] nodes. Only [clear_cache], which none but an
    enrich-properties rule calls, makes the next evaluation see them. *)
Theorem stale_aggregate_in_next_rule :
  snd (apply_transformations [Demo.derive_D; Demo.link_counting_D] Demo.built) = Ok tt
  /\ nodes_with_label "D"
       (graph (fst (apply_transformations [Demo.derive_D; Demo.link_counting_D]
                                          Demo.built)))
     = ["D_a1"; "D_a2"]
  /\ map (fun e => (e_from e, e_to e, dict_get "n" (e_attrs e)))
         (g_edges (graph (fst (apply_transformations
                                 [Demo.derive_D; Demo.link_counting_D] Demo.built))))
     = [("a1", "B_a1_202401", Some (VInt 0)); ("a2", "B_a2_202412", Some (VInt 0))]
  /\ snd ((clear_cache ;;; evaluate "count(D)" [])
            (fst (apply_transformations [Demo.derive_D] Demo.built)))
     = Ok (VInt 2).
Proof. by_evaluation. Qed.
End CacheAcrossRules.

(** ** Precomputation in enrich-properties rules *)

Section Precomputation.
Import ExpressionEvaluator DynamicGraphBuilder RuleEngine Spec.

(** C7, on the code: an enrichment whose expression contains [max(...)]
    is not precomputed. It is evaluated for each node in the node's
    context, and the two [D] nodes get different values. The same
    expression with [avg(...)] is evaluated once, against the empty
    context, before the loop, which here makes the rule fail. *)
Theorem max_is_not_precomputed :
  mentions_aggregate "node.ratio - max(D.ratio)" = false
  /\ precompute [Demo.gap_to_max] Demo.two_d = (Demo.two_d, Ok [])
  /\ map (fun nd => (fst nd, dict_get "gap" (snd nd)))
         (g_nodes (graph (fst (_apply_enrich_properties "T"
                                 (mk_enrich "D" [Demo.gap_to_max]) Demo.two_d))))
     = [("d1", Some (VInt (-2))); ("d2", Some (VInt 0))]
  /\ snd (precompute [Demo.gap_to_avg] Demo.two_d) = Raise ValueError
  /\ snd (_apply_enrich_properties "T" (mk_enrich "D" [Demo.gap_to_avg]) Demo.two_d)
     = Raise ValueError.
Proof. by_evaluation. Qed.
End Precomputation.

(** ** Invariants of the graph store *)

(** [preserves P m]: if [P] holds before [m] runs it holds afterwards,
    whatever the outcome (a failed rule is not rolled back). *)
Definition preserves {A} (P : World -> Prop) (m : M A) : Prop :=
  forall w, P w -> P (fst (m w)).

Section Preserves.
Context (P : World -> Prop).

Lemma pres_ret {A} (a : A) : preserves P (ret a).
Proof. now intros w. Qed.

Lemma pres_raise {A} (e : exn) : preserves P (@raise A e).
Proof. now intros w. Qed.

Lemma pres_lift {A} (o : outcome A) : preserves P (lift o).
Proof. now intros w. Qed.

Lemma pres_bind {A B} (m : M A) (k : A -> M B) :
  preserves P m -> (forall a, preserves P (k a)) -> preserves P (bind m k).
Proof.
  intros Hm Hk w Hw. unfold bind. specialize (Hm w Hw).
  destruct (m w) as [w' [a|e|]]; simpl in *; auto.
  now apply Hk.
Qed.

Lemma pres_try {A} (m : M A) (h : exn -> M A) :
  preserves P m -> (forall e, preserves P (h e)) -> preserves P (try_except m h).
Proof.
  intros Hm Hh w Hw. unfold try_except. specialize (Hm w Hw).
  destruct (m w) as [w' [a|e|]]; simpl in *; auto.
  now apply Hh.
Qed.

Lemma pres_fold_m {A S} (xs : list A) (body : S -> A -> M S) :
  (forall s x, preserves P (body s x)) -> forall s, preserves P (fold_m xs s body).
Proof.
  intros Hb. induction xs as [|x xs IH]; intros s; simpl.
  - apply pres_ret.
  - apply pres_bind; auto.
Qed.

Lemma pres_for_each {A} (xs : list A) (body : A -> M unit) :
  (forall x, preserves P (body x)) -> preserves P (for_each xs body).
Proof.
  intros Hb. induction xs as [|x xs IH]; simpl.
  - apply pres_ret.
  - apply pres_bind; auto.
Qed.
End Preserves.

Lemma keeps_graph_set_entity_map m : keeps graph (set_entity_map m).
Proof. now intros w. Qed.
#[export] Hint Resolve keeps_graph_set_entity_map : keeps.

(** A property of the graph that [add_node], [add_edge] and the writing of
    one node property maintain is maintained by the builder and by the
    rule engine as a whole. *)
Section GraphInvariant.
Import ExpressionEvaluator DynamicGraphBuilder RuleEngine.
Variable Q : Graph -> Prop.
Hypothesis Q_add_node :
  forall n attr g g', Q g -> nx_add_node n attr g = Ok g' -> Q g'.
Hypothesis Q_add_edge :
  forall u v attr g g', Q g -> nx_add_edge u v attr g = Ok g' -> Q g'.
Hypothesis Q_set_property :
  forall n k v d g,
    Q g -> dict_get n (g_nodes g) = Some d ->
    Q (mk_graph (dict_set n (dict_set k v d) (g_nodes g)) (g_edges g)).

Lemma pres_keeps_graph {A} (m : M A) :
  keeps graph m -> preserves (fun w => Q (graph w)) m.
Proof. intros K w Hw. now rewrite K. Qed.

Lemma pres_add_node n attr : preserves (fun w => Q (graph w)) (add_node n attr).
Proof using Q_add_node.
  intros w Hw. unfold add_node, bind, get_graph, lift, set_graph.
  destruct (nx_add_node n attr (graph w)) eqn:E; simpl; eauto.
Qed.

Lemma pres_add_edge u v attr : preserves (fun w => Q (graph w)) (add_edge u v attr).
Proof using Q_add_edge.
  intros w Hw. unfold add_edge, bind, get_graph, lift, set_graph.
  destruct (nx_add_edge u v attr (graph w)) eqn:E; simpl; eauto.
Qed.

Lemma pres_set_node_property n k v :
  preserves (fun w => Q (graph w)) (set_node_property n k v).
Proof using Q_set_property.
  intros w Hw. unfold set_node_property, bind, node_data, get_graph, set_graph.
  destruct (dict_get n (g_nodes (graph w))) eqn:E; simpl; eauto.
Qed.

Ltac pres_step :=
  first
    [ solve [apply pres_keeps_graph; simpl; keeps_tac]
    | apply pres_add_node
    | apply pres_add_edge
    | apply pres_set_node_property
    | progress cbv zeta
    | apply pres_bind; [ | intros ]
    | apply pres_try; [ | intros ]
    | apply pres_fold_m; intros
    | apply pres_for_each; intros
    | match goal with
      | |- preserves _ (match ?x with _ => _ end) => destruct x
      | |- preserves _ (if ?b then _ else _) => destruct b
      | |- preserves _ (let '(_, _) := ?p in _) => destruct p
      end ].
Ltac pres_tac := repeat pres_step.

Lemma pres_build_graph schema files :
  preserves (fun w => Q (graph w)) (build_graph schema files).
Proof using Q_add_node Q_add_edge.
  unfold build_graph, _load_entity, load_row, _create_relationship,
    get_nodes_by_entity.
  pres_tac.
Qed.

Lemma pres_apply_cross_link id trans :
  preserves (fun w => Q (graph w)) (_apply_cross_link id trans).
Proof using Q_add_edge.
  unfold _apply_cross_link, get_nodes_by_entity, cross_link_props. pres_tac.
Qed.

Lemma pres_apply_derived_node id trans :
  preserves (fun w => Q (graph w)) (_apply_derived_node id trans).
Proof using Q_add_node Q_add_edge.
  unfold _apply_derived_node, derive_from, _create_derived_edges,
    create_derived_edge, get_nodes_by_entity.
  pres_tac.
Qed.

Lemma pres_apply_enrich_properties id trans :
  preserves (fun w => Q (graph w)) (_apply_enrich_properties id trans).
Proof using Q_set_property.
  unfold _apply_enrich_properties, enrich_one, clear_cache. pres_tac.
Qed.

Lemma pres_apply_aggregation id trans :
  preserves (fun w => Q (graph w)) (_apply_aggregation id trans).
Proof using Q_add_node Q_add_edge.
  unfold _apply_aggregation, aggregate_group, get_nodes_by_entity. pres_tac.
Qed.

Lemma pres_apply_transformations ts :
  preserves (fun w => Q (graph w)) (apply_transformations ts).
Proof using Q_add_node Q_add_edge Q_set_property.
  unfold apply_transformations.
  apply pres_bind; [pres_tac|intros _].
  apply pres_bind; [|intros _].
  - apply pres_for_each. intros t. unfold apply_transformation, dispatch.
    apply pres_bind; [pres_tac|intros _].
    apply pres_try; [|intros; pres_tac].
    destruct (t_body t);
      [ apply pres_apply_cross_link | apply pres_apply_derived_node
      | apply pres_apply_enrich_properties | apply pres_apply_aggregation
      | pres_tac ].
  - apply pres_bind; [pres_tac|intros _].
    apply pres_keeps_graph. intros w. unfold _print_transformation_summary.
    apply keeps_for_each. auto with keeps.
Qed.
End GraphInvariant.

Section StoreInvariants.
Import ExpressionEvaluator DynamicGraphBuilder RuleEngine Spec.

Lemma dict_has_set_mono {A} (m n : string) (v : A) (d : dict A) :
  dict_has m d = true -> dict_has m (dict_set n v d) = true.
Proof.
  unfold dict_has. destruct (String.eqb n m) eqn:E.
  - apply String.eqb_eq in E. subst. now rewrite dict_get_set_same.
  - apply String.eqb_neq in E. now rewrite dict_get_set_other.
Qed.

Lemma dict_has_ensure_mono m n nodes :
  dict_has m nodes = true -> dict_has m (ensure_node n nodes) = true.
Proof.
  intros H. unfold ensure_node. destruct (dict_has n nodes); auto.
  now apply dict_has_set_mono.
Qed.

Lemma dict_has_ensure_same n nodes : dict_has n (ensure_node n nodes) = true.
Proof.
  unfold ensure_node. destruct (dict_has n nodes) eqn:E; auto.
  unfold dict_has. now rewrite dict_get_set_same.
Qed.

Lemma nx_add_node_nodes n attr g g' :
  nx_add_node n attr g = Ok g' ->
  g_edges g' = g_edges g
  /\ g_nodes g' = dict_set n (dict_update
                               match dict_get n (g_nodes g) with
                               | Some d => d
                               | None => []
                               end attr) (g_nodes g).
Proof.
  unfold nx_add_node. destruct (dict_has _ attr); [discriminate|].
  now intros [= <-].
Qed.

Lemma nx_add_edge_graph u v attr g g' :
  nx_add_edge u v attr g = Ok g' ->
  g_nodes g' = ensure_node v (ensure_node u (g_nodes g))
  /\ exists e, g_edges g' = (g_edges g ++ [e])%list /\ e_from e = u /\ e_to e = v.
Proof.
  unfold nx_add_edge. destruct (_ || _); [discriminate|].
  destruct (dict_has "key" attr); [discriminate|].
  intros [= <-]. simpl. eauto.
Qed.

Lemma edges_closed_mono g g' :
  (forall m, has_node m g = true -> has_node m g' = true) ->
  g_edges g' = g_edges g ->
  edges_closed g = true -> edges_closed g' = true.
Proof.
  unfold edges_closed. intros Hm ->. rewrite !forallb_forall.
  intros H e He. specialize (H e He).
  apply andb_true_iff in H as [H1 H2]. now rewrite (Hm _ H1), (Hm _ H2).
Qed.


Lemma dict_has_update_mono {A} k (d d2 : dict A) :
  dict_has k d = true -> dict_has k (dict_update d d2) = true.
Proof.
  unfold dict_update. revert d.
  induction d2 as [|[k' v'] d2 IH]; intros d H; simpl; auto.
  apply IH. now apply dict_has_set_mono.
Qed.



End StoreInvariants.

(** ** The aggregation cache *)

(** A property of the cache that the storing of a result under a key not
    yet present maintains is maintained by every evaluation, and by every
    rule except [enrich_properties], the only one that clears the cache. *)
Section CacheInvariant.
Import ExpressionEvaluator DynamicGraphBuilder RuleEngine.
Variable R : dict value -> Prop.
Hypothesis R_store :
  forall key r c, R c -> dict_get key c = None -> R (dict_set key r c).

Lemma pres_keeps_cache {A} (m : M A) :
  keeps agg_cache m -> preserves (fun w => R (agg_cache w)) m.
Proof. intros K w Hw. now rewrite K. Qed.

Lemma pres_evaluate_aggregation fn en fd :
  preserves (fun w => R (agg_cache w)) (evaluate_aggregation fn en fd).
Proof using R_store.
  intros w Hw. unfold evaluate_aggregation, bind, get_cache, get_graph, ret, raise.
  destruct (dict_get _ (agg_cache w)) eqn:E; [exact Hw|].
  destruct (g_nodes (graph w)); [exact Hw|].
  destruct (String.eqb fn "count"); simpl.
  - now apply R_store.
  - unfold lift, bind.
    destruct (collect_values _ _ _); simpl; auto.
    destruct (aggregate fn _); simpl; auto.
Qed.

Ltac cache_leaf :=
  solve [apply pres_keeps_cache; simpl; keeps_tac;
         first [apply keeps_add_node | apply keeps_add_edge
               | apply keeps_set_node_property]; auto with keeps].

Ltac cache_step tac :=
  first
    [ cache_leaf
    | apply pres_evaluate_aggregation
    | tac
    | progress cbv zeta
    | apply pres_bind; [ | intros ]
    | apply pres_try; [ | intros ]
    | apply pres_fold_m; intros
    | apply pres_for_each; intros
    | match goal with
      | |- preserves _ (match ?x with _ => _ end) => destruct x
      | |- preserves _ (if ?b then _ else _) => destruct b
      | |- preserves _ (let '(_, _) := ?p in _) => destruct p
      end ].

Lemma pres_cache_replace_functions e ctx :
  preserves (fun w => R (agg_cache w)) (_replace_functions e ctx).
Proof using R_store.
  unfold _replace_functions. repeat cache_step fail.
Qed.

Lemma pres_cache_evaluate e ctx :
  preserves (fun w => R (agg_cache w)) (evaluate e ctx).
Proof using R_store.
  unfold evaluate. repeat cache_step ltac:(apply pres_cache_replace_functions).
Qed.

Lemma pres_cache_evaluate_condition_fuel fuel :
  forall c ctx,
    preserves (fun w => R (agg_cache w)) (evaluate_condition_fuel fuel c ctx).
Proof using R_store.
  induction fuel as [|fuel IH]; intros c ctx; simpl; [apply pres_lift|].
  destruct c; try apply pres_lift.
  assert (Hleaf : preserves (fun w => R (agg_cache w))
    match dict_get "type" d with
    | Some ty =>
        if py_eq ty (VStr "field_match")
        then
         from_expr <- expression_of (dict_get "from_expression" d);;
         from_val <- evaluate from_expr ctx;;
         to_expr <- expression_of (dict_get "to_expression" d);;
         to_val <- evaluate to_expr ctx;; ret (py_eq from_val to_val)
        else
         if py_eq ty (VStr "expression")
         then
          e <- expression_of (dict_get "expression" d);;
          v <- evaluate e ctx;; ret (truthy v)
         else ret false
    | None => raise KeyError
    end).
  { repeat cache_step ltac:(apply pres_cache_evaluate). }
  destruct (dict_get "operator" d) as [[| | | |op| |]|];
    try exact Hleaf; try apply pres_raise.
  destruct (match dict_get "conditions" d with
            | Some (VList l) => Some l
            | Some _ => None
            | None => Some []
            end) as [conditions|]; [|apply pres_lift].
  destruct (String.eqb (str_upper op) "AND").
  { induction conditions as [|c cs IHc]; [apply pres_ret|].
    apply pres_bind; [apply IH|]. intros [|]; [exact IHc|apply pres_ret]. }
  destruct (String.eqb (str_upper op) "OR").
  { induction conditions as [|c cs IHc]; [apply pres_ret|].
    apply pres_bind; [apply IH|]. intros [|]; [apply pres_ret|exact IHc]. }
  destruct (String.eqb (str_upper op) "NOT"); [|exact Hleaf].
  destruct conditions; [apply pres_raise|].
  apply pres_bind; [apply IH|]. intros; apply pres_ret.
Qed.

Lemma pres_cache_evaluate_condition c ctx :
  preserves (fun w => R (agg_cache w)) (evaluate_condition c ctx).
Proof using R_store. apply pres_cache_evaluate_condition_fuel. Qed.

Ltac cache_tac :=
  repeat cache_step
    ltac:(first [ apply pres_cache_evaluate
                | apply pres_cache_evaluate_condition ]).

Lemma pres_cache_first_match first_alias first_node alias jc matched candidates :
  preserves (fun w => R (agg_cache w))
            (first_match first_alias first_node alias jc matched candidates).
Proof using R_store.
  induction candidates as [|c cs IH]; simpl; [apply pres_ret|].
  repeat cache_step
    ltac:(first [ apply pres_cache_evaluate_condition | exact IH ]).
Qed.

Lemma pres_cache_apply_cross_link id trans :
  preserves (fun w => R (agg_cache w)) (_apply_cross_link id trans).
Proof using R_store.
  unfold _apply_cross_link, cross_link_props. cache_tac.
Qed.

Lemma pres_cache_apply_derived_node id trans :
  preserves (fun w => R (agg_cache w)) (_apply_derived_node id trans).
Proof using R_store.
  unfold _apply_derived_node, derive_from, _find_matching_nodes,
    derived_property, derived_property_value.
  repeat cache_step
    ltac:(first [ apply pres_cache_evaluate
                | apply pres_cache_first_match ]).
Qed.

Lemma pres_cache_apply_aggregation id trans :
  preserves (fun w => R (agg_cache w)) (_apply_aggregation id trans).
Proof using R_store.
  apply pres_keeps_cache. apply keeps_apply_aggregation; auto with keeps.
Qed.

Lemma pres_cache_apply_transformation t :
  (forall r, t_body t <> REnrichProperties r) ->
  preserves (fun w => R (agg_cache w)) (apply_transformation t).
Proof using R_store.
  intros Hne. unfold apply_transformation, dispatch.
  apply pres_bind; [cache_tac|intros _].
  apply pres_try; [|intros; cache_tac].
  destruct (t_body t) as [r|r|r|r|ty];
    [ apply pres_cache_apply_cross_link | apply pres_cache_apply_derived_node
    | now destruct (Hne r) | apply pres_cache_apply_aggregation
    | cache_tac ].
Qed.
End CacheInvariant.

Section AggregationCache.
Import ExpressionEvaluator DynamicGraphBuilder RuleEngine Spec.

Lemma cached_entry_stays k (v : value) c key r :
  dict_get k c = Some v -> dict_get key c = None ->
  dict_get k (dict_set key r c) = Some v.
Proof.
  intros Hk Hkey. rewrite dict_get_set_other; auto.
  intros ->. congruence.
Qed.




Lemma evaluate_aggregation_cached fn en fd w w1 v :
  evaluate_aggregation fn en fd w = (w1, Ok v) ->
  dict_get (fn ++ "_" ++ en ++ "_" ++ fd) (agg_cache w1) = Some v.
Proof.
  unfold evaluate_aggregation, bind, get_cache, get_graph, ret, raise.
  destruct (dict_get _ (agg_cache w)) eqn:E.
  - intros [= <- <-]. exact E.
  - destruct (g_nodes (graph w)); [discriminate|].
    destruct (String.eqb fn "count"); simpl.
    + intros [= <- <-]. simpl. apply dict_get_set_same.
    + unfold lift, bind.
      destruct (collect_values _ _ _); simpl; try discriminate.
      destruct (aggregate fn _); simpl; try discriminate.
      intros [= <- <-]. simpl. apply dict_get_set_same.
Qed.



End AggregationCache.

(** ** The order of rules *)

Section RuleOrder.
Import ExpressionEvaluator DynamicGraphBuilder RuleEngine Spec.



Lemma for_each_app {A} (xs ys : list A) (body : A -> M unit) w :
  for_each (xs ++ ys) body w
  = match for_each xs body w with
    | (w1, Ok _) => for_each ys body w1
    | r => r
    end.
Proof.
  revert w. induction xs as [|x xs IH]; intros w; simpl; [reflexivity|].
  unfold bind. destruct (body x w) as [w1 [[]|e|]]; auto.
Qed.


End RuleOrder.

(** ** The transformation log *)

Lemma keeps_log_set_cache c : keeps transformation_log (set_cache c).
Proof. now intros w. Qed.
Lemma keeps_log_set_graph g : keeps transformation_log (set_graph g).
Proof. now intros w. Qed.
Lemma keeps_log_print ev : keeps transformation_log (print ev).
Proof. now intros w. Qed.
#[export] Hint Resolve keeps_log_set_cache keeps_log_set_graph keeps_log_print
  : keeps.
Lemma keeps_add_node_log n attr : keeps transformation_log (add_node n attr).
Proof. unfold add_node. keeps_tac. Qed.
Lemma keeps_add_edge_log u v attr : keeps transformation_log (add_edge u v attr).
Proof. unfold add_edge. keeps_tac. Qed.
#[export] Hint Resolve keeps_add_node_log keeps_add_edge_log : keeps.

Section TransformationLog.
Import ExpressionEvaluator DynamicGraphBuilder RuleEngine Spec.

Lemma bind_ok_keeps {A B X} (f : World -> X) (m : M A) (k : A -> M B) w w' b :
  keeps f m -> bind m k w = (w', Ok b) ->
  exists w1 a, f w1 = f w /\ k a w1 = (w', Ok b).
Proof.
  intros K H. apply bind_ok in H as (w1 & a & H1 & H2).
  exists w1, a. split; auto. rewrite <- (K w), H1. reflexivity.
Qed.

Lemma log_then_print id ty n ev w w' :
  (log_transformation id ty n ;;; print ev) w = (w', Ok tt) ->
  transformation_log w' = (transformation_log w ++ [(id, ty, n)])%list.
Proof. unfold bind. simpl. now intros [= <-]. Qed.

Ltac log_bind H w1 a E :=
  apply (@bind_ok_keeps _ _ _ transformation_log) in H as (w1 & a & E & H).

Lemma cross_link_logs id trans w w' :
  _apply_cross_link id trans w = (w', Ok tt) ->
  exists n, transformation_log w'
            = (transformation_log w ++ [(id, "cross_link", n)])%list.
Proof.
  unfold _apply_cross_link. intros H.
  log_bind H w1 from_nodes E1; [|keeps_tac].
  log_bind H w2 to_nodes E2; [|keeps_tac].
  log_bind H w3 n E3; [|keeps_tac].
  exists n. apply log_then_print in H. congruence.
Qed.

Lemma derived_node_logs id trans w w' :
  _apply_derived_node id trans w = (w', Ok tt) ->
  exists n, transformation_log w'
            = (transformation_log w ++ [(id, "derived_node", n)])%list.
Proof.
  unfold _apply_derived_node. intros H.
  log_bind H w1 en E1; [|keeps_tac].
  destruct (dn_source_entities trans) as [|[first_alias name] rest];
    [discriminate|].
  destruct (dict_get first_alias en) as [first_nodes|]; [|discriminate].
  log_bind H w2 n E2;
    [|apply keeps_fold_m; intros; apply keeps_derive_from; auto with keeps].
  exists n. apply log_then_print in H. congruence.
Qed.

Lemma enrich_properties_logs id trans w w' :
  _apply_enrich_properties id trans w = (w', Ok tt) ->
  transformation_log w'
  = (transformation_log w
       ++ [(id, "enrich_properties",
            List.length (nodes_with_label (ep_target_entity trans) (graph w)))])%list.
Proof.
  unfold _apply_enrich_properties. unfold bind at 1, get_graph. intros H.
  log_bind H w1 u E1; [|unfold clear_cache; auto with keeps].
  log_bind H w2 precomputed E2; [|auto with keeps].
  log_bind H w3 n E3;
    [|apply keeps_fold_m; intros; apply keeps_bind; [auto with keeps|intros];
      apply keeps_fold_m; intros; apply keeps_enrich_one; auto with keeps].
  apply log_then_print in H. congruence.
Qed.

Lemma aggregation_logs id trans w w' :
  _apply_aggregation id trans w = (w', Ok tt) ->
  exists n, transformation_log w'
            = (transformation_log w ++ [(id, "aggregation", n)])%list.
Proof.
  unfold _apply_aggregation. intros H.
  log_bind H w1 group_nodes E1; [|keeps_tac].
  log_bind H w2 n E2;
    [|apply keeps_fold_m; intros; apply keeps_aggregate_group; auto with keeps].
  exists n. apply log_then_print in H. congruence.
Qed.




End TransformationLog.

(** ** Rules and relationships that can never produce anything *)

Section NothingProduced.
Import ExpressionEvaluator DynamicGraphBuilder RuleEngine Spec.

Lemma derive_from_single_source trans alias name en nodes :
  dn_source_entities trans = [(alias, name)] ->
  forall n w,
    forallb (fun x => has_node x (graph w)) nodes = true ->
    fold_m nodes n (derive_from trans en alias) w = (w, Ok n).
Proof.
  intros Hs. induction nodes as [|x nodes IH]; intros n w Hall; [reflexivity|].
  simpl in Hall. apply andb_true_iff in Hall as [Hx Hall].
  change (fold_m (x :: nodes) n (derive_from trans en alias) w)
    with (bind (derive_from trans en alias n x)
               (fun s' => fold_m nodes s' (derive_from trans en alias)) w).
  assert (Hd : derive_from trans en alias n x w = (w, Ok n)).
  { unfold derive_from, _find_matching_nodes. rewrite Hs.
    unfold bind at 1. unfold node_data.
    unfold has_node, dict_has in Hx.
    destruct (dict_get x (g_nodes (graph w))); [|discriminate].
    simpl. rewrite String.eqb_refl. reflexivity. }
  unfold bind. rewrite Hd. now apply IH.
Qed.



Lemma join_without_field_names c from_data to_data :
  dict_get "from_field" c = None \/ dict_get "to_field" c = None ->
  _evaluate_join_condition (VDict c) from_data to_data = Ok false.
Proof.
  intros [H|H]; unfold _evaluate_join_condition; rewrite H; simpl;
    [reflexivity|now rewrite andb_false_r].
Qed.


End NothingProduced.

(** ** What the builder loads *)

Section Loading.
Import ExpressionEvaluator DynamicGraphBuilder RuleEngine Spec.

Lemma fold_obind_stuck {A S} (F : S -> A -> outcome S) l o :
  (forall s, o <> Ok s) ->
  fold_left (fun acc m => obind acc (fun s => F s m)) l o = o.
Proof.
  intros Ho. induction l as [|m l IH]; simpl; auto.
  destruct o as [s|e|]; simpl; auto. now destruct (Ho s).
Qed.

Lemma fold_obind_inv {A S} (F : S -> A -> outcome S) (I : S -> Prop) l :
  (forall s m s', In m l -> I s -> F s m = Ok s' -> I s') ->
  forall s0 s,
    I s0 ->
    fold_left (fun acc m => obind acc (fun s => F s m)) l (Ok s0) = Ok s ->
    I s.
Proof.
  induction l as [|m l IH]; intros Hstep s0 s H0; simpl.
  - now intros [= <-].
  - destruct (F s0 m) as [s1|e|] eqn:E.
    + apply IH; [|eapply Hstep; eauto; now left].
      intros ? ? ? Hin. apply Hstep. now right.
    + rewrite fold_obind_stuck by discriminate. discriminate.
    + rewrite fold_obind_stuck by discriminate. discriminate.
Qed.

Lemma fold_obind_each {A S} (F : S -> A -> outcome S) l :
  forall s0 s,
    fold_left (fun acc m => obind acc (fun s => F s m)) l (Ok s0) = Ok s ->
    forall m, In m l -> exists a b, F a m = Ok b.
Proof.
  induction l as [|x l IH]; intros s0 s H m Hin; [destruct Hin|].
  simpl in H. destruct (F s0 x) as [s1|e|] eqn:E.
  - destruct Hin as [<-|Hin]; eauto.
  - rewrite fold_obind_stuck in H by discriminate. discriminate.
  - rewrite fold_obind_stuck in H by discriminate. discriminate.
Qed.



Lemma unique_keys_set {A} k (v : A) d :
  unique_keys d = true -> unique_keys (dict_set k v d) = true.
Proof.
  induction d as [|[k' v'] d IH]; simpl; [reflexivity|].
  intros H. apply andb_true_iff in H as [Hk Hu].
  destruct (String.eqb k k') eqn:E; simpl.
  - now rewrite Hk, Hu.
  - apply String.eqb_neq in E.
    rewrite dict_has_set_other by exact E. now rewrite Hk, IH.
Qed.

Lemma dict_get_update_absent {A} k (d attr : dict A) :
  dict_has k attr = false -> dict_get k (dict_update d attr) = dict_get k d.
Proof.
  unfold dict_update. revert d.
  induction attr as [|[k' v'] attr IH]; intros d H; simpl; [reflexivity|].
  unfold dict_has in H. simpl in H.
  destruct (String.eqb k k') eqn:E; [discriminate|].
  rewrite IH by exact H.
  apply dict_get_set_other. apply String.eqb_neq in E. congruence.
Qed.

Lemma dict_get_update_present {A} k (v : A) (d attr : dict A) :
  unique_keys attr = true -> dict_get k attr = Some v ->
  dict_get k (dict_update d attr) = Some v.
Proof.
  unfold dict_update. revert d.
  induction attr as [|[k' v'] attr IH]; intros d Hu H; simpl in *; [discriminate|].
  apply andb_true_iff in Hu as [Hk Hu].
  destruct (String.eqb k k') eqn:E.
  - apply String.eqb_eq in E. subst k'. injection H as ->.
    change (fold_left (fun acc kv => dict_set (fst kv) (snd kv) acc) attr
                      (dict_set k v d))
      with (dict_update (dict_set k v d) attr).
    rewrite dict_get_update_absent by (now apply negb_true_iff).
    apply dict_get_set_same.
  - now apply IH.
Qed.

Lemma extracted_properties_unique entity row properties :
  _extract_properties entity row = Ok properties ->
  unique_keys properties = true.
Proof.
  unfold _extract_properties.
  apply (@fold_obind_inv _ _
           (fun (properties : dict value) (item : string * FieldDef) =>
              let '(field_name, field_def) := item in
              match dict_get field_name row with
              | None =>
                  match fd_required field_def with
                  | Some r => if truthy r then Raise ValueError else Ok properties
                  | None => Ok properties
                  end
              | Some v =>
                  let prop_name :=
                    match fd_alias field_def with
                    | Some a => a
                    | None => field_name
                    end in
                  let field_type :=
                    match fd_type field_def with Some t => t | None => "string" end in
                  obind (_convert_value v field_type) (fun converted =>
                    let properties := dict_set prop_name converted properties in
                    match fd_alias field_def with
                    | Some _ => Ok (dict_set field_name converted properties)
                    | None => Ok properties
                    end)
              end)
           (fun p => unique_keys p = true)); [|reflexivity].
  intros p [name def] p' _ Hp. simpl.
  destruct (dict_get name row) as [v|].
  - destruct (_convert_value v _); simpl; try discriminate.
    destruct (fd_alias def); intros [= <-]; auto using unique_keys_set.
  - destruct (fd_required def) as [r|]; [destruct (truthy r)|];
      try discriminate; now intros [= <-].
Qed.


End Loading.

Section Extraction.
Import ExpressionEvaluator DynamicGraphBuilder RuleEngine Spec.

Lemma fold_obind_cover {A S} (F : S -> A -> outcome S)
      (Keep : S -> S -> Prop) (Good : A -> S -> Prop) l :
  (forall s, Keep s s) ->
  (forall s1 s2 s3, Keep s1 s2 -> Keep s2 s3 -> Keep s1 s3) ->
  (forall s m s', F s m = Ok s' -> Keep s s' /\ Good m s') ->
  (forall m s s', Good m s -> Keep s s' -> Good m s') ->
  forall s0 s,
    fold_left (fun acc m => obind acc (fun s => F s m)) l (Ok s0) = Ok s ->
    Keep s0 s /\ forall m, In m l -> Good m s.
Proof.
  intros Hrefl Htrans Hstep Hmono.
  induction l as [|x l IH]; intros s0 s H; simpl in H.
  - injection H as <-. split; [apply Hrefl|intros m []].
  - destruct (F s0 x) as [s1|e|] eqn:E;
      try (rewrite fold_obind_stuck in H by discriminate; discriminate).
    destruct (Hstep _ _ _ E) as [K1 G1].
    destruct (IH _ _ H) as [K2 G2].
    split; [eapply Htrans; eauto|].
    intros m [<-|Hin]; [eapply Hmono; eauto|auto].
Qed.


End Extraction.

(** ** Aggregates in the worlds the engine can reach *)

Section ReachedWorlds.
Import ExpressionEvaluator DynamicGraphBuilder RuleEngine Spec.

Lemma unique_keys_ensure n nodes :
  unique_keys nodes = true -> unique_keys (ensure_node n nodes) = true.
Proof.
  intros H. unfold ensure_node. destruct (dict_has n nodes); auto.
  now apply unique_keys_set.
Qed.

End ReachedWorlds.

(** ** Graph statistics *)

Section Statistics.
Import ExpressionEvaluator DynamicGraphBuilder RuleEngine Spec.

Lemma counted_count_up label counts :
  counted (count_up label counts) = S (counted counts).
Proof.
  induction counts as [|[l n] counts IH]; simpl; [reflexivity|].
  destruct (py_eq l label); simpl; [reflexivity|].
  rewrite IH. now rewrite Nat.add_succ_r.
Qed.

Lemma count_labels_counted attrs :
  forall acc counts,
    fold_left
      (fun acc data =>
         obind acc (fun counts =>
           let label :=
             match dict_get "label" data with
             | Some v => v
             | None => VStr "Unknown"
             end in
           obind (hashable label) (fun _ => Ok (count_up label counts))))
      attrs (Ok acc) = Ok counts ->
    counted counts = (counted acc + List.length attrs)%nat.
Proof.
  induction attrs as [|data attrs IH]; intros acc counts H; simpl in H.
  - injection H as <-. simpl. now rewrite Nat.add_0_r.
  - destruct (hashable match dict_get "label" data with
                       | Some v => v
                       | None => VStr "Unknown"
                       end) as [[]|e|]; simpl in H.
    + apply IH in H. rewrite H, counted_count_up. simpl.
      now rewrite Nat.add_succ_r.
    + rewrite (@fold_obind_stuck _ _
                 (fun counts data =>
                    obind (hashable match dict_get "label" data with
                                    | Some v => v
                                    | None => VStr "Unknown"
                                    end)
                          (fun _ => Ok (count_up
                                          match dict_get "label" data with
                                          | Some v => v
                                          | None => VStr "Unknown"
                                          end counts)))) in H
        by discriminate.
      discriminate.
    + rewrite (@fold_obind_stuck _ _
                 (fun counts data =>
                    obind (hashable match dict_get "label" data with
                                    | Some v => v
                                    | None => VStr "Unknown"
                                    end)
                          (fun _ => Ok (count_up
                                          match dict_get "label" data with
                                          | Some v => v
                                          | None => VStr "Unknown"
                                          end counts)))) in H
        by discriminate.
      discriminate.
Qed.

Lemma list_sum_map_add {A} (a b : A -> nat) (l : list A) :
  list_sum (map (fun k => (a k + b k)%nat) l)
  = (list_sum (map a l) + list_sum (map b l))%nat.
Proof. induction l as [|x l IH]; simpl; lia. Qed.

Lemma no_hit a ks :
  existsb (String.eqb a) ks = false ->
  list_sum (map (fun k => if String.eqb a k then 1%nat else 0%nat) ks) = 0%nat.
Proof.
  induction ks as [|k ks IH]; simpl; [reflexivity|].
  intros H. apply orb_false_iff in H as [-> H]. now rewrite IH.
Qed.

Lemma one_hit a ks :
  distinct ks = true -> existsb (String.eqb a) ks = true ->
  list_sum (map (fun k => if String.eqb a k then 1%nat else 0%nat) ks) = 1%nat.
Proof.
  induction ks as [|k ks IH]; simpl; [discriminate|].
  intros Hd Hin. apply andb_true_iff in Hd as [Hk Hd].
  apply negb_true_iff in Hk.
  destruct (String.eqb a k) eqn:E.
  - apply String.eqb_eq in E. subst k. now rewrite no_hit.
  - simpl in Hin. now rewrite IH.
Qed.

Lemma count_by_key {B} (f : B -> string) (ks : list string) (l : list B) :
  distinct ks = true ->
  forallb (fun x => existsb (String.eqb (f x)) ks) l = true ->
  list_sum (map (fun k => List.length (filter (fun x => String.eqb (f x) k) l)) ks)
  = List.length l.
Proof.
  intros Hd. induction l as [|x l IH]; simpl; intros H.
  - clear. induction ks; simpl; auto.
  - apply andb_true_iff in H as [Hx H].
    transitivity (list_sum (map (fun k => if String.eqb (f x) k then 1%nat else 0%nat) ks)
                  + list_sum (map (fun k => List.length
                                     (filter (fun y => String.eqb (f y) k) l)) ks))%nat.
    + rewrite <- list_sum_map_add. f_equal. apply map_ext. intros k.
      now destruct (String.eqb (f x) k).
    + rewrite (@one_hit (f x) ks Hd Hx), (IH H). reflexivity.
Qed.

Lemma dedup_outside seen l x :
  existsb (String.eqb x) (dedup seen l) = true ->
  existsb (String.eqb x) seen = false.
Proof.
  revert seen. induction l as [|y l IH]; intros seen; simpl; [discriminate|].
  destruct (existsb (String.eqb y) seen) eqn:E; [apply IH|].
  simpl. destruct (String.eqb x y) eqn:Exy; simpl.
  - apply String.eqb_eq in Exy. now subst.
  - intros H. apply IH in H. simpl in H. now apply orb_false_iff in H as [_ H].
Qed.

Lemma dedup_distinct seen l : distinct (dedup seen l) = true.
Proof.
  revert seen. induction l as [|y l IH]; intros seen; simpl; [reflexivity|].
  destruct (existsb (String.eqb y) seen) eqn:E; [apply IH|].
  simpl. rewrite IH, andb_true_r. apply negb_true_iff.
  destruct (existsb (String.eqb y) (dedup (y :: seen) l)) eqn:E'; auto.
  apply dedup_outside in E'. simpl in E'. now rewrite String.eqb_refl in E'.
Qed.

Lemma dedup_covers seen l :
  forallb (fun x => existsb (String.eqb x) seen
                    || existsb (String.eqb x) (dedup seen l)) l = true.
Proof.
  revert seen. induction l as [|y l IH]; intros seen; simpl; [reflexivity|].
  destruct (existsb (String.eqb y) seen) eqn:E; simpl.
  - apply IH.
  - rewrite String.eqb_refl. simpl.
    specialize (IH (y :: seen)). rewrite forallb_forall in *.
    intros x Hx. specialize (IH x Hx). simpl in IH.
    destruct (String.eqb x y) eqn:Exy; simpl in *.
    + now rewrite orb_true_r.
    + exact IH.
Qed.

Lemma filter_between n v (es : list edge) :
  filter (edge_between n v) es
  = filter (fun e => String.eqb (e_to e) v)
           (filter (fun e => String.eqb (e_from e) n) es).
Proof.
  induction es as [|e es IH]; simpl; [reflexivity|].
  unfold edge_between at 1. destruct (String.eqb (e_from e) n); simpl.
  - destruct (String.eqb (e_to e) v); now rewrite IH.
  - apply IH.
Qed.

Lemma edges_from_by_target n g :
  List.length (flat_map (fun v => filter (edge_between n v) (g_edges g))
                        (nx_successors n g))
  = List.length (filter (fun e => String.eqb (e_from e) n) (g_edges g)).
Proof.
  rewrite length_flat_map. unfold nx_successors.
  set (es := filter (fun e => String.eqb (e_from e) n) (g_edges g)).
  rewrite <- (@count_by_key edge e_to (dedup [] (map e_to es)) es).
  - f_equal. apply map_ext. intros v. now rewrite filter_between.
  - apply dedup_distinct.
  - pose proof (dedup_covers [] (map e_to es)) as H.
    rewrite forallb_forall in *. intros e He.
    apply (H (e_to e)). now apply in_map.
Qed.

Lemma unique_keys_distinct {A} (d : dict A) :
  unique_keys d = distinct (map fst d).
Proof.
  induction d as [|[k v] d IH]; simpl; [reflexivity|].
  rewrite IH. f_equal. f_equal. unfold dict_has.
  clear. induction d as [|[k' v'] d IH]; simpl; [reflexivity|].
  destruct (String.eqb k k'); simpl; auto.
Qed.

Lemma dict_has_keys {A} (k : string) (d : dict A) :
  dict_has k d = existsb (String.eqb k) (map fst d).
Proof.
  unfold dict_has. induction d as [|[k' v'] d IH]; simpl; [reflexivity|].
  destruct (String.eqb k k'); simpl; auto.
Qed.

(** Under the graph invariants, [edges()] lists every edge once. *)
Lemma length_nx_edges g :
  unique_keys (g_nodes g) = true -> edges_closed g = true ->
  List.length (nx_edges g) = List.length (g_edges g).
Proof.
  intros Hu Hc. unfold nx_edges. rewrite length_flat_map.
  rewrite <- (@count_by_key edge e_from (map fst (g_nodes g)) (g_edges g)).
  - rewrite map_map. f_equal. apply map_ext. intros nd.
    apply edges_from_by_target.
  - now rewrite <- unique_keys_distinct.
  - unfold edges_closed in Hc. rewrite forallb_forall in *. intros e He.
    specialize (Hc e He). apply andb_true_iff in Hc as [Hc _].
    unfold has_node in Hc. now rewrite <- dict_has_keys.
Qed.


End Statistics.

(** ** Field references are substituted as text *)

Section FieldSubstitution.
Import ExpressionEvaluator DynamicGraphBuilder RuleEngine Spec.

Lemma chars_app s t : chars (s ++ t) = (chars s ++ chars t)%list.
Proof. induction s as [|c s IH]; simpl; [reflexivity|]. now rewrite <- IH. Qed.

Lemma str_of_chars s : str_of (chars s) = s.
Proof. apply string_of_list_ascii_of_string. Qed.

Lemma lex_string_plain l :
  forall acc,
    forallb (fun c => negb (Ascii.eqb c "'"%char)
                      && negb (Ascii.eqb c "\"%char || Ascii.eqb c "010"%char
                               || negb (is_ascii7 c))) l = true ->
    lex_string "'"%char (l ++ ["'"%char]) acc
    = Some (str_of (rev acc ++ l), []).
Proof.
  induction l as [|c l IH]; intros acc H; simpl.
  - now rewrite app_nil_r.
  - simpl in H. apply andb_true_iff in H as [Hc H].
    apply andb_true_iff in Hc as [Hq Hb].
    apply negb_true_iff in Hq. apply negb_true_iff in Hb.
    rewrite Hq, Hb. rewrite IH by exact H.
    simpl. now rewrite <- app_assoc.
Qed.

Lemma tokenize_quoted s :
  plain_text s = true -> tokenize ("'" ++ s ++ "'") = Some [TStr s].
Proof.
  intros H. unfold tokenize.
  change (chars ("'" ++ s ++ "'")) with ("'"%char :: chars (s ++ "'")).
  change (String.length ("'" ++ s ++ "'")) with (S (String.length (s ++ "'"))).
  rewrite chars_app.
  change (tokenize_aux (S (S (String.length (s ++ "'"))))
                       ("'"%char :: chars s ++ chars "'"))
    with (match lex_string "'"%char (chars s ++ ["'"%char]) [] with
          | Some (s', r) =>
              option_map (cons (TStr s'))
                         (tokenize_aux (S (String.length (s ++ "'"))) r)
          | None => None
          end).
  rewrite lex_string_plain by exact H. simpl.
  now rewrite str_of_chars.
Qed.


End FieldSubstitution.

(** ** Composite conditions *)

Section CompositeConditions.
Import ExpressionEvaluator DynamicGraphBuilder RuleEngine Spec.

Lemma value_depth_get d k v :
  dict_get k d = Some v -> (value_depth v < value_depth (VDict d))%nat.
Proof.
  simpl. induction d as [|[k' v'] d IH]; simpl; [discriminate|].
  destruct (String.eqb k k').
  - intros [= ->]. lia.
  - intros H. specialize (IH H). simpl in IH. lia.
Qed.

Lemma value_depth_in l x :
  In x l -> (value_depth x < value_depth (VList l))%nat.
Proof.
  simpl. induction l as [|y l IH]; simpl; [tauto|].
  intros [->|H]; [lia|]. specialize (IH H). lia.
Qed.

(** The fuel of [evaluate_condition] is enough: beyond the nesting depth
    of the condition the result does not depend on it. *)
Lemma condition_fuel_enough ctx :
  forall n m c,
    (value_depth c < n)%nat -> (value_depth c < m)%nat ->
    evaluate_condition_fuel n c ctx = evaluate_condition_fuel m c ctx.
Proof.
  induction n as [|n IH]; intros m c Hn Hm; [lia|].
  destruct m as [|m]; [lia|].
  destruct c as [| | | | | |d]; try reflexivity.
  simpl.
  destruct (dict_get "operator" d) as [[| | | |op| |]|]; try reflexivity.
  destruct (dict_get "conditions" d) as [[| | | | |l|]|] eqn:El; try reflexivity.
  assert (Hl : forall x, In x l -> (value_depth x < n)%nat /\ (value_depth x < m)%nat).
  { intros x Hx. apply value_depth_in in Hx. apply value_depth_get in El. lia. }
  destruct (String.eqb (str_upper op) "AND").
  { clear El. induction l as [|x l IHl]; [reflexivity|].
    rewrite (IH m x) by (apply Hl; now left).
    rewrite IHl by (intros; apply Hl; now right). reflexivity. }
  destruct (String.eqb (str_upper op) "OR").
  { clear El. induction l as [|x l IHl]; [reflexivity|].
    rewrite (IH m x) by (apply Hl; now left).
    rewrite IHl by (intros; apply Hl; now right). reflexivity. }
  destruct (String.eqb (str_upper op) "NOT"); [|reflexivity].
  destruct l as [|x l]; [reflexivity|].
  rewrite (IH m x) by (apply Hl; now left). reflexivity.
Qed.


End CompositeConditions.
